(** * Pulse network monitor: scan pipeline and device reconciliation

    A shallow embedding of the Python sources of the scan pipeline
    (pulse/parser/nmap_parser.py, pulse/services/device_recognition.py,
    pulse/scanner/engine.py, pulse/storage/db.py, pulse/scanner/worker.py,
    pulse/scheduler/scheduler.py) and the properties of the specification
    that are checked against them.

    Conventions.
    - A Python [str] is a [string] (a sequence of bytes); [lower], [upper]
      and [int] are modelled on the ASCII range.
    - A dict is a record; a key that the code reads with [d.get(k)] is an
      [option] field ([None]: key absent or bound to Python's None), a key
      read with [d.get(k, default)] is a [Field] (absent, None or a value),
      because the default only applies to an absent key.
    - A Python exception is a [Raise] in the [result] monad.
    - SQL statements act on a [Store]; CURRENT_TIMESTAMP is the [now]
      argument of the statement, in seconds. *)

From Stdlib Require Import ZArith Lia Ascii.
From stdpp Require Import base option list gmap strings sorting.

Local Open Scope Z_scope.
Set Warnings "-clear-no-such-hyp".

(** ** Python values and builtins *)
Module Py.

Inductive ExnClass :=
| ParseError | ValueError | TypeError | AttributeError
| DatabaseError | TimeoutExpired | OtherException.

(** An exception: its class and the text of [str(e)]. *)
Record Exn := mkExn { exn_class : ExnClass; exn_str : string }.

Inductive result (A : Type) : Type :=
| Ok (a : A)
| Raise (e : Exn).
Global Arguments Ok {A} a.
Global Arguments Raise {A} e.

Global Instance result_ret : MRet result := λ A a, Ok a.
Global Instance result_bind : MBind result := λ A B k m,
  match m with Ok a => k a | Raise e => Raise e end.
Global Instance result_fmap : FMap result := λ A B f m,
  match m with Ok a => Ok (f a) | Raise e => Raise e end.

Definition is_ok {A} (m : result A) : bool :=
  match m with Ok _ => true | Raise _ => false end.

(** A dict entry read with a default. *)
Inductive Field (A : Type) : Type :=
| Missing
| PyNone
| Has (a : A).
Global Arguments Missing {A}.
Global Arguments PyNone {A}.
Global Arguments Has {A} a.

(** [d.get(k)] *)
Definition get {A} (f : Field A) : option A :=
  match f with Has a => Some a | _ => None end.

(** [d.get(k, dflt)] *)
Definition get_default {A} (f : Field A) (dflt : A) : option A :=
  match f with Missing => Some dflt | PyNone => None | Has a => Some a end.

(** Truth value of a [str] or None. *)
Definition truthy (o : option string) : bool :=
  match o with
  | Some (String _ _) => true
  | _ => false
  end.

(** [x or EmptyString] for a [str] or None. *)
Definition or_empty (o : option string) : string := default EmptyString o.

(** [str(x)] of a [str] or None. *)
Definition str_opt (o : option string) : string := default "None" o.

Definition map_ascii (f : ascii → ascii) : string → string :=
  fix go s := match s with
              | EmptyString => EmptyString
              | String c s' => String (f c) (go s')
              end.

Definition lower_ascii (c : ascii) : ascii :=
  let n := Ascii.N_of_ascii c in
  if ((65 <=? n) && (n <=? 90))%N then Ascii.ascii_of_N (n + 32) else c.

Definition upper_ascii (c : ascii) : ascii :=
  let n := Ascii.N_of_ascii c in
  if ((97 <=? n) && (n <=? 122))%N then Ascii.ascii_of_N (n - 32) else c.

(** [s.lower()], [s.upper()] *)
Definition lower : string → string := map_ascii lower_ascii.
Definition upper : string → string := map_ascii upper_ascii.

(** [s[:n]] *)
Fixpoint slice_to (n : nat) (s : string) : string :=
  match n, s with
  | S n', String c s' => String c (slice_to n' s')
  | _, _ => EmptyString
  end.

(** [s.replace(c, EmptyString)] for a one-character [c] *)
Fixpoint remove_char (c : ascii) (s : string) : string :=
  match s with
  | EmptyString => EmptyString
  | String a s' =>
      if bool_decide (a = c) then remove_char c s' else String a (remove_char c s')
  end.

(** [needle in hay] *)
Fixpoint contains (needle hay : string) : bool :=
  String.prefix needle hay ||
  match hay with
  | EmptyString => false
  | String _ hay' => contains needle hay'
  end.

Fixpoint lstrip (s : string) : string :=
  match s with
  | String c s' => if Ascii.is_space c then lstrip s' else s
  | EmptyString => EmptyString
  end.

Definition strip (s : string) : string :=
  String.rev (lstrip (String.rev (lstrip s))).

Definition digit (c : ascii) : option Z :=
  Z.of_nat <$> Ascii.is_nat c.

(** Decimal digits with single underscores between digits. *)
Fixpoint digits (acc : Z) (after_digit : bool) (s : string) : option Z :=
  match s with
  | EmptyString => if after_digit then Some acc else None
  | String c s' =>
      match digit c with
      | Some d => digits (10 * acc + d) true s'
      | None =>
          if bool_decide (c = "_"%char) && after_digit
          then digits acc false s'
          else None
      end
  end.

(** [int(s)] for a [str]: [None] stands for the ValueError. *)
Definition int (s : string) : option Z :=
  match strip s with
  | String "+" s' => digits 0 false s'
  | String "-" s' => Z.opp <$> digits 0 false s'
  | s' => digits 0 false s'
  end.

(** Python's [max(xs, key=...)] on the computed keys: the first element
    whose key is not exceeded; only a strictly larger key replaces the
    current best. *)
Fixpoint max_from {A} (best : A * Z) (l : list (A * Z)) : A * Z :=
  match l with
  | [] => best
  | x :: l' => max_from (if best.2 <? x.2 then x else best) l'
  end.

Definition max_by_key {A} (l : list (A * Z)) : option (A * Z) :=
  match l with
  | [] => None
  | x :: l' => Some (max_from x l')
  end.

(** Decimal text of an integer, as [str(n)] and f-strings print it. *)
Definition digit_char (d : Z) : ascii :=
  Ascii.ascii_of_N (48 + Z.to_N d).

Fixpoint pos_digits (fuel : nat) (n : Z) (acc : string) : string :=
  match fuel with
  | O => acc
  | S fuel' =>
      let acc' := String (digit_char (n mod 10)) acc in
      if n <? 10 then acc' else pos_digits fuel' (n / 10) acc'
  end.

Definition str_Z (n : Z) : string :=
  if n <? 0
  then String "-" (pos_digits (S (Z.to_nat (Z.log2 (- n)))) (- n) EmptyString)
  else pos_digits (S (Z.to_nat (Z.log2 n))) n EmptyString.

(** [d[k] = v] on a dict kept in insertion order: an existing key keeps
    its position. *)
Fixpoint dict_set {V} (k : string) (v : V) (d : list (string * V)) : list (string * V) :=
  match d with
  | [] => [(k, v)]
  | (k', v') :: d' =>
      if bool_decide (k' = k) then (k, v) :: d' else (k', v') :: dict_set k v d'
  end.

Fixpoint dict_get {V} (k : string) (d : list (string * V)) : option V :=
  match d with
  | [] => None
  | (k', v') :: d' => if bool_decide (k' = k) then Some v' else dict_get k d'
  end.

(** Library behaviour the sources rely on and that is not theirs: the
    text of the ValueError of [int], the local-time ISO text of a POSIX
    timestamp ([None]: the conversion raises), [isoformat()] of an instant
    of [datetime.now()] (in microseconds) and [shlex.split]. *)
Class Builtins := {
  int_error : string → string;
  fromtimestamp_isoformat : Z → option string;
  isoformat : Z → string;
  shlex_split : string → result (list string)
}.

(** [int(d.get(k, 0))] where the entry, when present, is a [str]. *)
Definition int_field `{Builtins} (f : Field string) : result Z :=
  match f with
  | Missing => Ok 0
  | PyNone =>
      Raise (mkExn TypeError "int() argument must be a string, a bytes-like object or a real number, not 'NoneType'")
  | Has s =>
      match int s with
      | Some n => Ok n
      | None => Raise (mkExn ValueError (int_error s))
      end
  end.

End Py.

Export Py (result(..), Field(..), Exn(..), ExnClass(..)).


(** ** xml.etree.ElementTree: the part of the element interface the parser uses *)
Module ET.

#[warnings="-register-all"]
Inductive Element :=
| Elem (tag : string) (attrib : list (string * string))
       (text : option string) (children : list Element).

Definition tag (e : Element) : string := let 'Elem t _ _ _ := e in t.
Definition attrib (e : Element) : list (string * string) := let 'Elem _ a _ _ := e in a.
Definition text (e : Element) : option string := let 'Elem _ _ x _ := e in x.
Definition children (e : Element) : list Element := let 'Elem _ _ _ c := e in c.

(** [e.findall(t)]: the direct children with tag [t], in document order. *)
Definition findall (e : Element) (t : string) : list Element :=
  filter (λ c, tag c = t) (children e).

(** [e.find(t)]: the first of them, or None. *)
Definition find (e : Element) (t : string) : option Element :=
  head (findall e t).

(** [e.get(k)] and [e.get(k, dflt)] *)
Definition get (e : Element) (k : string) : option string :=
  Py.dict_get k (attrib e).
Definition get_default (e : Element) (k dflt : string) : string :=
  default dflt (get e k).

(** [ET.fromstring]: the XML reader itself is the library's. *)
Class Reader := { fromstring : string → result Element }.

End ET.

(** ** pulse/parser/nmap_parser.py *)
Module NmapParser.
Import Py.

Record OsClass := {
  oc_type : option string;
  oc_vendor : option string;
  oc_osfamily : option string;
  oc_osgen : option string;
  oc_accuracy : option string;
  oc_cpe : option (list string)
}.

Record OsMatch := {
  om_name : option string;
  om_accuracy : Field string;
  om_line : option string;
  om_classes : option (list OsClass)
}.

Record OsInfo := {
  os_matches : list OsMatch;
  os_classes : list OsClass;
  os_best_match : option OsMatch
}.

Record Service := {
  svc_name : option string;
  svc_product : option string;
  svc_version : option string;
  svc_extrainfo : option string;
  svc_ostype : option string;
  svc_method : option string;
  svc_conf : option string;
  svc_cpe : option (list string)
}.

Record Script := {
  script_id : string;
  script_output : string;
  script_data : option (list (string * string))
}.

Record Port := {
  port_port : Field string;
  port_protocol : Field string;
  port_state : Field string;
  port_reason : option string;
  port_service : Field Service;
  port_scripts : option (list Script)
}.

Record Uptime := { up_seconds : string; up_lastboot : string }.

Record Host := {
  host_status : option string;
  host_reason : option string;
  host_ip_address : option string;
  host_ipv6_address : option string;
  host_mac_address : option string;
  host_vendor : option string;
  host_hostnames : option (list string);
  host_hostname : option string;
  host_os : option OsInfo;
  host_ports : option (list Port);
  host_host_scripts : option (list Script);
  host_uptime : option Uptime;
  host_distance : option string
}.

Record ScanInfo := {
  si_nmap_version : string;
  si_args : string;
  si_type : option string;
  si_protocol : option string;
  si_services : option string;
  si_start_time : string
}.

Record RunStats := {
  rs_end_time : option string;
  rs_elapsed : option string;
  rs_hosts_up : option Z;
  rs_hosts_down : option Z;
  rs_hosts_total : option Z
}.

(** The dict [parse_xml] returns: either the single key [error], or the
    six keys of a parsed run. *)
Inductive ParsedData :=
| PError (error : string)
| PRun (scan_info : ScanInfo) (hosts : list Host) (run_stats : RunStats)
       (hosts_up hosts_down hosts_total : Z).

(** The [metadata] dict of an extracted device. *)
Record Metadata := {
  md_ports : option (list Port);
  md_open_ports_count : option Z;
  md_all_hostnames : option (list string);
  md_uptime : option Uptime;
  md_distance : option string
}.

Definition empty_metadata : Metadata :=
  {| md_ports := None; md_open_ports_count := None; md_all_hostnames := None;
     md_uptime := None; md_distance := None |}.

(** A device dict, as [extract_devices] builds it and as
    [Database.add_device] and the classifier read it. *)
Record DeviceData := {
  dd_ip_address : option string;
  dd_mac_address : option string;
  dd_hostname : option string;
  dd_vendor : option string;
  dd_oui : option string;
  dd_device_type : option string;
  dd_os_name : option string;
  dd_os_family : option string;
  dd_os_version : option string;
  dd_os_accuracy : option Z;
  dd_status : Field string;
  dd_metadata : Field Metadata
}.

Section Functions.
Context `{!Builtins, !ET.Reader}.

(** [_parse_scan_info] *)
Definition _parse_scan_info (root : ET.Element) : ScanInfo :=
  let scaninfo_elem := ET.find root "scaninfo" in
  let start := ET.get_default root "start" EmptyString in
  {| si_nmap_version := ET.get_default root "version" EmptyString;
     si_args := ET.get_default root "args" EmptyString;
     si_type := (λ e, ET.get_default e "type" EmptyString) <$> scaninfo_elem;
     si_protocol := (λ e, ET.get_default e "protocol" EmptyString) <$> scaninfo_elem;
     si_services := (λ e, ET.get_default e "services" EmptyString) <$> scaninfo_elem;
     si_start_time :=
       if truthy (Some start)
       then default start (int start ≫= fromtimestamp_isoformat)
       else start |}.

Record Addresses := {
  a_ip_address : option string;
  a_ipv6_address : option string;
  a_mac_address : option string;
  a_vendor : option string
}.

(** [_parse_addresses]: a later address element of the same type
    replaces an earlier one. *)
Definition _parse_addresses (host_elem : ET.Element) : Addresses :=
  foldl (λ addresses addr_elem,
           let addr_type := ET.get_default addr_elem "addrtype" "unknown" in
           let addr := ET.get_default addr_elem "addr" EmptyString in
           if bool_decide (addr_type = "ipv4") then
             {| a_ip_address := Some addr;
                a_ipv6_address := a_ipv6_address addresses;
                a_mac_address := a_mac_address addresses;
                a_vendor := a_vendor addresses |}
           else if bool_decide (addr_type = "ipv6") then
             {| a_ip_address := a_ip_address addresses;
                a_ipv6_address := Some addr;
                a_mac_address := a_mac_address addresses;
                a_vendor := a_vendor addresses |}
           else if bool_decide (addr_type = "mac") then
             let vendor := ET.get_default addr_elem "vendor" EmptyString in
             {| a_ip_address := a_ip_address addresses;
                a_ipv6_address := a_ipv6_address addresses;
                a_mac_address := Some addr;
                a_vendor := if truthy (Some vendor) then Some vendor
                            else a_vendor addresses |}
           else addresses)
        {| a_ip_address := None; a_ipv6_address := None;
           a_mac_address := None; a_vendor := None |}
        (ET.findall host_elem "address").

(** [_parse_hostnames] *)
Definition _parse_hostnames (host_elem : ET.Element) : list string :=
  match ET.find host_elem "hostnames" with
  | None => []
  | Some hostnames_elem =>
      filter (λ name, truthy (Some name))
             ((λ e, ET.get_default e "name" EmptyString)
                <$> ET.findall hostnames_elem "hostname")
  end.

(** [[elem.text for elem in cpe_elems if elem.text]], set only when
    there is a cpe element. *)
Definition cpe_texts (e : ET.Element) : option (list string) :=
  match ET.findall e "cpe" with
  | [] => None
  | cpe_elems => Some (omap (λ c, if truthy (ET.text c) then ET.text c else None) cpe_elems)
  end.

Definition parse_osclass (class_elem : ET.Element) : OsClass :=
  {| oc_type := Some (ET.get_default class_elem "type" EmptyString);
     oc_vendor := Some (ET.get_default class_elem "vendor" EmptyString);
     oc_osfamily := Some (ET.get_default class_elem "osfamily" EmptyString);
     oc_osgen := Some (ET.get_default class_elem "osgen" EmptyString);
     oc_accuracy := Some (ET.get_default class_elem "accuracy" EmptyString);
     oc_cpe := cpe_texts class_elem |}.

Definition parse_osmatch (match_elem : ET.Element) : OsMatch :=
  {| om_name := Some (ET.get_default match_elem "name" EmptyString);
     om_accuracy := Has (ET.get_default match_elem "accuracy" EmptyString);
     om_line := Some (ET.get_default match_elem "line" EmptyString);
     om_classes := Some (parse_osclass <$> ET.findall match_elem "osclass") |}.

(** [max(matches, key=lambda x: int(x.get('accuracy', 0)))]: the keys
    are computed in order, the first failing [int] raises. *)
Definition best_match_of (matches : list OsMatch) : result (option OsMatch) :=
  keys ← mapM (λ m, int_field (om_accuracy m)) matches;
  mret (fst <$> max_by_key (zip matches keys)).

(** [_parse_os] *)
Definition _parse_os (host_elem : ET.Element) : result (option OsInfo) :=
  match ET.find host_elem "os" with
  | None => Ok None
  | Some os_elem =>
      let matches := parse_osmatch <$> ET.findall os_elem "osmatch" in
      match matches with
      | [] => Ok None
      | _ =>
          best ← best_match_of matches;
          mret (Some {| os_matches := matches; os_classes := [];
                        os_best_match := best |})
      end
  end.

(** The [script] dicts of an element that holds script elements. *)
Definition parse_script (script_elem : ET.Element) : Script :=
  let elem_data :=
    foldl (λ d elem,
             let key := ET.get_default elem "key" EmptyString in
             if truthy (Some key)
             then dict_set key (or_empty (ET.text elem)) d
             else d)
          [] (ET.findall script_elem "elem") in
  {| script_id := ET.get_default script_elem "id" EmptyString;
     script_output := ET.get_default script_elem "output" EmptyString;
     script_data := match elem_data with [] => None | _ => Some elem_data end |}.

Definition parse_service (service_elem : ET.Element) : Service :=
  {| svc_name := Some (ET.get_default service_elem "name" EmptyString);
     svc_product := Some (ET.get_default service_elem "product" EmptyString);
     svc_version := Some (ET.get_default service_elem "version" EmptyString);
     svc_extrainfo := Some (ET.get_default service_elem "extrainfo" EmptyString);
     svc_ostype := Some (ET.get_default service_elem "ostype" EmptyString);
     svc_method := Some (ET.get_default service_elem "method" EmptyString);
     svc_conf := Some (ET.get_default service_elem "conf" EmptyString);
     svc_cpe := cpe_texts service_elem |}.

Definition parse_port (port_elem : ET.Element) : Port :=
  let state_elem := ET.find port_elem "state" in
  let scripts := parse_script <$> ET.findall port_elem "script" in
  {| port_port := Has (ET.get_default port_elem "portid" EmptyString);
     port_protocol := Has (ET.get_default port_elem "protocol" "tcp");
     port_state :=
       match state_elem with
       | Some e => Has (ET.get_default e "state" EmptyString)
       | None => Missing
       end;
     port_reason := (λ e, ET.get_default e "reason" EmptyString) <$> state_elem;
     port_service :=
       match ET.find port_elem "service" with
       | Some e => Has (parse_service e)
       | None => Missing
       end;
     port_scripts := match scripts with [] => None | _ => Some scripts end |}.

(** [_parse_ports] *)
Definition _parse_ports (host_elem : ET.Element) : list Port :=
  match ET.find host_elem "ports" with
  | None => []
  | Some ports_elem => parse_port <$> ET.findall ports_elem "port"
  end.

(** [_parse_host_scripts] *)
Definition _parse_host_scripts (host_elem : ET.Element) : list Script :=
  match ET.find host_elem "hostscript" with
  | None => []
  | Some hostscript_elem => parse_script <$> ET.findall hostscript_elem "script"
  end.

Definition nonempty {A} (l : list A) : option (list A) :=
  match l with [] => None | _ => Some l end.

(** [_parse_host]: None when the host element has no status. *)
Definition _parse_host (host_elem : ET.Element) : result (option Host) :=
  match ET.find host_elem "status" with
  | None => Ok None
  | Some status_elem =>
      let addresses := _parse_addresses host_elem in
      let hostnames := _parse_hostnames host_elem in
      os_info ← _parse_os host_elem;
      mret (Some
        {| host_status := Some (ET.get_default status_elem "state" "unknown");
           host_reason := Some (ET.get_default status_elem "reason" EmptyString);
           host_ip_address := a_ip_address addresses;
           host_ipv6_address := a_ipv6_address addresses;
           host_mac_address := a_mac_address addresses;
           host_vendor := a_vendor addresses;
           host_hostnames := nonempty hostnames;
           host_hostname := head hostnames;
           host_os := os_info;
           host_ports := nonempty (_parse_ports host_elem);
           host_host_scripts := nonempty (_parse_host_scripts host_elem);
           host_uptime :=
             (λ e, {| up_seconds := ET.get_default e "seconds" EmptyString;
                      up_lastboot := ET.get_default e "lastboot" EmptyString |})
               <$> ET.find host_elem "uptime";
           host_distance :=
             (λ e, ET.get_default e "value" EmptyString)
               <$> ET.find host_elem "distance" |})
  end.

(** [int(elem.get(k, 0))] on an attribute. *)
Definition int_attr (e : ET.Element) (k : string) : result Z :=
  int_field (from_option Has Missing (ET.get e k)).

(** [_parse_run_stats] *)
Definition _parse_run_stats (root : ET.Element) : result RunStats :=
  match ET.find root "runstats" with
  | None =>
      Ok {| rs_end_time := None; rs_elapsed := None; rs_hosts_up := None;
            rs_hosts_down := None; rs_hosts_total := None |}
  | Some runstats_elem =>
      let finished_elem := ET.find runstats_elem "finished" in
      let end_time := (λ e, ET.get_default e "timestr" EmptyString) <$> finished_elem in
      let elapsed := (λ e, ET.get_default e "elapsed" EmptyString) <$> finished_elem in
      match ET.find runstats_elem "hosts" with
      | None =>
          Ok {| rs_end_time := end_time; rs_elapsed := elapsed; rs_hosts_up := None;
                rs_hosts_down := None; rs_hosts_total := None |}
      | Some hosts_elem =>
          up ← int_attr hosts_elem "up";
          down ← int_attr hosts_elem "down";
          total ← int_attr hosts_elem "total";
          mret {| rs_end_time := end_time; rs_elapsed := elapsed;
                  rs_hosts_up := Some up; rs_hosts_down := Some down;
                  rs_hosts_total := Some total |}
      end
  end.

(** The body of the [try] of [parse_xml]. *)
Definition parse_document (xml_output : string) : result ParsedData :=
  root ← ET.fromstring xml_output;
  let scan_info := _parse_scan_info root in
  host_data ← mapM _parse_host (ET.findall root "host");
  let hosts := omap id host_data in
  run_stats ← _parse_run_stats root;
  mret (PRun scan_info hosts run_stats
             (default 0 (rs_hosts_up run_stats))
             (default 0 (rs_hosts_down run_stats))
             (default 0 (rs_hosts_total run_stats))).

(** [parse_xml] *)
Definition parse_xml (xml_output : string) : ParsedData :=
  if negb (truthy (Some xml_output)) then PError "Empty XML output"
  else
    match parse_document xml_output with
    | Ok result => result
    | Raise e =>
        match exn_class e with
        | ParseError => PError ("XML parse error: " +:+ exn_str e)
        | _ => PError ("Error parsing XML: " +:+ exn_str e)
        end
    end.

(** [parsed_data.get('hosts', [])] *)
Definition hosts_of (parsed_data : ParsedData) : list Host :=
  match parsed_data with
  | PError _ => []
  | PRun _ hosts _ _ _ _ => hosts
  end.

(** [port.get('state') == 'open'] *)
Definition is_open (p : Port) : bool :=
  bool_decide (get (port_state p) = Some "open").

(** The port dicts of a device dict: those of its metadata, none when
    the metadata or its port list is missing. *)
Definition device_ports (device_data : DeviceData) : list Port :=
  default [] (get (dd_metadata device_data) ≫= md_ports).

(** The device dict [extract_devices] builds for one host that is up. *)
Definition device_of_host (host : Host) : result DeviceData :=
  let mac_address := host_mac_address host in
  let best_match := host_os host ≫= os_best_match in
  let classes := default [] (best_match ≫= om_classes) in
  let ports := default [] (host_ports host) in
  os_accuracy ←
    match best_match with
    | Some m => Some <$> int_field (om_accuracy m)
    | None => Ok None
    end;
  mret
    {| dd_ip_address := host_ip_address host;
       dd_mac_address := mac_address;
       dd_hostname := host_hostname host;
       dd_vendor := host_vendor host;
       dd_oui :=
         if truthy mac_address
         then Some (upper (remove_char ":" (slice_to 8 (or_empty mac_address))))
         else None;
       dd_device_type := None;
       dd_os_name := best_match ≫= om_name;
       dd_os_family := head classes ≫= oc_osfamily;
       dd_os_version := head classes ≫= oc_osgen;
       dd_os_accuracy := os_accuracy;
       dd_status := from_option Has PyNone (host_status host);
       dd_metadata := Has
         {| md_ports := match ports with [] => None | _ => Some ports end;
            md_open_ports_count :=
              match ports with
              | [] => None
              | _ => Some (Z.of_nat (length (filter (λ p, is_open p) ports)))
              end;
            md_all_hostnames :=
              match host_hostnames host with
              | Some (_ :: _) => host_hostnames host
              | _ => None
              end;
            md_uptime := host_uptime host;
            md_distance :=
              if truthy (host_distance host) then host_distance host else None |} |}.

(** [extract_devices] *)
Definition extract_devices (parsed_data : ParsedData) : result (list DeviceData) :=
  mapM device_of_host
       (filter (λ host, host_status host = Some "up") (hosts_of parsed_data)).

(** **** Observations on the parser *)

(** The text of the error for an exception of [ET.fromstring]. *)
Definition parse_error_text (e : Exn) : string :=
  match exn_class e with
  | ParseError => "XML parse error: " +:+ exn_str e
  | _ => "Error parsing XML: " +:+ exn_str e
  end.

(** A MAC address of the written form xx:xx:xx followed by anything: three
    groups of two characters that are not colons. *)
Definition mac_prefix (a1 a2 b1 b2 c1 c2 : ascii) (rest : string) : string :=
  String a1 (String a2 (String ":" (String b1 (String b2 (String ":"
    (String c1 (String c2 rest))))))).

(** What [extract_devices] makes of one host that is up. *)
Definition extracted (host : Host) (d : DeviceData) : Prop :=
  dd_ip_address d = host_ip_address host
  ∧ dd_mac_address d = host_mac_address host
  ∧ dd_hostname d = host_hostname host
  ∧ dd_vendor d = host_vendor host
  ∧ dd_status d = Has "up"
  ∧ dd_oui d =
      (if truthy (host_mac_address host)
       then Some (upper (remove_char ":" (slice_to 8 (or_empty (host_mac_address host)))))
       else None)
  ∧ (∀ a1 a2 b1 b2 c1 c2 rest,
       host_mac_address host = Some (mac_prefix a1 a2 b1 b2 c1 c2 rest) →
       Forall (λ c, c ≠ ":"%char) [a1; a2; b1; b2; c1; c2] →
       dd_oui d = Some (upper (String a1 (String a2 (String b1 (String b2
                          (String c1 (String c2 EmptyString))))))))
  ∧ ∃ metadata, dd_metadata d = Has metadata
      ∧ match host_ports host with
        | Some (port :: ports) =>
            md_ports metadata = Some (port :: ports)
            ∧ md_open_ports_count metadata =
                Some (Z.of_nat (length (filter (λ p, get (port_state p) = Some "open")
                                               (port :: ports))))
        | _ =>
            md_ports metadata = None ∧ md_open_ports_count metadata = None
        end.

(** The accuracy of the best match of a host, if it has one, reads as an
    integer. *)
Definition accuracy_readable (host : Host) : Prop :=
  match host_os host ≫= os_best_match with
  | Some m => is_ok (int_field (om_accuracy m)) = true
  | None => True
  end.

End Functions.
End NmapParser.

(** ** pulse/scanner/engine.py *)
Module Engine.
Import Py.

(** [ScanType] *)
Module ScanType.
Definition DISCOVERY : string := "discovery".
Definition QUICK : string := "quick".
Definition DEEP : string := "deep".
Definition FULL : string := "full".
Definition CUSTOM : string := "custom".
End ScanType.

(** A [duration]: the integer [timeout] on the timeout path, otherwise
    the float [(end_time - start_time).total_seconds()], kept as the
    difference of the two instants in microseconds. *)
Inductive Duration :=
| IntSeconds (n : Z)
| ElapsedMicros (us : Z).

(** The dict a scan returns, with the keys the worker adds to it. *)
Record ScanResult := {
  sr_success : bool;
  sr_return_code : option Z;
  sr_error : option string;
  sr_command : option string;
  sr_target : option string;
  sr_scan_type : option string;
  sr_start_time : option string;
  sr_end_time : option string;
  sr_duration : option Duration;
  sr_stdout : option string;
  sr_stderr : option string;
  sr_xml_output : option string;
  sr_nmap_version : option string;
  sr_parsed_data : option NmapParser.ParsedData;
  sr_devices : option (list NmapParser.DeviceData);
  sr_task_id : option Z
}.

(** What [subprocess.run(cmd, timeout=timeout)] does. *)
Inductive ProcessOutcome :=
| Completed (returncode : Z) (stdout stderr : string)
| TimeoutExpiredAfter            (* subprocess.TimeoutExpired *)
| LaunchError (e : Exn).         (* any other exception *)

(** What one call of [scan] meets outside the program: the two readings
    of [datetime.now()] in microseconds, the path of the scratch file,
    the run of the tool, the text read from the scratch file when it
    exists and is not empty (reading it may raise), and the version line
    of the tool. The scratch file exists when [scan] enters its [try]. *)
Record Environment := {
  env_start_time : Z;
  env_end_time : Z;
  env_xml_path : string;
  env_process : ProcessOutcome;
  env_xml_file : result (option string);
  env_nmap_version : string
}.

(** What the lines of [scan] before its [try] meet: [tempfile.mkstemp]
    and [os.close] make the scratch file, and [scan] goes on in an
    environment, or one of the two raises. *)
Inductive Scratch :=
| ScratchFile (env : Environment)
| ScratchError (e : Exn).

(** [NmapScanner]: the located tool and the configuration, a lookup of
    option strings by key when there is one. *)
Record NmapScanner := {
  nmap_path : string;
  config : option (string → option string)
}.

(** [' '.join(cmd)]: an item that is None raises TypeError. *)
Definition join_space (cmd : list (option string)) : result string :=
  match list_find (λ x, x = None) cmd with
  | Some (i, _) =>
      Raise (mkExn TypeError
               ("sequence item " +:+ str_Z (Z.of_nat i)
                +:+ ": expected str instance, NoneType found"))
  | None =>
      match omap id cmd with
      | [] => Ok EmptyString
      | x :: xs => Ok (foldl (λ acc y, acc +:+ " " +:+ y) x xs)
      end
  end.

Section Functions.
Context `{!Builtins}.

(** [self.config.get(key, dflt)] when there is a config, else [dflt]. *)
Definition profile (self : NmapScanner) (key dflt : string) : string :=
  match config self with
  | Some cfg => default dflt (cfg key)
  | None => dflt
  end.

(** [_build_command] *)
Definition _build_command (self : NmapScanner) (target : option string)
    (scan_type : string) (options : option string) (xml_output : option string)
    : result (list (option string)) :=
  opts ←
    (if truthy options then shlex_split (or_empty options)
     else if bool_decide (scan_type = ScanType.DISCOVERY) then
       shlex_split (profile self "scanner.nmap.discovery_options" "-sn -T4")
     else if bool_decide (scan_type = ScanType.QUICK) then
       shlex_split (profile self "scanner.nmap.quick_scan_options" "-F -sV -T4")
     else if bool_decide (scan_type = ScanType.DEEP) then
       shlex_split (profile self "scanner.nmap.deep_scan_options"
                            "-sV -O -A --script=default,discovery -T4")
     else if bool_decide (scan_type = ScanType.FULL) then
       shlex_split (profile self "scanner.nmap.full_scan_options" "-p- -sV -T4")
     else Ok []);
  mret ((Some <$> ([nmap_path self] ++ opts
                   ++ (if truthy xml_output then ["-oX"; or_empty xml_output] else [])))
        ++ [target]).

(** The command line of a scan, as [scan] logs and returns it. *)
Definition command_text (self : NmapScanner) (target : option string)
    (scan_type : string) (options : option string) (xml_output : option string)
    : result string :=
  cmd ← _build_command self target scan_type options xml_output;
  join_space cmd.

Definition failed_result (error : string) (target : option string) (scan_type : string)
    (start_time : Z) : ScanResult :=
  {| sr_success := false; sr_return_code := None; sr_error := Some error;
     sr_command := None; sr_target := target; sr_scan_type := Some scan_type;
     sr_start_time := Some (isoformat start_time); sr_end_time := None; sr_duration := None;
     sr_stdout := None; sr_stderr := None; sr_xml_output := None;
     sr_nmap_version := None; sr_parsed_data := None; sr_devices := None;
     sr_task_id := None |}.

(** [scan] from its [try] statement on, in the environment that it meets
    once the scratch file is made: every path returns a dict; the scratch
    file is removed in the [finally] clause, which has no effect on the
    returned value. *)
Definition scan (self : NmapScanner) (env : Environment) (target : option string)
    (scan_type : string) (options : option string) (timeout : Z) : ScanResult :=
  match command_text self target scan_type options (Some (env_xml_path env)) with
  | Raise e => failed_result (exn_str e) target scan_type (env_start_time env)
  | Ok cmd_str =>
      match env_process env with
      | Completed returncode stdout stderr =>
          match env_xml_file env with
          | Raise e => failed_result (exn_str e) target scan_type (env_start_time env)
          | Ok xml_output =>
          {| sr_success := bool_decide (returncode = 0);
             sr_return_code := Some returncode;
             sr_error := None;
             sr_command := Some cmd_str;
             sr_target := target;
             sr_scan_type := Some scan_type;
             sr_start_time := Some (isoformat (env_start_time env));
             sr_end_time := Some (isoformat (env_end_time env));
             sr_duration := Some (ElapsedMicros (env_end_time env - env_start_time env));
             sr_stdout := Some stdout;
             sr_stderr := Some stderr;
             sr_xml_output := xml_output;
             sr_nmap_version := Some (env_nmap_version env);
             sr_parsed_data := None; sr_devices := None; sr_task_id := None |}
          end
      | TimeoutExpiredAfter =>
          {| sr_success := false;
             sr_return_code := None;
             sr_error := Some ("Scan timeout after " +:+ str_Z timeout +:+ "s");
             sr_command := Some cmd_str;
             sr_target := target;
             sr_scan_type := Some scan_type;
             sr_start_time := Some (isoformat (env_start_time env));
             sr_end_time := None;
             sr_duration := Some (IntSeconds timeout);
             sr_stdout := None; sr_stderr := None; sr_xml_output := None;
             sr_nmap_version := None;
             sr_parsed_data := None; sr_devices := None; sr_task_id := None |}
      | LaunchError e => failed_result (exn_str e) target scan_type (env_start_time env)
      end
  end.

(** A call of [scan]: an exception of the lines before the [try] leaves
    the method, which has no handler there; from the [try] on every path
    returns a dict. *)
Definition scan_call (self : NmapScanner) (scratch : Scratch) (target : option string)
    (scan_type : string) (options : option string) (timeout : Z) : result ScanResult :=
  match scratch with
  | ScratchError e => Raise e
  | ScratchFile env => Ok (scan self env target scan_type options timeout)
  end.

Definition discovery_scan self scratch (network : option string) (timeout : Z)
    : result ScanResult :=
  scan_call self scratch network ScanType.DISCOVERY None timeout.
Definition quick_scan self scratch (target : option string) (timeout : Z)
    : result ScanResult :=
  scan_call self scratch target ScanType.QUICK None timeout.
Definition deep_scan self scratch (target : option string) (timeout : Z)
    : result ScanResult :=
  scan_call self scratch target ScanType.DEEP None timeout.
Definition full_scan self scratch (target : option string) (timeout : Z)
    : result ScanResult :=
  scan_call self scratch target ScanType.FULL None timeout.

End Functions.
End Engine.

(** ** pulse/services/device_recognition.py *)
Module DeviceRecognition.
Import Py NmapParser.

(** The rule body of one device type: each of the three keys may be absent. *)
Record Rule := {
  rule_ports : option (list Z);
  rule_keywords : option (list string);
  rule_services : option (list string)
}.

(** [self.classification_rules]: a dict from device type to rule body, in
    its iteration order. *)
Definition Rules := list (string * Rule).

Section Functions.
Context `{!Builtins}.

(** [device_data.get('metadata', {}).get('ports')], an empty list when
    the value is falsy. *)
Definition metadata_ports (device_data : DeviceData) : result (list Port) :=
  match get_default (dd_metadata device_data) empty_metadata with
  | None => Raise (mkExn AttributeError "'NoneType' object has no attribute 'get'")
  | Some metadata => Ok (default [] (md_ports metadata))
  end.

(** The first loop: the set of open port numbers. *)
Definition add_open_port (open_ports : gset Z) (port : Port) : result (gset Z) :=
  if is_open port then
    let port_num := get (port_port port) in
    if truthy port_num then
      match int (or_empty port_num) with
      | Some n => Ok ({[ n ]} ∪ open_ports)
      | None => Raise (mkExn ValueError (int_error (or_empty port_num)))
      end
    else Ok open_ports
  else Ok open_ports.

Definition collect_open_ports (ports : list Port) : result (gset Z) :=
  foldl (λ acc port, open_ports ← acc; add_open_port open_ports port) (Ok ∅) ports.

(** The second loop: the set of lower-cased service names of open ports. *)
Definition add_service (services : gset string) (port : Port) : result (gset string) :=
  if is_open port then
    match get_default (port_service port)
            {| svc_name := None; svc_product := None; svc_version := None;
               svc_extrainfo := None; svc_ostype := None; svc_method := None;
               svc_conf := None; svc_cpe := None |} with
    | None => Raise (mkExn AttributeError "'NoneType' object has no attribute 'get'")
    | Some service =>
        let service_name := svc_name service in
        if truthy service_name
        then Ok ({[ lower (or_empty service_name) ]} ∪ services)
        else Ok services
    end
  else Ok services.

Definition collect_services (ports : list Port) : result (gset string) :=
  foldl (λ acc port, services ← acc; add_service services port) (Ok ∅) ports.

(** The text the keywords are looked up in. *)
Definition keyword_text (device_data : DeviceData) : string :=
  let hostname := lower (or_empty (dd_hostname device_data)) in
  let vendor := lower (or_empty (dd_vendor device_data)) in
  let os_name := lower (or_empty (dd_os_name device_data)) in
  let os_family := lower (or_empty (dd_os_family device_data)) in
  lower (hostname +:+ " " +:+ vendor +:+ " " +:+ os_name +:+ " " +:+ os_family).

(** The body of the loop over the rules: the score of one rule. *)
Definition rule_score (open_ports : gset Z) (services : gset string)
    (text : string) (rules : Rule) : Z :=
  let score := 0 in
  let score :=
    match rule_ports rules with
    | Some ports =>
        let matching_ports := open_ports ∩ list_to_set ports in
        if bool_decide (matching_ports ≠ ∅)
        then score + Z.of_nat (size matching_ports) * 10
        else score
    | None => score
    end in
  let score :=
    match rule_keywords rules with
    | Some keywords =>
        foldl (λ score keyword,
                 if contains (lower keyword) text then score + 20 else score)
              score keywords
    | None => score
    end in
  let score :=
    match rule_services rules with
    | Some rule_services =>
        let matching_services := services ∩ list_to_set (lower <$> rule_services) in
        if bool_decide (matching_services ≠ ∅)
        then score + Z.of_nat (size matching_services) * 15
        else score
    | None => score
    end in
  score.

(** The [scores] dict after the loop over the rules. *)
Definition score_rules (classification_rules : Rules) (open_ports : gset Z)
    (services : gset string) (text : string) : list (string * Z) :=
  foldl (λ scores '(device_type, rules),
           let score := rule_score open_ports services text rules in
           if bool_decide (0 < score) then dict_set device_type score scores
           else scores)
        [] classification_rules.

Definition server_ports : gset Z :=
  {[ 22; 80; 443; 3306; 5432; 6379; 8080 ]}.

(** The defaults from the OS when no rule scores. *)
Definition classify_by_os (os_name os_family : string) (open_ports : gset Z) : string :=
  if contains "windows" os_name || contains "windows" os_family then "workstation"
  else if existsb (λ x, contains x os_name || contains x os_family)
                  ["linux"; "unix"; "bsd"] then
    if bool_decide (open_ports ∩ server_ports ≠ ∅) then "server" else "workstation"
  else if contains "android" os_name || contains "ios" os_name then "mobile"
  else "unknown".

(** [classify_device] *)
Definition classify_device (classification_rules : Rules)
    (device_data : DeviceData) : result string :=
  ports ← metadata_ports device_data;
  open_ports ← collect_open_ports ports;
  services ← collect_services ports;
  let text := keyword_text device_data in
  let scores := score_rules classification_rules open_ports services text in
  match max_by_key scores with
  | Some (best_type, _) => Ok best_type
  | None =>
      Ok (classify_by_os (lower (or_empty (dd_os_name device_data)))
                         (lower (or_empty (dd_os_family device_data)))
                         open_ports)
  end.

(** **** Observations on the classifier *)

(** A port number is open on a device: one of its port dicts is open and
    its port reads as that number. *)
Definition open_on (ports : list Port) (n : Z) : Prop :=
  Exists (λ port, is_open port = true
                  ∧ truthy (get (port_port port)) = true
                  ∧ int (or_empty (get (port_port port))) = Some n) ports.

(** A service name is offered by a device: it is the lower-cased name of the
    service of one of its open ports. *)
Definition service_on (ports : list Port) (name : string) : Prop :=
  Exists (λ port, is_open port = true
                  ∧ ∃ service, get (port_service port) = Some service
                      ∧ truthy (svc_name service) = true
                      ∧ lower (or_empty (svc_name service)) = name) ports.

Global Instance open_on_dec ports n : Decision (open_on ports n).
Proof. unfold open_on. apply _. Defined.

Global Instance service_on_dec ports name : Decision (service_on ports name).
Proof.
  unfold service_on. apply Exists_dec. intros port.
  destruct (get (port_service port)) as [service|].
  - destruct (decide (is_open port = true
                      ∧ truthy (svc_name service) = true
                      ∧ lower (or_empty (svc_name service)) = name)) as [Hyes|Hno].
    + left. destruct Hyes as (Hopen & Hname). split; [exact Hopen|].
      exists service. split; [reflexivity|exact Hname].
    + right. intros (Hopen & service' & Heq & Hname). apply Hno.
      injection Heq as <-. split; [exact Hopen|exact Hname].
  - right. intros (_ & service' & Heq & _). discriminate Heq.
Defined.

(** The classifier can read the device: the metadata is not None, the
    number of every open port that has one reads as an integer, and no
    open port has None for its service. Otherwise [classify_device]
    raises. *)
Definition readable (device_data : DeviceData) : Prop :=
  dd_metadata device_data ≠ PyNone
  ∧ Forall (λ port, is_open port = true →
              (truthy (get (port_port port)) = true →
                 is_Some (int (or_empty (get (port_port port)))))
              ∧ port_service port ≠ PyNone)
           (device_ports device_data).

(** The text of a device that the keywords are looked up in, written out:
    the lower-cased concatenation of the lower-cased host name, vendor, OS
    name and OS family, a missing one being empty, with a space between
    them. *)
Definition text_in_words (device_data : DeviceData) : string :=
  lower (lower (or_empty (dd_hostname device_data)) +:+ " "
         +:+ lower (or_empty (dd_vendor device_data)) +:+ " "
         +:+ lower (or_empty (dd_os_name device_data)) +:+ " "
         +:+ lower (or_empty (dd_os_family device_data))).

(** The score of a rule on a device, written out: 10 for each distinct
    port of the rule that is open on the device, 20 for each keyword of
    the rule whose lower-cased form occurs in the text, 15 for each
    distinct lower-cased service name of the rule that an open port of the
    device offers. *)
Definition score_in_words (device_data : DeviceData) (rule : Rule) : Z :=
  10 * Z.of_nat (length (filter (λ p, open_on (device_ports device_data) p)
                                (remove_dups (default [] (rule_ports rule)))))
  + 20 * Z.of_nat (length (filter (λ k, contains (lower k) (text_in_words device_data) = true)
                                  (default [] (rule_keywords rule))))
  + 15 * Z.of_nat (length (filter (λ s, service_on (device_ports device_data) s)
                                  (remove_dups (lower <$> default [] (rule_services rule))))).

(** The score of a rule on a device, in the words of the specification:
    10 for each port of the rule that is open on the device, 20 for each
    keyword of the rule that occurs in the text, 15 for each service name
    of the rule that an open port of the device offers. *)
Definition claimed_score (device_data : DeviceData) (rule : Rule) : Z :=
  10 * Z.of_nat (length (filter (λ p, open_on (device_ports device_data) p)
                                (default [] (rule_ports rule))))
  + 20 * Z.of_nat (length (filter (λ k, contains k (text_in_words device_data) = true)
                                  (default [] (rule_keywords rule))))
  + 15 * Z.of_nat (length (filter (λ s, service_on (device_ports device_data) (lower s))
                                  (default [] (rule_services rule)))).

(** The score of a rule as three counts over the set of open ports and
    the set of services that [classify_device] collects. *)
Definition spec_score (open_ports : gset Z) (services : gset string) (text : string)
    (rules : Rule) : Z :=
  10 * Z.of_nat (length (filter (λ p, p ∈ open_ports)
                                (remove_dups (default [] (rule_ports rules)))))
  + 20 * Z.of_nat (length (filter (λ k, contains (lower k) text = true)
                                  (default [] (rule_keywords rules))))
  + 15 * Z.of_nat (length (filter (λ s, s ∈ services)
                                  (remove_dups (lower <$> default [] (rule_services rules))))).

(** A rule with its score. *)
Definition scored (open_ports : gset Z) (services : gset string) (text : string)
    (rule : string * Rule) : string * Z :=
  (rule.1, rule_score open_ports services text rule.2).

End Functions.
End DeviceRecognition.

(** ** pulse/storage/db.py *)
Module Database.
Import Py NmapParser.

(** *** Tables *)

(** Modelled from the spec: schema.sql is not among the sources. The
    columns of each table are those the statements of db.py name, together
    with [id], the timestamps and [is_active] of the data model; a
    timestamp column holds the instant of CURRENT_TIMESTAMP in seconds. *)
Record DeviceRow := {
  dev_id : Z;
  dev_ip_address : option string;
  dev_mac_address : option string;
  dev_hostname : option string;
  dev_vendor : option string;
  dev_oui : option string;
  dev_device_type : option string;
  dev_os_name : option string;
  dev_os_family : option string;
  dev_os_version : option string;
  dev_os_accuracy : option Z;
  dev_status : option string;
  dev_is_active : Z;
  dev_first_seen : Z;
  dev_last_seen : Z;
  dev_metadata : option string
}.

Record PortRow := {
  prt_id : Z;
  prt_device_id : option Z;
  prt_port_number : option Z;
  prt_protocol : option string;
  prt_state : option string;
  prt_service_name : option string;
  prt_service_product : option string;
  prt_service_version : option string;
  prt_service_extrainfo : option string;
  prt_last_seen : Z
}.

Record EventRow := {
  evt_id : Z;
  evt_event_type : option string;
  evt_severity : option string;
  evt_device_id : option Z;
  evt_title : option string;
  evt_description : option string;
  evt_metadata : option string;
  evt_created_at : Z
}.

Record ScanResultRow := {
  res_id : Z;
  res_task_id : option Z;
  res_scan_type : option string;
  res_target : option string;
  res_start_time : option string;
  res_end_time : option string;
  res_duration : option Engine.Duration;
  res_hosts_up : option Z;
  res_hosts_down : option Z;
  res_hosts_total : option Z;
  res_nmap_command : option string;
  res_nmap_version : option string;
  res_raw_output : option string;
  res_xml_output : option string;
  res_summary : option string;
  res_created_at : Z
}.

Record TaskRow := {
  tsk_id : Z;
  tsk_task_type : option string;
  tsk_target : option string;
  tsk_scan_options : option string;
  tsk_status : option string;
  tsk_priority : option Z;
  tsk_created_at : Z;
  tsk_scheduled_at : option string;
  tsk_started_at : option Z;
  tsk_completed_at : option Z;
  tsk_updated_at : Z;
  tsk_error : option string
}.

(** The database as one connection sees it: the rows of each table in
    rowid order and the rowid of the connection's last successful
    INSERT, which is what [cursor.lastrowid] reads after an INSERT
    statement. *)
Record Store := {
  devices : list DeviceRow;
  ports : list PortRow;
  events : list EventRow;
  scan_results : list ScanResultRow;
  scan_tasks : list TaskRow;
  last_insert_rowid : Z
}.

Definition empty_store : Store :=
  {| devices := []; ports := []; events := []; scan_results := [];
     scan_tasks := []; last_insert_rowid := 0 |}.

(** The rowid a table gives a new row. No statement of db.py deletes. *)
Definition next_rowid (ids : list Z) : Z := 1 + foldr Z.max 0 ids.

(** *** The dicts the operations take, and the parameters they bind *)

Record DeviceParams := {
  p_ip_address : option string;
  p_mac_address : option string;
  p_hostname : option string;
  p_vendor : option string;
  p_oui : option string;
  p_device_type : option string;
  p_os_name : option string;
  p_os_family : option string;
  p_os_version : option string;
  p_os_accuracy : option Z;
  p_status : option string;
  p_metadata : string
}.

Record PortData := {
  pd_device_id : option Z;
  pd_port_number : option Z;
  pd_protocol : Field string;
  pd_state : option string;
  pd_service_name : option string;
  pd_service_product : option string;
  pd_service_version : option string;
  pd_service_extrainfo : option string
}.

Record PortParams := {
  pp_device_id : option Z;
  pp_port_number : option Z;
  pp_protocol : option string;
  pp_state : option string;
  pp_service_name : option string;
  pp_service_product : option string;
  pp_service_version : option string;
  pp_service_extrainfo : option string
}.

Record EventData := {
  ed_event_type : option string;
  ed_severity : Field string;
  ed_device_id : option Z;
  ed_title : option string;
  ed_description : option string;
  ed_metadata : Field (list (string * string))
}.

Record EventParams := {
  ep_event_type : option string;
  ep_severity : option string;
  ep_device_id : option Z;
  ep_title : option string;
  ep_description : option string;
  ep_metadata : string
}.

Record ScanResultData := {
  rd_task_id : option Z;
  rd_scan_type : option string;
  rd_target : option string;
  rd_start_time : option string;
  rd_end_time : option string;
  rd_duration : option Engine.Duration;
  rd_hosts_up : Field Z;
  rd_hosts_down : Field Z;
  rd_hosts_total : Field Z;
  rd_nmap_command : option string;
  rd_nmap_version : option string;
  rd_raw_output : option string;
  rd_xml_output : option string;
  rd_summary : option string
}.

Record TaskData := {
  td_task_type : option string;
  td_target : option string;
  td_scan_options : Field (list (string * string));
  td_status : Field string;
  td_priority : Field Z;
  td_scheduled_at : option string
}.

(** The statements whose refusal the program has to deal with, with their
    bound parameters: the INSERT statements of the reconciliation step and
    the statements on the task table. *)
Inductive Statement :=
| InsertDevice (p : DeviceParams)
| InsertPort (p : PortParams)
| InsertEvent (p : EventParams)
| InsertScanResult (r : ScanResultData)
| InsertTask (task_data : TaskData)
| SelectTask (task_id : Z)
| SelectPendingTasks (limit : Z)
| UpdateTaskStatus (task_id : Z) (status : string) (error : option string).

(** [json.dumps] of a device's metadata (None: Python's None) and of a
    plain dict. *)
Class Json := {
  json_dumps : option Metadata → string;
  json_dumps_dict : option (list (string * string)) → string
}.

(** What the program does not fix about the database: whether a
    statement raises in a given state (a constraint of the missing
    schema.sql, a locked or failing database), with the text of the
    error; the default of [is_active]; the text of CURRENT_TIMESTAMP that
    [scheduled_at] is compared with. *)
Class Sqlite := {
  statement_error : Store → Statement → option string;
  is_active_default : Z;
  current_timestamp : Z → string
}.

Section Operations.
Context `{!Json, !Sqlite}.

(** Run one fallible statement: an error rolls back and raises. *)
Definition execute (s : Store) (stmt : Statement) (effect : Store) : result (Store * Z) :=
  match statement_error s stmt with
  | Some msg => Raise (mkExn DatabaseError msg)
  | None => Ok (effect, last_insert_rowid effect)
  end.

(** A method on the task table as its caller meets it: when the database
    refuses the statement the method raises and nothing is written;
    otherwise the method does what its definition below says. *)
Definition call {A} (s : Store) (stmt : Statement) (outcome : A) : result A :=
  match statement_error s stmt with
  | Some msg => Raise (mkExn DatabaseError msg)
  | None => Ok outcome
  end.

(** **** Devices *)

Definition device_params (device_data : DeviceData) : DeviceParams :=
  {| p_ip_address := dd_ip_address device_data;
     p_mac_address := dd_mac_address device_data;
     p_hostname := dd_hostname device_data;
     p_vendor := dd_vendor device_data;
     p_oui := dd_oui device_data;
     p_device_type := dd_device_type device_data;
     p_os_name := dd_os_name device_data;
     p_os_family := dd_os_family device_data;
     p_os_version := dd_os_version device_data;
     p_os_accuracy := dd_os_accuracy device_data;
     p_status := get_default (dd_status device_data) "up";
     p_metadata := json_dumps (get_default (dd_metadata device_data) empty_metadata) |}.

(** ON CONFLICT(ip_address): a row with the same, non-NULL address. *)
Definition device_conflict (p : DeviceParams) (r : DeviceRow) : Prop :=
  is_Some (p_ip_address p) ∧ dev_ip_address r = p_ip_address p.

Global Instance device_conflict_dec p r : Decision (device_conflict p r).
Proof. unfold device_conflict. apply _. Defined.

(** DO UPDATE SET ... = excluded. ..., last_seen = CURRENT_TIMESTAMP *)
Definition update_device (now : Z) (p : DeviceParams) (r : DeviceRow) : DeviceRow :=
  {| dev_id := dev_id r;
     dev_ip_address := dev_ip_address r;
     dev_mac_address := p_mac_address p;
     dev_hostname := p_hostname p;
     dev_vendor := p_vendor p;
     dev_oui := p_oui p;
     dev_device_type := p_device_type p;
     dev_os_name := p_os_name p;
     dev_os_family := p_os_family p;
     dev_os_version := p_os_version p;
     dev_os_accuracy := p_os_accuracy p;
     dev_status := p_status p;
     dev_is_active := dev_is_active r;
     dev_first_seen := dev_first_seen r;
     dev_last_seen := now;
     dev_metadata := Some (p_metadata p) |}.

(** Modelled from the spec: schema.sql, which gives the columns that the
    INSERT does not name their defaults, is missing; a device that is
    absent is inserted with first_seen = last_seen = now. *)
Definition new_device (now : Z) (id : Z) (p : DeviceParams) : DeviceRow :=
  {| dev_id := id;
     dev_ip_address := p_ip_address p;
     dev_mac_address := p_mac_address p;
     dev_hostname := p_hostname p;
     dev_vendor := p_vendor p;
     dev_oui := p_oui p;
     dev_device_type := p_device_type p;
     dev_os_name := p_os_name p;
     dev_os_family := p_os_family p;
     dev_os_version := p_os_version p;
     dev_os_accuracy := p_os_accuracy p;
     dev_status := p_status p;
     dev_is_active := is_active_default;
     dev_first_seen := now;
     dev_last_seen := now;
     dev_metadata := Some (p_metadata p) |}.

(** INSERT INTO devices ... ON CONFLICT(ip_address) DO UPDATE ... *)
Definition upsert_device (now : Z) (p : DeviceParams) (s : Store) : Store :=
  if decide (Exists (device_conflict p) (devices s)) then
    {| devices := (λ r, if decide (device_conflict p r) then update_device now p r else r)
                    <$> devices s;
       ports := ports s; events := events s; scan_results := scan_results s;
       scan_tasks := scan_tasks s;
       last_insert_rowid := last_insert_rowid s |}
  else
    let id := next_rowid (dev_id <$> devices s) in
    {| devices := devices s ++ [new_device now id p];
       ports := ports s; events := events s; scan_results := scan_results s;
       scan_tasks := scan_tasks s;
       last_insert_rowid := id |}.

(** [add_device]: returns [cursor.lastrowid]. *)
Definition add_device (s : Store) (now : Z) (device_data : DeviceData) : result (Store * Z) :=
  let p := device_params device_data in
  execute s (InsertDevice p) (upsert_device now p s).

(** [get_device(ip_address=...)] *)
Definition get_device_by_ip (s : Store) (ip_address : string) : option DeviceRow :=
  snd <$> list_find (λ r, dev_ip_address r = Some ip_address) (devices s).

(** **** Ports *)

Definition port_params (port_data : PortData) : PortParams :=
  {| pp_device_id := pd_device_id port_data;
     pp_port_number := pd_port_number port_data;
     pp_protocol := get_default (pd_protocol port_data) "tcp";
     pp_state := pd_state port_data;
     pp_service_name := pd_service_name port_data;
     pp_service_product := pd_service_product port_data;
     pp_service_version := pd_service_version port_data;
     pp_service_extrainfo := pd_service_extrainfo port_data |}.

(** ON CONFLICT(device_id, port_number, protocol), all three non-NULL. *)
Definition port_conflict (p : PortParams) (r : PortRow) : Prop :=
  (is_Some (pp_device_id p) ∧ prt_device_id r = pp_device_id p) ∧
  (is_Some (pp_port_number p) ∧ prt_port_number r = pp_port_number p) ∧
  (is_Some (pp_protocol p) ∧ prt_protocol r = pp_protocol p).

Global Instance port_conflict_dec p r : Decision (port_conflict p r).
Proof. unfold port_conflict. apply _. Defined.

Definition update_port (now : Z) (p : PortParams) (r : PortRow) : PortRow :=
  {| prt_id := prt_id r;
     prt_device_id := prt_device_id r;
     prt_port_number := prt_port_number r;
     prt_protocol := prt_protocol r;
     prt_state := pp_state p;
     prt_service_name := pp_service_name p;
     prt_service_product := pp_service_product p;
     prt_service_version := pp_service_version p;
     prt_service_extrainfo := pp_service_extrainfo p;
     prt_last_seen := now |}.

(** Modelled from the spec: the row of the INSERT, whose [last_seen] is
    a default of the missing schema.sql; an upsert of a port refreshes
    last_seen. *)
Definition new_port (now : Z) (id : Z) (p : PortParams) : PortRow :=
  {| prt_id := id;
     prt_device_id := pp_device_id p;
     prt_port_number := pp_port_number p;
     prt_protocol := pp_protocol p;
     prt_state := pp_state p;
     prt_service_name := pp_service_name p;
     prt_service_product := pp_service_product p;
     prt_service_version := pp_service_version p;
     prt_service_extrainfo := pp_service_extrainfo p;
     prt_last_seen := now |}.

Definition upsert_port (now : Z) (p : PortParams) (s : Store) : Store :=
  if decide (Exists (port_conflict p) (ports s)) then
    {| devices := devices s;
       ports := (λ r, if decide (port_conflict p r) then update_port now p r else r)
                  <$> ports s;
       events := events s; scan_results := scan_results s;
       scan_tasks := scan_tasks s;
       last_insert_rowid := last_insert_rowid s |}
  else
    let id := next_rowid (prt_id <$> ports s) in
    {| devices := devices s;
       ports := ports s ++ [new_port now id p];
       events := events s; scan_results := scan_results s;
       scan_tasks := scan_tasks s;
       last_insert_rowid := id |}.

(** [add_port] *)
Definition add_port (s : Store) (now : Z) (port_data : PortData) : result (Store * Z) :=
  let p := port_params port_data in
  execute s (InsertPort p) (upsert_port now p s).

(** **** Events *)

Definition event_params (event_data : EventData) : EventParams :=
  {| ep_event_type := ed_event_type event_data;
     ep_severity := get_default (ed_severity event_data) "info";
     ep_device_id := ed_device_id event_data;
     ep_title := ed_title event_data;
     ep_description := ed_description event_data;
     ep_metadata := json_dumps_dict (get_default (ed_metadata event_data) []) |}.

Definition insert_event (now : Z) (p : EventParams) (s : Store) : Store :=
  let id := next_rowid (evt_id <$> events s) in
  {| devices := devices s; ports := ports s;
     events := events s ++
       [{| evt_id := id;
           evt_event_type := ep_event_type p;
           evt_severity := ep_severity p;
           evt_device_id := ep_device_id p;
           evt_title := ep_title p;
           evt_description := ep_description p;
           evt_metadata := Some (ep_metadata p);
           evt_created_at := now |}];
     scan_results := scan_results s; scan_tasks := scan_tasks s;
     last_insert_rowid := id |}.

(** [create_event] *)
Definition create_event (s : Store) (now : Z) (event_data : EventData) : result (Store * Z) :=
  let p := event_params event_data in
  execute s (InsertEvent p) (insert_event now p s).

(** **** Scan results *)

Definition insert_scan_result (now : Z) (r : ScanResultData) (s : Store) : Store :=
  let id := next_rowid (res_id <$> scan_results s) in
  {| devices := devices s; ports := ports s; events := events s;
     scan_results := scan_results s ++
       [{| res_id := id;
           res_task_id := rd_task_id r;
           res_scan_type := rd_scan_type r;
           res_target := rd_target r;
           res_start_time := rd_start_time r;
           res_end_time := rd_end_time r;
           res_duration := rd_duration r;
           res_hosts_up := get_default (rd_hosts_up r) 0;
           res_hosts_down := get_default (rd_hosts_down r) 0;
           res_hosts_total := get_default (rd_hosts_total r) 0;
           res_nmap_command := rd_nmap_command r;
           res_nmap_version := rd_nmap_version r;
           res_raw_output := rd_raw_output r;
           res_xml_output := rd_xml_output r;
           res_summary := rd_summary r;
           res_created_at := now |}];
     scan_tasks := scan_tasks s;
     last_insert_rowid := id |}.

(** [save_scan_result] *)
Definition save_scan_result (s : Store) (now : Z) (result_data : ScanResultData)
    : result (Store * Z) :=
  execute s (InsertScanResult result_data) (insert_scan_result now result_data s).

(** **** Scan tasks. Each definition is what the statement of the method
    does when the database runs it. [execute_task] and the jobs of the
    scheduler, which have handlers for the exception of a refused
    statement, run the methods through [call]. *)

(** [create_scan_task] *)
Definition create_scan_task (s : Store) (now : Z) (task_data : TaskData) : Store * Z :=
  let id := next_rowid (tsk_id <$> scan_tasks s) in
  ({| devices := devices s; ports := ports s; events := events s;
      scan_results := scan_results s;
      scan_tasks := scan_tasks s ++
        [{| tsk_id := id;
            tsk_task_type := td_task_type task_data;
            tsk_target := td_target task_data;
            tsk_scan_options :=
              Some (json_dumps_dict (get_default (td_scan_options task_data) []));
            tsk_status := get_default (td_status task_data) "pending";
            tsk_priority := get_default (td_priority task_data) 5;
            tsk_created_at := now;
            tsk_scheduled_at := td_scheduled_at task_data;
            tsk_started_at := None;
            tsk_completed_at := None;
            tsk_updated_at := now;
            tsk_error := None |}];
      last_insert_rowid := id |}, id).

(** WHERE status = 'pending'
    AND (scheduled_at IS NULL OR scheduled_at <= CURRENT_TIMESTAMP) *)
Definition is_pending (now : Z) (t : TaskRow) : bool :=
  bool_decide (tsk_status t = Some "pending") &&
  match tsk_scheduled_at t with
  | None => true
  | Some at_ => String.leb at_ (current_timestamp now)
  end.

(** ORDER BY priority DESC, created_at ASC; NULL sorts lowest. *)
Definition pending_order (a b : TaskRow) : Prop :=
  match tsk_priority a, tsk_priority b with
  | Some x, Some y => y < x ∨ (x = y ∧ tsk_created_at a ≤ tsk_created_at b)
  | Some _, None => True
  | None, Some _ => False
  | None, None => tsk_created_at a ≤ tsk_created_at b
  end.

Global Instance pending_order_dec a b : Decision (pending_order a b).
Proof. unfold pending_order. destruct (tsk_priority a), (tsk_priority b); apply _. Defined.

(** LIMIT ?: a negative limit does not limit. *)
Definition sql_limit {A} (limit : Z) (l : list A) : list A :=
  if bool_decide (limit < 0) then l else take (Z.to_nat limit) l.

(** [get_pending_tasks] *)
Definition get_pending_tasks (s : Store) (now : Z) (limit : Z) : list TaskRow :=
  sql_limit limit (merge_sort pending_order (filter (λ t, is_pending now t) (scan_tasks s))).

(** [get_task] *)
Definition get_task (s : Store) (task_id : Z) : option TaskRow :=
  snd <$> list_find (λ t, tsk_id t = task_id) (scan_tasks s).

(** The three UPDATE statements of [update_task_status] on one row. *)
Definition set_task_status (now : Z) (status : string) (error : option string)
    (t : TaskRow) : TaskRow :=
  {| tsk_id := tsk_id t;
     tsk_task_type := tsk_task_type t;
     tsk_target := tsk_target t;
     tsk_scan_options := tsk_scan_options t;
     tsk_status := Some status;
     tsk_priority := tsk_priority t;
     tsk_created_at := tsk_created_at t;
     tsk_scheduled_at := tsk_scheduled_at t;
     tsk_started_at :=
       if bool_decide (status = "running") then Some now else tsk_started_at t;
     tsk_completed_at :=
       if bool_decide (status = "running") then tsk_completed_at t
       else if bool_decide (status ∈ ["completed"; "failed"]) then Some now
       else tsk_completed_at t;
     tsk_updated_at := now;
     tsk_error :=
       if bool_decide (status = "running") then tsk_error t
       else if bool_decide (status ∈ ["completed"; "failed"]) then error
       else tsk_error t |}.

(** [update_task_status]: no condition on the current status. *)
Definition update_task_status (s : Store) (now : Z) (task_id : Z) (status : string)
    (error : option string) : Store :=
  {| devices := devices s; ports := ports s; events := events s;
     scan_results := scan_results s;
     scan_tasks := (λ t, if decide (tsk_id t = task_id)
                         then set_task_status now status error t else t)
                     <$> scan_tasks s;
     last_insert_rowid := last_insert_rowid s |}.

(** **** Observations on the devices table *)

(** UNIQUE(ip_address): the non-NULL addresses of the rows are distinct. *)
Definition unique_addresses (s : Store) : Prop :=
  NoDup (omap dev_ip_address (devices s)).

(** The rows of one address. *)
Definition rows_of (ip_address : string) (s : Store) : list DeviceRow :=
  filter (λ r, dev_ip_address r = Some ip_address) (devices s).

(** The rows of all other addresses. *)
Definition rows_but (ip_address : string) (s : Store) : list DeviceRow :=
  filter (λ r, dev_ip_address r ≠ Some ip_address) (devices s).

(** The observation fields of a row. *)
Record Observation := {
  o_mac_address : option string;
  o_hostname : option string;
  o_vendor : option string;
  o_oui : option string;
  o_device_type : option string;
  o_os_name : option string;
  o_os_family : option string;
  o_os_version : option string;
  o_os_accuracy : option Z;
  o_status : option string;
  o_metadata : option string
}.

Definition observation (r : DeviceRow) : Observation :=
  {| o_mac_address := dev_mac_address r;
     o_hostname := dev_hostname r;
     o_vendor := dev_vendor r;
     o_oui := dev_oui r;
     o_device_type := dev_device_type r;
     o_os_name := dev_os_name r;
     o_os_family := dev_os_family r;
     o_os_version := dev_os_version r;
     o_os_accuracy := dev_os_accuracy r;
     o_status := dev_status r;
     o_metadata := dev_metadata r |}.

(** The observation an upsert binds: the excluded row of the statement. *)
Definition excluded (p : DeviceParams) : Observation :=
  {| o_mac_address := p_mac_address p;
     o_hostname := p_hostname p;
     o_vendor := p_vendor p;
     o_oui := p_oui p;
     o_device_type := p_device_type p;
     o_os_name := p_os_name p;
     o_os_family := p_os_family p;
     o_os_version := p_os_version p;
     o_os_accuracy := p_os_accuracy p;
     o_status := p_status p;
     o_metadata := Some (p_metadata p) |}.

(** A sequence of upserts, each at its clock reading: the store after each. *)
Fixpoint upsert_all (s : Store) (upserts : list (Z * DeviceData)) : result (list Store) :=
  match upserts with
  | [] => Ok []
  | (now, device_data) :: upserts' =>
      '(s', _) ← add_device s now device_data;
      stores ← upsert_all s' upserts';
      mret (s' :: stores)
  end.

(** **** Lookups and the status of a device *)

(** [get_device]: by id when [device_id] is truthy, else by address when
    [ip_address] is truthy, else None. *)
Definition get_device (s : Store) (device_id : option Z) (ip_address : option string)
    : option DeviceRow :=
  if bool_decide (device_id ≠ None ∧ device_id ≠ Some 0) then
    snd <$> list_find (λ r, Some (dev_id r) = device_id) (devices s)
  else if truthy ip_address then
    snd <$> list_find (λ r, dev_ip_address r = ip_address) (devices s)
  else None.

(** ORDER BY last_seen DESC; rows that tie come in the order of the sort. *)
Definition last_seen_order (a b : DeviceRow) : Prop :=
  dev_last_seen b ≤ dev_last_seen a.

Global Instance last_seen_order_dec a b : Decision (last_seen_order a b).
Proof. unfold last_seen_order. apply _. Defined.

(** [get_all_devices] *)
Definition get_all_devices (s : Store) (active_only : bool) : list DeviceRow :=
  merge_sort last_seen_order
    (if active_only then filter (λ r, dev_is_active r = 1) (devices s) else devices s).

(** The row that the UPDATE of [update_device_status] leaves in the place
    of [r]. *)
Definition with_status (now : Z) (status : option string) (r : DeviceRow) : DeviceRow :=
  {| dev_id := dev_id r;
     dev_ip_address := dev_ip_address r;
     dev_mac_address := dev_mac_address r;
     dev_hostname := dev_hostname r;
     dev_vendor := dev_vendor r;
     dev_oui := dev_oui r;
     dev_device_type := dev_device_type r;
     dev_os_name := dev_os_name r;
     dev_os_family := dev_os_family r;
     dev_os_version := dev_os_version r;
     dev_os_accuracy := dev_os_accuracy r;
     dev_status := status;
     dev_is_active := dev_is_active r;
     dev_first_seen := dev_first_seen r;
     dev_last_seen := now;
     dev_metadata := dev_metadata r |}.

(** [update_device_status] *)
Definition update_device_status (s : Store) (now : Z) (device_id : Z)
    (status : option string) : Store :=
  {| devices :=
       (λ r, if decide (dev_id r = device_id) then with_status now status r else r)
         <$> devices s;
     ports := ports s; events := events s; scan_results := scan_results s;
     scan_tasks := scan_tasks s;
     last_insert_rowid := last_insert_rowid s |}.

(** ORDER BY port_number: NULL sorts first. *)
Definition port_number_order (a b : PortRow) : Prop :=
  match prt_port_number a, prt_port_number b with
  | Some x, Some y => x ≤ y
  | None, _ => True
  | Some _, None => False
  end.

Global Instance port_number_order_dec a b : Decision (port_number_order a b).
Proof.
  unfold port_number_order. destruct (prt_port_number a), (prt_port_number b); apply _.
Defined.

(** [get_device_ports] *)
Definition get_device_ports (s : Store) (device_id : Z) : list PortRow :=
  merge_sort port_number_order
    (filter (λ r, prt_device_id r = Some device_id) (ports s)).

(** **** The OUI cache. The table is kept apart from the others: no
    statement joins it with them. Its columns are those that the
    statements name. *)

Record OuiRow := {
  oui_oui : string;
  oui_vendor : string;
  oui_updated_at : Z
}.

(** [get_oui_vendor] *)
Definition get_oui_vendor (cache : list OuiRow) (oui : string) : option string :=
  (oui_vendor ∘ snd) <$> list_find (λ r, oui_oui r = upper oui) cache.

(** [add_oui]: INSERT ... ON CONFLICT(oui) DO UPDATE *)
Definition add_oui (cache : list OuiRow) (now : Z) (oui vendor : string) : list OuiRow :=
  if decide (Exists (λ r, oui_oui r = upper oui) cache) then
    (λ r, if decide (oui_oui r = upper oui)
          then {| oui_oui := oui_oui r; oui_vendor := vendor; oui_updated_at := now |}
          else r) <$> cache
  else cache ++ [{| oui_oui := upper oui; oui_vendor := vendor; oui_updated_at := now |}].

(** [bulk_insert_oui]: INSERT OR REPLACE for each pair in turn; the row
    that is in the way is deleted and the new one comes last. *)
Definition bulk_insert_oui (cache : list OuiRow) (now : Z)
    (oui_data : list (string * string)) : list OuiRow :=
  foldl (λ cache '(oui, vendor),
           filter (λ r, oui_oui r ≠ oui) cache
             ++ [{| oui_oui := oui; oui_vendor := vendor; oui_updated_at := now |}])
        cache oui_data.

(** **** Observations on all tables *)

(** The key of a port row, when none of its three columns is NULL. *)
Definition port_row_key (r : PortRow) : option (Z * Z * string) :=
  device_id ← prt_device_id r;
  port_number ← prt_port_number r;
  protocol ← prt_protocol r;
  Some (device_id, port_number, protocol).

(** UNIQUE(device_id, port_number, protocol) *)
Definition unique_ports (s : Store) : Prop :=
  NoDup (omap port_row_key (ports s)).

(** The constraints that the statements of db.py rely on: a row id
    identifies a row of its table, an address a device and a key a port. *)
Definition well_formed (s : Store) : Prop :=
  NoDup (dev_id <$> devices s) ∧ unique_addresses s
  ∧ NoDup (prt_id <$> ports s) ∧ unique_ports s
  ∧ NoDup (evt_id <$> events s)
  ∧ NoDup (res_id <$> scan_results s)
  ∧ NoDup (tsk_id <$> scan_tasks s).

(** What identifies a device row and says when it was first seen, and
    what identifies a port row. *)
Definition device_identity (r : DeviceRow) : Z * option string * Z :=
  (dev_id r, dev_ip_address r, dev_first_seen r).

Definition port_identity (r : PortRow) : Z * option Z * option Z * option string :=
  (prt_id r, prt_device_id r, prt_port_number r, prt_protocol r).

(** From [s] to [s'] no row of the inventory or of the history is removed
    or moved: the devices and the ports keep their identity and their
    place, the events and the scan results are kept as they are, and what
    is new comes after them. *)
Definition grows (s s' : Store) : Prop :=
  (device_identity <$> devices s) `prefix_of` (device_identity <$> devices s')
  ∧ (port_identity <$> ports s) `prefix_of` (port_identity <$> ports s')
  ∧ events s `prefix_of` events s'
  ∧ scan_results s `prefix_of` scan_results s'.

End Operations.
End Database.

(** ** pulse/services/device_recognition.py: vendor lookup, confidence,
    suspicious devices and statistics *)
Module Recognition.
Import Py NmapParser DeviceRecognition Database.

(** [{}], the default of [p.get('service', {})]. *)
Definition no_service : Service :=
  {| svc_name := None; svc_product := None; svc_version := None;
     svc_extrainfo := None; svc_ostype := None; svc_method := None;
     svc_conf := None; svc_cpe := None |}.

(** [get_vendor_from_mac] *)
Definition get_vendor_from_mac (cache : list OuiRow) (mac_address : option string)
    : option string :=
  if negb (truthy mac_address) then None
  else
    let oui := upper (remove_char ":" (slice_to 8 (or_empty mac_address))) in
    let vendor := get_oui_vendor cache oui in
    if truthy vendor then vendor else None.

(** [any(p.get('service', {}).get('name') for p in ports)]: stops at the
    first port with a named service. *)
Fixpoint any_service_name (ports : list Port) : result bool :=
  match ports with
  | [] => Ok false
  | p :: ports' =>
      match get_default (port_service p) no_service with
      | None => Raise (mkExn AttributeError "'NoneType' object has no attribute 'get'")
      | Some service =>
          if truthy (svc_name service) then Ok true else any_service_name ports'
      end
  end.

(** The score of [_calculate_confidence]. The metadata dicts are those
    that [extract_devices] builds: a key is absent or bound to a value. *)
Definition confidence_score (device_data : DeviceData) : result Z :=
  let score := 0 in
  let score := if truthy (dd_os_name device_data) then score + 30 else score in
  let score := if truthy (dd_vendor device_data) then score + 20 else score in
  let score := if truthy (dd_hostname device_data) then score + 20 else score in
  match get_default (dd_metadata device_data) empty_metadata with
  | None => Raise (mkExn AttributeError "'NoneType' object has no attribute 'get'")
  | Some metadata =>
      let score :=
        if bool_decide (0 < default 0 (md_open_ports_count metadata))
        then score + 20 else score in
      named ← any_service_name (default [] (md_ports metadata));
      mret (if named : bool then score + 10 else score)
  end.

(** [_calculate_confidence] *)
Definition _calculate_confidence (device_data : DeviceData) : result string :=
  score ← confidence_score device_data;
  mret (if bool_decide (70 ≤ score) then "high"
        else if bool_decide (40 ≤ score) then "medium"
        else "low").

(** [_calculate_suspicion_severity] *)
Definition _calculate_suspicion_severity (reasons : list string) : string :=
  if bool_decide (3 ≤ length reasons)%nat then "critical"
  else if bool_decide (length reasons = 2%nat) then "high"
  else if existsb (λ r, contains "suspicious port" (lower r)) reasons then "high"
  else "medium".

(** [str(x)] of an [int] or None. *)
Definition str_int (o : option Z) : string :=
  match o with Some n => str_Z n | None => "None" end.

(** An entry of the report of [identify_suspicious_devices]. *)
Record Suspicious := {
  sus_device_id : Z;
  sus_ip_address : option string;
  sus_hostname : option string;
  sus_mac_address : option string;
  sus_vendor : option string;
  sus_device_type : option string;
  sus_reasons : list string;
  sus_severity : string
}.

(** [port['port_number'] in suspicious_ports] *)
Definition port_suspicious (suspicious_ports : list Z) (p : PortRow) : Prop :=
  ∃ n, prt_port_number p = Some n ∧ n ∈ suspicious_ports.

Global Instance port_suspicious_dec suspicious_ports p :
  Decision (port_suspicious suspicious_ports p).
Proof.
  unfold port_suspicious. destruct (prt_port_number p) as [n|].
  - destruct (decide (n ∈ suspicious_ports)) as [Hin|Hin].
    + left. by exists n.
    + right. intros (m & [= <-] & Hm). done.
  - right. by intros (m & Hm & _).
Defined.

(** The open ports among the rows of a device. *)
Definition open_rows (ports : list PortRow) : list PortRow :=
  filter (λ p, prt_state p = Some "open") ports.

(** The reasons collected for one device, in the order of the checks. *)
Definition suspicion_reasons (suspicious_ports : list Z) (device : DeviceRow)
    (ports : list PortRow) : list string :=
  let open_ports := open_rows ports in
  ((λ p, "Suspicious port " +:+ str_int (prt_port_number p)
         +:+ " (" +:+ str_opt (prt_service_name p) +:+ ")")
     <$> filter (port_suspicious suspicious_ports) open_ports)
  ++ (if negb (truthy (dev_hostname device)) && negb (truthy (dev_vendor device))
      then ["No hostname or vendor information"] else [])
  ++ (if bool_decide (50 < length open_ports)%nat
      then ["Unusual number of open ports ("
            +:+ str_Z (Z.of_nat (length open_ports)) +:+ ")"]
      else [])
  ++ (if bool_decide (dev_device_type device = Some "unknown")
         && bool_decide (5 < length open_ports)%nat
      then ["Unknown device type with multiple open ports"] else []).

(** [identify_suspicious_devices]; [suspicious_ports] is the value of
    [alerts.rules.suspicious_port.ports] or its default [23, 445, 3389]. *)
Definition identify_suspicious_devices (s : Store) (suspicious_ports : list Z)
    : list Suspicious :=
  omap (λ device,
          let reasons :=
            suspicion_reasons suspicious_ports device
                              (get_device_ports s (dev_id device)) in
          match reasons with
          | [] => None
          | _ =>
              Some {| sus_device_id := dev_id device;
                      sus_ip_address := dev_ip_address device;
                      sus_hostname := dev_hostname device;
                      sus_mac_address := dev_mac_address device;
                      sus_vendor := dev_vendor device;
                      sus_device_type := dev_device_type device;
                      sus_reasons := reasons;
                      sus_severity := _calculate_suspicion_severity reasons |}
          end)
       (get_all_devices s true).

(** [stats[k][key] = stats[k].get(key, 0) + 1] *)
Definition count_key (key : string) (d : list (string * Z)) : list (string * Z) :=
  dict_set key (default 0 (dict_get key d) + 1) d.

(** [x or dflt] for a [str] or None. *)
Definition or_text (o : option string) (dflt : string) : string :=
  if truthy o then or_empty o else dflt.

Record Statistics := {
  total_devices : Z;
  by_type : list (string * Z);
  by_vendor : list (string * Z);
  by_os : list (string * Z);
  with_hostname : Z;
  without_hostname : Z;
  with_mac : Z;
  without_mac : Z
}.

(** The body of the loop of [get_device_statistics]. *)
Definition count_device (stats : Statistics) (device : DeviceRow) : Statistics :=
  {| total_devices := total_devices stats;
     by_type := count_key (or_text (dev_device_type device) "unknown") (by_type stats);
     by_vendor := count_key (or_text (dev_vendor device) "Unknown") (by_vendor stats);
     by_os := count_key (or_text (dev_os_family device) "Unknown") (by_os stats);
     with_hostname :=
       if truthy (dev_hostname device) then with_hostname stats + 1
       else with_hostname stats;
     without_hostname :=
       if truthy (dev_hostname device) then without_hostname stats
       else without_hostname stats + 1;
     with_mac :=
       if truthy (dev_mac_address device) then with_mac stats + 1 else with_mac stats;
     without_mac :=
       if truthy (dev_mac_address device) then without_mac stats
       else without_mac stats + 1 |}.

(** [get_device_statistics] *)
Definition get_device_statistics (s : Store) : Statistics :=
  let devices := get_all_devices s true in
  foldl count_device
        {| total_devices := Z.of_nat (length devices);
           by_type := []; by_vendor := []; by_os := [];
           with_hostname := 0; without_hostname := 0;
           with_mac := 0; without_mac := 0 |}
        devices.

(** [enriched['vendor'] = vendor] and [enriched['device_type'] = device_type] *)
Definition set_vendor (device_data : DeviceData) (vendor : string) : DeviceData :=
  {| dd_ip_address := dd_ip_address device_data;
     dd_mac_address := dd_mac_address device_data;
     dd_hostname := dd_hostname device_data;
     dd_vendor := Some vendor;
     dd_oui := dd_oui device_data;
     dd_device_type := dd_device_type device_data;
     dd_os_name := dd_os_name device_data;
     dd_os_family := dd_os_family device_data;
     dd_os_version := dd_os_version device_data;
     dd_os_accuracy := dd_os_accuracy device_data;
     dd_status := dd_status device_data;
     dd_metadata := dd_metadata device_data |}.

Definition set_device_type (device_data : DeviceData) (device_type : string) : DeviceData :=
  {| dd_ip_address := dd_ip_address device_data;
     dd_mac_address := dd_mac_address device_data;
     dd_hostname := dd_hostname device_data;
     dd_vendor := dd_vendor device_data;
     dd_oui := dd_oui device_data;
     dd_device_type := Some device_type;
     dd_os_name := dd_os_name device_data;
     dd_os_family := dd_os_family device_data;
     dd_os_version := dd_os_version device_data;
     dd_os_accuracy := dd_os_accuracy device_data;
     dd_status := dd_status device_data;
     dd_metadata := dd_metadata device_data |}.

(** The dict that [enrich_device_data] returns: the device dict with the
    key [classification_confidence] added. *)
Record Enriched := {
  enr_device : DeviceData;
  enr_classification_confidence : string
}.

Section Enrichment.
Context `{!Builtins}.

(** [enrich_device_data]; [cache] is the OUI table of the database. The
    dict passed in is copied, not changed. *)
Definition enrich_device_data (classification_rules : Rules) (cache : list OuiRow)
    (device_data : DeviceData) : result Enriched :=
  let enriched := device_data in
  let enriched :=
    if negb (truthy (dd_vendor enriched)) && truthy (dd_mac_address enriched) then
      let vendor := get_vendor_from_mac cache (dd_mac_address enriched) in
      if truthy vendor then set_vendor enriched (or_empty vendor) else enriched
    else enriched in
  device_type ← classify_device classification_rules enriched;
  let enriched := set_device_type enriched device_type in
  classification_confidence ← _calculate_confidence enriched;
  mret {| enr_device := enriched;
          enr_classification_confidence := classification_confidence |}.

End Enrichment.

(** **** Observations on the report *)

(** The evidence that [_calculate_confidence] weighs. *)
Definition has_open_ports (device_data : DeviceData) : bool :=
  bool_decide (0 < default 0 (get (dd_metadata device_data) ≫= md_open_ports_count)).

(** The sum of the counts of a dict. *)
Definition sum_counts (d : list (string * Z)) : Z :=
  foldr Z.add 0 d.*2.

End Recognition.

(** ** pulse/scanner/worker.py *)
Module Worker.
Import Py NmapParser Engine Database.

(** The configuration object: text and integer settings by key. *)
Record Config := {
  cfg_text : string → option string;
  cfg_int : string → option Z
}.

(** What one run of a worker meets: the path [_find_nmap] returns, and
    what the call of [scan] meets. *)
Record World := {
  nmap_found : option string;
  scan_scratch : Engine.Scratch
}.

Definition empty_service : Service :=
  {| svc_name := None; svc_product := None; svc_version := None;
     svc_extrainfo := None; svc_ostype := None; svc_method := None;
     svc_conf := None; svc_cpe := None |}.

Section Functions.
Context `{!Builtins, !ET.Reader, !Json, !Sqlite}.

(** The dict with the keys [task_id], [success] and [error]. *)
Definition worker_error (task_id : option Z) (error : string) : ScanResult :=
  {| sr_success := false; sr_return_code := None; sr_error := Some error;
     sr_command := None; sr_target := None; sr_scan_type := None;
     sr_start_time := None; sr_end_time := None; sr_duration := None;
     sr_stdout := None; sr_stderr := None; sr_xml_output := None;
     sr_nmap_version := None; sr_parsed_data := None; sr_devices := None;
     sr_task_id := task_id |}.

Definition with_worker_keys (result : ScanResult)
    (parsed_data : option ParsedData) (devices : option (list DeviceData))
    (task_id : option Z) : ScanResult :=
  {| sr_success := sr_success result; sr_return_code := sr_return_code result;
     sr_error := sr_error result; sr_command := sr_command result;
     sr_target := sr_target result; sr_scan_type := sr_scan_type result;
     sr_start_time := sr_start_time result; sr_end_time := sr_end_time result;
     sr_duration := sr_duration result; sr_stdout := sr_stdout result;
     sr_stderr := sr_stderr result; sr_xml_output := sr_xml_output result;
     sr_nmap_version := sr_nmap_version result;
     sr_parsed_data := parsed_data; sr_devices := devices;
     sr_task_id := task_id |}.

(** The end of [_scan_worker]: a successful result with XML output is
    parsed and its devices are extracted; an exception there turns the
    result into an error. *)
Definition parse_scanned (task_id : option Z) (result : ScanResult) : ScanResult :=
  if sr_success result && truthy (sr_xml_output result) then
    let parsed_data := parse_xml (or_empty (sr_xml_output result)) in
    match extract_devices parsed_data with
    | Raise e => worker_error task_id (exn_str e)
    | Ok devices =>
        with_worker_keys result (Some parsed_data) (Some devices) task_id
    end
  else with_worker_keys result (sr_parsed_data result) (sr_devices result) task_id.

(** [ScanWorkerPool._scan_worker] *)
Definition _scan_worker (config : Config) (world : World) (task_data : TaskRow)
    : ScanResult :=
  let task_id := Some (tsk_id task_data) in
  let target := tsk_target task_data in
  let task_type := tsk_task_type task_data in
  let scan_options := tsk_scan_options task_data in
  if negb (truthy (nmap_found world))
  then worker_error task_id "Nmap not found in system PATH"
  else
    let scanner := {| nmap_path := or_empty (nmap_found world);
                      config := Some (cfg_text config) |} in
    let timeout := default 600 (cfg_int config "scanner.workers.timeout") in
    let scratch := scan_scratch world in
    let scanned :=
      if bool_decide (task_type = Some "discovery") then
        Some (discovery_scan scanner scratch target timeout)
      else if bool_decide (task_type = Some "quick") then
        Some (quick_scan scanner scratch target timeout)
      else if bool_decide (task_type = Some "deep") then
        Some (deep_scan scanner scratch target timeout)
      else if bool_decide (task_type = Some "full") then
        Some (full_scan scanner scratch target timeout)
      else if bool_decide (task_type = Some "custom") then
        Some (scan_call scanner scratch target ScanType.CUSTOM scan_options timeout)
      else None in
    match scanned with
    | None => worker_error task_id ("Unknown task type: " +:+ str_opt task_type)
    | Some (Raise e) => worker_error task_id (exn_str e)
    | Some (Ok result) => parse_scanned task_id result
    end.

(** The dict passed to [add_port] for one port of a device. *)
Definition port_data_of (device_id : Z) (port : Port) : result PortData :=
  port_number ← int_field (port_port port);
  service ←
    match get_default (port_service port) empty_service with
    | None => Raise (mkExn AttributeError "'NoneType' object has no attribute 'get'")
    | Some service => Ok service
    end;
  mret {| pd_device_id := Some device_id;
          pd_port_number := Some port_number;
          pd_protocol := from_option Has PyNone (get_default (port_protocol port) "tcp");
          pd_state := get_default (port_state port) "unknown";
          pd_service_name := svc_name service;
          pd_service_product := svc_product service;
          pd_service_version := svc_version service;
          pd_service_extrainfo := svc_extrainfo service |}.

(** The inner [try]: a port whose upsert raises is logged and skipped. *)
Definition process_port (now : Z) (device_id : Z) (s : Store) (port : Port) : Store :=
  match port_data ← port_data_of device_id port; add_port s now port_data with
  | Ok (s', _) => s'
  | Raise _ => s
  end.

Definition discovered_event (device_id : Z) (device_data : DeviceData) : EventData :=
  let ip_address := dd_ip_address device_data in
  {| ed_event_type := Some "device_discovered";
     ed_severity := Has "info";
     ed_device_id := Some device_id;
     ed_title := Some ("Device discovered: " +:+ str_opt ip_address);
     ed_description :=
       Some ("New device found - " +:+
             str_opt (if truthy (dd_hostname device_data)
                      then dd_hostname device_data else ip_address));
     ed_metadata := Missing |}.

(** The body of the loop over the devices: the store it leaves, and the
    exception that reached the per-device [except], if any. Every statement
    commits on its own, so what was written before the exception stays. *)
Definition process_device (now : Z) (s : Store) (device_data : DeviceData)
    : Store * option Exn :=
  match add_device s now device_data with
  | Raise e => (s, Some e)
  | Ok (s1, device_id) =>
      match get_default (dd_metadata device_data) empty_metadata with
      | None => (s1, Some (mkExn AttributeError "'NoneType' object has no attribute 'get'"))
      | Some metadata =>
          let ports := default [] (md_ports metadata) in
          let s2 := foldl (process_port now device_id) s1 ports in
          match create_event s2 now (discovered_event device_id device_data) with
          | Raise e => (s2, Some e)
          | Ok (s3, _) => (s3, None)
          end
      end
  end.

Definition process_devices (now : Z) (s : Store) (devices : list DeviceData) : Store :=
  foldl (λ s device_data, (process_device now s device_data).1) s devices.

(** **** Observations on the reconciliation *)

(** The identity of each row of the devices table and of the ports table. *)
Definition device_keys (s : Store) : list (Z * option string) :=
  (λ r, (dev_id r, dev_ip_address r)) <$> devices s.


Definition port_keys (s : Store) : list (option Z * option Z * option string) :=
  (λ r, (prt_device_id r, prt_port_number r, prt_protocol r)) <$> ports s.



(** [result.get('parsed_data', {}).get(key, 0)] for the three host counts. *)
Definition parsed_count (result : ScanResult) (count : ParsedData → Z) : Z :=
  match sr_parsed_data result with
  | Some (PRun _ _ _ _ _ _ as parsed_data) => count parsed_data
  | _ => 0
  end.

Definition hosts_up_of (d : ParsedData) : Z :=
  match d with PRun _ _ _ up _ _ => up | PError _ => 0 end.
Definition hosts_down_of (d : ParsedData) : Z :=
  match d with PRun _ _ _ _ down _ => down | PError _ => 0 end.
Definition hosts_total_of (d : ParsedData) : Z :=
  match d with PRun _ _ _ _ _ total => total | PError _ => 0 end.

Definition scan_result_data (result : ScanResult) : ScanResultData :=
  {| rd_task_id := sr_task_id result;
     rd_scan_type := sr_scan_type result;
     rd_target := sr_target result;
     rd_start_time := sr_start_time result;
     rd_end_time := sr_end_time result;
     rd_duration := sr_duration result;
     rd_hosts_up := Has (parsed_count result hosts_up_of);
     rd_hosts_down := Has (parsed_count result hosts_down_of);
     rd_hosts_total := Has (parsed_count result hosts_total_of);
     rd_nmap_command := sr_command result;
     rd_nmap_version := sr_nmap_version result;
     rd_raw_output := sr_stdout result;
     rd_xml_output := sr_xml_output result;
     rd_summary :=
       Some ("Scanned " +:+ str_opt (sr_target result) +:+ " - "
             +:+ str_Z (parsed_count result hosts_up_of) +:+ " hosts up") |}.

(** [ScanOrchestrator._process_scan_result] *)
Definition _process_scan_result (s : Store) (now : Z) (result : ScanResult) : Store :=
  if negb (sr_success result) then s
  else
    match save_scan_result s now (scan_result_data result) with
    | Raise _ => s
    | Ok (s1, _) => process_devices now s1 (default [] (sr_devices result))
    end.

(** [execute_task] up to the submission to the pool: the task is read and
    marked running. None is a task that is not in the table. An
    exception of one of the two statements leaves [execute_task], which
    has no handler there; nothing is written then. *)
Definition start_task (s : Store) (now : Z) (task_id : Z)
    : result (option (Store * TaskRow)) :=
  task_data ← call s (SelectTask task_id) (get_task s task_id);
  match task_data with
  | None => Ok None
  | Some task_data =>
      s' ← call s (UpdateTaskStatus task_id "running" None)
                (update_task_status s now task_id "running" None);
      mret (Some (s', task_data))
  end.

(** The status that is written for a result: completed, or failed with
    the error of the result. *)
Definition final_status (result : ScanResult) : string * option string :=
  if sr_success result then ("completed", None) else ("failed", sr_error result).

(** What [execute_task] and [_task_completed_callback] do with the result
    of the worker: reconcile it and write the final status. The
    exception of a refused update is returned with the store as the
    reconciliation left it. *)
Definition complete_task (s : Store) (now : Z) (task_id : Z) (result : ScanResult)
    : Store * option Exn :=
  let s1 := _process_scan_result s now result in
  let '(status, error) := final_status result in
  match call s1 (UpdateTaskStatus task_id status error)
             (update_task_status s1 now task_id status error) with
  | Ok s2 => (s2, None)
  | Raise e => (s1, Some e)
  end.

Definition task_not_found : ScanResult :=
  worker_error None "Task not found".

(** The [try] of [execute_task], entered with the result of the worker,
    and its handler: an exception of the final update is answered with an
    update to failed that carries its text, and with the dict of the keys
    [success] and [error]; an exception of that update leaves
    [execute_task], and the task stays running. *)
Definition finish_task (s : Store) (now : Z) (task_id : Z) (result : ScanResult)
    : Store * Py.result ScanResult :=
  match complete_task s now task_id result with
  | (s1, None) => (s1, Ok result)
  | (s1, Some e) =>
      match call s1 (UpdateTaskStatus task_id "failed" (Some (exn_str e)))
                 (update_task_status s1 now task_id "failed" (Some (exn_str e))) with
      | Ok s2 => (s2, Ok (worker_error None (exn_str e)))
      | Raise e' => (s1, Raise e')
      end
  end.

(** [ScanOrchestrator.execute_task], with the worker's run in between.
    The pool takes the task ([submit_task] starts a stopped pool again),
    and the worker catches what its scan raises, so the future has a
    result. *)
Definition execute_task (config : Config) (s : Store) (started finished : Z)
    (world : World) (task_id : Z) : Store * result ScanResult :=
  match start_task s started task_id with
  | Raise e => (s, Raise e)
  | Ok None => (s, Ok task_not_found)
  | Ok (Some (s1, task_data)) =>
      finish_task s1 finished task_id (_scan_worker config world task_data)
  end.

(** [ScanOrchestrator.execute_pending_tasks], when the database runs each
    of its statements: the pending tasks are marked running and handed to
    the pool as they were read. *)
Definition execute_pending_tasks (s : Store) (now : Z) (limit : Z) : Store * list TaskRow :=
  let pending_tasks := get_pending_tasks s now limit in
  (foldl (λ s task, update_task_status s now (tsk_id task) "running" None) s pending_tasks,
   pending_tasks).

(** The loop of [execute_pending_tasks] as its caller meets it: the tasks
    are marked running and submitted one after the other. An update that
    the database refuses raises, and the exception leaves the method,
    which has no handler: the tasks before it stay marked and
    submitted. *)
Fixpoint submit_pending (s : Store) (now : Z) (pending_tasks : list TaskRow)
    : Store * list TaskRow :=
  match pending_tasks with
  | [] => (s, [])
  | task :: rest =>
      match call s (UpdateTaskStatus (tsk_id task) "running" None)
                 (update_task_status s now (tsk_id task) "running" None) with
      | Raise _ => (s, [])
      | Ok s1 =>
          let '(s2, submitted) := submit_pending s1 now rest in
          (s2, task :: submitted)
      end
  end.

(** A call of [execute_pending_tasks]: the store it leaves and the tasks
    it has submitted, whether it returns or raises. *)
Definition call_execute_pending_tasks (s : Store) (now : Z) (limit : Z)
    : Store * list TaskRow :=
  match call s (SelectPendingTasks limit) (get_pending_tasks s now limit) with
  | Raise _ => (s, [])
  | Ok pending_tasks => submit_pending s now pending_tasks
  end.

(** [ScanOrchestrator._task_completed_callback]: it runs as the callback
    of the future, where an exception of the update is logged and goes no
    further. *)
Definition _task_completed_callback (s : Store) (now : Z) (result : ScanResult) : Store :=
  match sr_task_id result with
  | Some task_id => (complete_task s now task_id result).1
  | None => _process_scan_result s now result
  end.

End Functions.
End Worker.

(** ** pulse/scheduler/scheduler.py *)
Module Scheduler.
Import Py NmapParser Engine Database Worker.

(** The task dict of [_run_scan], [_run_discovery_scan] and
    [schedule_one_time_scan]. *)
Definition pending_task (target scan_type : string) (scheduled_at : option string) : TaskData :=
  {| td_task_type := Some scan_type;
     td_target := Some target;
     td_scan_options := Missing;
     td_status := Has "pending";
     td_priority := Missing;
     td_scheduled_at := scheduled_at |}.

(** The jobs run on a thread pool and scans take long, so the steps of
    different jobs interleave. A job is followed between its accesses to
    the task table. *)
Inductive Job :=
| Idle
    (* finished *)
| Triggered (task_id : Z)
    (* [_run_scan], [_run_discovery_scan]: the task is created,
       [execute_task] not yet entered *)
| Sweeping (todo : list Z)
    (* [_process_pending_tasks]: the pending tasks are read, these are
       still to be executed *)
| Executing (task_data : TaskRow) (sweep : option (list Z))
    (* inside [execute_task]: the task is marked running, the worker has
       not returned; called by [_run_scan] or [_run_discovery_scan]
       (None), or by the sweep with these tasks still to be executed *)
| Submitted (task_data : TaskRow).
    (* [execute_pending_tasks]: the task is marked running and submitted
       with the completion callback *)

Record System := {
  store : Store;
  jobs : list Job
}.

Definition initial : System := {| store := empty_store; jobs := [] |}.

(** What happens next; [now] is the clock reading of the statements of the
    step. *)
Inductive Step :=
| ScheduleOnce (now : Z) (target scan_type : string) (run_date : Z)
| Trigger (now : Z) (target scan_type : string)
| Sweep (now : Z)
| PoolSweep (now : Z) (limit : Z)
| Enter (job : nat) (now : Z)
| Return (job : nat) (now : Z) (world : World).

Section Functions.
Context `{!Builtins, !ET.Reader, !Json, !Sqlite}.
Context (config : Config).

(** [schedule_one_time_scan]: an exception of the INSERT goes to the
    caller. *)
Definition schedule_one_time_scan (s : Store) (now : Z) (target scan_type : string)
    (run_date : Z) : result (Store * Z) :=
  let task_data := pending_task target scan_type (Some (isoformat run_date)) in
  call s (InsertTask task_data) (create_scan_task s now task_data).

(** The job of a sweep after one of its tasks. *)
Definition continue (todo : list Z) : Job :=
  match todo with [] => Idle | _ => Sweeping todo end.

(** The job after [execute_task] returned to its caller. *)
Definition returned (sweep : option (list Z)) : Job :=
  match sweep with None => Idle | Some todo => continue todo end.

(** An exception leaves [execute_task]. [_run_scan] and
    [_run_discovery_scan] log it. The loop of [_process_pending_tasks]
    writes the task failed with the text of the exception and goes on to
    the next task; an exception of that update ends the sweep, in the
    outer handler. *)
Definition execute_task_raised (s : Store) (now : Z) (task_id : Z) (e : Exn)
    (sweep : option (list Z))
    : Store * Job :=
  match sweep with
  | None => (s, Idle)
  | Some todo =>
      match call s (UpdateTaskStatus task_id "failed" (Some (exn_str e)))
                 (update_task_status s now task_id "failed" (Some (exn_str e))) with
      | Ok s' => (s', continue todo)
      | Raise _ => (s, Idle)
      end
  end.

(** A job calls [execute_task] for a task, up to the submission to the
    pool. *)
Definition call_execute_task (s : Store) (now : Z) (task_id : Z) (sweep : option (list Z))
    : Store * Job :=
  match start_task s now task_id with
  | Ok (Some (s', task_data)) => (s', Executing task_data sweep)
  | Ok None => (s, returned sweep)
  | Raise e => execute_task_raised s now task_id e sweep
  end.

(** A job enters [execute_task] for its next task. *)
Definition enter (s : Store) (now : Z) (j : Job) : option (Store * Job) :=
  match j with
  | Triggered task_id => Some (call_execute_task s now task_id None)
  | Sweeping (task_id :: todo) => Some (call_execute_task s now task_id (Some todo))
  | _ => None
  end.

(** The worker of a job returns its result. *)
Definition return_ (s : Store) (now : Z) (world : World) (j : Job) : option (Store * Job) :=
  match j with
  | Executing task_data sweep =>
      let task_id := tsk_id task_data in
      match finish_task s now task_id (_scan_worker config world task_data) with
      | (s', Ok _) => Some (s', returned sweep)
      | (s', Raise e) => Some (execute_task_raised s' now task_id e sweep)
      end
  | Submitted task_data =>
      Some (_task_completed_callback s now (_scan_worker config world task_data), Idle)
  | _ => None
  end.

(** One step. A statement that the database refuses in [_run_scan],
    [_run_discovery_scan] or at the start of [_process_pending_tasks] is
    logged by the handler of the job, which ends there. *)
Definition step (sys : System) (st : Step) : option System :=
  match st with
  | ScheduleOnce now target scan_type run_date =>
      match schedule_one_time_scan (store sys) now target scan_type run_date with
      | Ok (s, _) => Some {| store := s; jobs := jobs sys |}
      | Raise _ => Some sys
      end
  | Trigger now target scan_type =>
      let task_data := pending_task target scan_type None in
      match call (store sys) (InsertTask task_data)
                 (create_scan_task (store sys) now task_data) with
      | Ok (s, task_id) => Some {| store := s; jobs := jobs sys ++ [Triggered task_id] |}
      | Raise _ => Some sys
      end
  | Sweep now =>
      match call (store sys) (SelectPendingTasks 10)
                 (get_pending_tasks (store sys) now 10) with
      | Ok pending_tasks =>
          Some {| store := store sys;
                  jobs := jobs sys ++ [continue (tsk_id <$> pending_tasks)] |}
      | Raise _ => Some sys
      end
  | PoolSweep now limit =>
      let '(s, submitted) := call_execute_pending_tasks (store sys) now limit in
      Some {| store := s; jobs := jobs sys ++ (Submitted <$> submitted) |}
  | Enter i now =>
      j ← jobs sys !! i;
      '(s, j') ← enter (store sys) now j;
      Some {| store := s; jobs := <[i := j']> (jobs sys) |}
  | Return i now world =>
      j ← jobs sys !! i;
      '(s, j') ← return_ (store sys) now world j;
      Some {| store := s; jobs := <[i := j']> (jobs sys) |}
  end.

(** The systems a run passes through, in order, from [sys] on. *)
Fixpoint run (sys : System) (steps : list Step) : option (list System) :=
  match steps with
  | [] => Some [sys]
  | st :: steps' =>
      sys' ← step sys st;
      trace ← run sys' steps';
      Some (sys :: trace)
  end.

(** The status of a task in a system. *)
Definition status_of (sys : System) (task_id : Z) : option string :=
  get_task (store sys) task_id ≫= tsk_status.

(** **** Observations on the system *)

(** The task a job has marked running and not yet completed. *)
Definition job_task (j : Job) : option TaskRow :=
  match j with
  | Executing task_data _ | Submitted task_data => Some task_data
  | _ => None
  end.

(** The systems that runs from the empty system lead to. *)
Definition reachable (sys : System) : Prop :=
  ∃ steps trace, run initial steps = Some trace ∧ last trace = Some sys.

(** Every task in the hands of a job has left pending. *)
Definition started (sys : System) : Prop :=
  ∀ j task_data, j ∈ jobs sys → job_task j = Some task_data →
    ∃ t, get_task (store sys) (tsk_id task_data) = Some t
         ∧ tsk_status t ≠ Some "pending".

(** The status changes of one step: none, to running or to failed from
    any status, to completed from a status other than pending. *)
Definition status_change (before after : option string) : Prop :=
  after = before
  ∨ after = Some "running"
  ∨ after = Some "failed"
  ∨ (before ≠ Some "pending" ∧ after = Some "completed").

(** A job of a sweep that is about to call [execute_task]: the only place
    where a task that is still pending is written failed. *)
Definition sweep_enters (sys : System) (st : Step) (task_id : Z) : Prop :=
  ∃ i now todo, st = Enter i now ∧ jobs sys !! i = Some (Sweeping (task_id :: todo)).

(** What a step does to the task table: the tasks stay, each status changes
    as [status_change] allows, and a new task is pending. *)
Definition evolves (s s' : Store) : Prop :=
  (∀ id t, get_task s id = Some t →
     ∃ t', get_task s' id = Some t' ∧ status_change (tsk_status t) (tsk_status t'))
  ∧ (∀ id t', get_task s id = None → get_task s' id = Some t' →
       tsk_status t' = Some "pending").

End Functions.
End Scheduler.

(** ** Concrete libraries, stores and inputs, for the examples *)
(** ** pulse/utils/config.py *)
Module Configuration.
Import Py.

(** A value of the configuration data, as [yaml.safe_load] returns it or
    as a caller of [set] passes it. The keys of a mapping are texts, and
    no mapping is shared between two places of the data. [VOther] stands
    for a value of any other type (a float, a date), by its [repr]. *)
Inductive Value :=
| VNone
| VBool (b : bool)
| VInt (n : Z)
| VStr (s : string)
| VList (l : list Value)
| VDict (d : list (string * Value))
| VOther (repr : string).

(** [key.split('.')]: [current] holds the characters of the piece being
    read, the last one first. *)
Fixpoint split_from (current : string) (key : string) : list string :=
  match key with
  | EmptyString => [String.rev current]
  | String c key' =>
      if bool_decide (c = "."%char)
      then String.rev current :: split_from EmptyString key'
      else split_from (String c current) key'
  end.

Definition split (key : string) : list string := split_from EmptyString key.

(** The loop of [get]: None when a key is not in a dict or the value
    reached is not a dict. *)
Fixpoint get_path (keys : list string) (value : Value) : option Value :=
  match keys with
  | [] => Some value
  | k :: keys' =>
      match value with
      | VDict d =>
          match dict_get k d with
          | Some v => get_path keys' v
          | None => None
          end
      | _ => None
      end
  end.

(** [Config.get], on configuration data that is loaded. *)
Definition get (data : Value) (key : string) (dflt : Value) : Value :=
  default dflt (get_path (split key) data).

(** The text of the TypeError that Python raises when the key [k] is
    looked for in, read from or assigned to a value that is not a dict. *)
Class Errors := { type_error : Value → string → string }.

(** The loop and the final assignment of [set]. The dicts on the path are
    updated in place; a value on the path that is not a dict raises before
    anything is assigned. *)
Fixpoint set_path `{Errors} (keys : list string) (value : Value) (config : Value)
    : result Value :=
  match keys with
  | [] => Ok config
  | k :: keys' =>
      match config with
      | VDict d =>
          match keys' with
          | [] => Ok (VDict (dict_set k value d))
          | _ =>
              child ← set_path keys' value (default (VDict []) (dict_get k d));
              mret (VDict (dict_set k child d))
          end
      | _ => Raise (mkExn TypeError (type_error config k))
      end
  end.

(** [Config.set], on configuration data that is loaded. *)
Definition set `{Errors} (data : Value) (key : string) (value : Value) : result Value :=
  set_path (split key) value data.

(** **** Observations *)

Definition is_dict (value : Value) : bool :=
  match value with VDict _ => true | _ => false end.

(** Two paths of which neither continues the other. *)
Definition apart (keys keys' : list string) : Prop :=
  ¬ keys `prefix_of` keys' ∧ ¬ keys' `prefix_of` keys.

End Configuration.

Module Demo.
Import Py NmapParser Engine Database Worker Scheduler.

Definition builtins : Builtins :=
  {| int_error := λ s, "invalid literal for int() with base 10: '" +:+ s +:+ "'";
     fromtimestamp_isoformat := λ n, Some (str_Z n);
     isoformat := str_Z;
     shlex_split := λ s, Ok (String.words s) |}.

(** A reader for the texts of the examples: one document, and a text that
    breaks off inside its first tag, with the error of the library for
    it. A text that it does not know it answers like the empty text. *)
Definition empty_run : ET.Element := ET.Elem "nmaprun" [] None [].

Definition reader : ET.Reader :=
  {| ET.fromstring := λ s,
       if bool_decide (s = "<nmaprun/>") then Ok empty_run
       else if bool_decide (s = "<nmaprun") then
         Raise (mkExn ParseError "unclosed token: line 1, column 0")
       else Raise (mkExn ParseError "no element found: line 1, column 0") |}.

Definition json : Json :=
  {| json_dumps := λ m,
       match m with
       | None => "null"
       | Some m =>
           match md_ports m with
           | None => "{}"
           | Some ports => "{ports: " +:+ str_Z (Z.of_nat (length ports)) +:+ "}"
           end
       end;
     json_dumps_dict := λ d,
       match d with
       | None => "null"
       | Some d => "{" +:+ str_Z (Z.of_nat (length d)) +:+ "}"
       end |}.

(** A database that never fails. *)
Definition sqlite : Sqlite :=
  {| statement_error := λ _ _, None;
     is_active_default := 1;
     current_timestamp := str_Z |}.

(** A database that is locked whenever a task is to be given the status
    [status]. *)
Definition sqlite_locked (status : string) : Sqlite :=
  {| statement_error := λ _ stmt,
       match stmt with
       | UpdateTaskStatus _ status' _ =>
           if decide (status' = status) then Some "database is locked" else None
       | _ => None
       end;
     is_active_default := 1;
     current_timestamp := str_Z |}.

(** A database whose devices table refuses a NULL address. *)
Definition sqlite_not_null : Sqlite :=
  {| statement_error := λ _ stmt,
       match stmt with
       | InsertDevice p =>
           match p_ip_address p with
           | None => Some "NOT NULL constraint failed: devices.ip_address"
           | Some _ => None
           end
       | _ => None
       end;
     is_active_default := 1;
     current_timestamp := str_Z |}.

Definition device (ip_address : option string) : DeviceData :=
  {| dd_ip_address := ip_address; dd_mac_address := None; dd_hostname := None;
     dd_vendor := None; dd_oui := None; dd_device_type := None; dd_os_name := None;
     dd_os_family := None; dd_os_version := None; dd_os_accuracy := None;
     dd_status := Missing; dd_metadata := Missing |}.

(** A first observation of 10.0.0.1: a named host that is down. *)
Definition observed_down : DeviceData :=
  {| dd_ip_address := Some "10.0.0.1"; dd_mac_address := Some "AA:BB:CC:DD:EE:FF";
     dd_hostname := Some "printer"; dd_vendor := Some "Test Vendor";
     dd_oui := Some "AABBCC"; dd_device_type := None; dd_os_name := None;
     dd_os_family := None; dd_os_version := None; dd_os_accuracy := None;
     dd_status := Has "down"; dd_metadata := Has empty_metadata |}.

(** A second observation of 10.0.0.1 that carries the address only. *)
Definition observed_bare : DeviceData := device (Some "10.0.0.1").

(** A host element with three candidates for its OS, the last two with
    the same accuracy. *)
Definition osmatch (name accuracy : string) : ET.Element :=
  ET.Elem "osmatch" [("name", name); ("accuracy", accuracy)] None
    [ET.Elem "osclass" [("osfamily", name)] None []].

Definition os_elem : ET.Element :=
  ET.Elem "os" [] None
    [osmatch "Linux 2.6" "95"; osmatch "Linux 5.x" "98"; osmatch "FreeBSD 13" "98"].

Definition os_host : ET.Element :=
  ET.Elem "host" [] None
    [ET.Elem "status" [("state", "up")] None []; os_elem].

(** A host one of whose OS match candidates has no accuracy attribute. *)
Definition no_accuracy_os : ET.Element :=
  ET.Elem "os" [] None
    [osmatch "Linux 5.x" "98"; ET.Elem "osmatch" [("name", "Linux 2.6")] None []].

Definition no_accuracy_host : ET.Element :=
  ET.Elem "host" [] None
    [ET.Elem "status" [("state", "up")] None []; no_accuracy_os].

(** The run of the scenario of the specification: a host with two open
    ports and no MAC, a host with a MAC and no ports, and a host that is
    down. *)
Definition open_port (portid name : string) : Port :=
  {| port_port := Has portid; port_protocol := Has "tcp"; port_state := Has "open";
     port_reason := Some "syn-ack";
     port_service := Has {| svc_name := Some name; svc_product := None;
                            svc_version := None; svc_extrainfo := None;
                            svc_ostype := None; svc_method := None;
                            svc_conf := None; svc_cpe := None |};
     port_scripts := None |}.

Definition host (status : string) (ip_address mac_address vendor : option string)
    (ports : option (list Port)) : Host :=
  {| host_status := Some status; host_reason := Some "arp-response";
     host_ip_address := ip_address; host_ipv6_address := None;
     host_mac_address := mac_address; host_vendor := vendor;
     host_hostnames := None; host_hostname := None; host_os := None;
     host_ports := ports; host_host_scripts := None; host_uptime := None;
     host_distance := None |}.

Definition web_host : Host :=
  host "up" (Some "192.168.1.101") None None
       (Some [open_port "80" "http"; open_port "443" "https"]).

Definition mac_host : Host :=
  host "up" (Some "192.168.1.100") (Some "AA:BB:CC:DD:EE:FF") (Some "Test Vendor") None.

Definition down_host : Host :=
  host "down" (Some "192.168.1.102") None None None.

Definition scenario : ParsedData :=
  PRun {| si_nmap_version := "7.80"; si_args := "nmap -sn 192.168.1.0/24";
          si_type := None; si_protocol := None; si_services := None;
          si_start_time := "1234567890" |}
       [web_host; mac_host; down_host]
       {| rs_end_time := None; rs_elapsed := None; rs_hosts_up := Some 2;
          rs_hosts_down := Some 1; rs_hosts_total := Some 3 |}
       2 1 3.

(** Three rules; a web server scores the same on the last two. *)
Definition rules : DeviceRecognition.Rules :=
  [("printer", {| DeviceRecognition.rule_ports := Some [9100; 631];
                  DeviceRecognition.rule_keywords := Some ["printer"];
                  DeviceRecognition.rule_services := Some ["ipp"] |});
   ("server", {| DeviceRecognition.rule_ports := Some [80; 443; 443];
                 DeviceRecognition.rule_keywords := Some ["Server"];
                 DeviceRecognition.rule_services := Some ["http"; "HTTP"] |});
   ("iot", {| DeviceRecognition.rule_ports := Some [80; 443; 8883];
              DeviceRecognition.rule_keywords := None;
              DeviceRecognition.rule_services := Some ["https"] |})].

(** Rules of which the first names a port twice. *)
Definition repeated_rules : DeviceRecognition.Rules :=
  [("printer", {| DeviceRecognition.rule_ports := Some [80; 80];
                  DeviceRecognition.rule_keywords := None;
                  DeviceRecognition.rule_services := None |});
   ("server", {| DeviceRecognition.rule_ports := None;
                 DeviceRecognition.rule_keywords := None;
                 DeviceRecognition.rule_services := Some ["http"] |})].

(** A rule whose keyword is written with a capital. *)
Definition cased_rules : DeviceRecognition.Rules :=
  [("server", {| DeviceRecognition.rule_ports := None;
                 DeviceRecognition.rule_keywords := Some ["Web"];
                 DeviceRecognition.rule_services := None |})].

Definition web_device : DeviceData :=
  {| dd_ip_address := Some "192.168.1.101"; dd_mac_address := None;
     dd_hostname := Some "Web01"; dd_vendor := None; dd_oui := None;
     dd_device_type := None; dd_os_name := None; dd_os_family := None;
     dd_os_version := None; dd_os_accuracy := None; dd_status := Has "up";
     dd_metadata := Has {| md_ports := Some [open_port "80" "http"; open_port "443" "https"];
                           md_open_ports_count := Some 2;
                           md_all_hostnames := None; md_uptime := None;
                           md_distance := None |} |}.

(** The web device with None for its metadata. *)
Definition unreadable_device : DeviceData :=
  {| dd_ip_address := Some "192.168.1.101"; dd_mac_address := None;
     dd_hostname := Some "Web01"; dd_vendor := None; dd_oui := None;
     dd_device_type := None; dd_os_name := None; dd_os_family := None;
     dd_os_version := None; dd_os_accuracy := None; dd_status := Has "up";
     dd_metadata := PyNone |}.

(** The web device with a MAC address, a cache that knows its prefix, and
    what [enrich_device_data] makes of the two. *)
Definition web_device_mac : DeviceData :=
  {| dd_ip_address := Some "192.168.1.101"; dd_mac_address := Some "aa:bb:cc:dd:ee:ff";
     dd_hostname := Some "Web01"; dd_vendor := None; dd_oui := None;
     dd_device_type := None; dd_os_name := None; dd_os_family := None;
     dd_os_version := None; dd_os_accuracy := None; dd_status := Has "up";
     dd_metadata := dd_metadata web_device |}.

Definition oui_cache : list Database.OuiRow :=
  [{| Database.oui_oui := "AABBCC"; Database.oui_vendor := "Test Vendor";
      Database.oui_updated_at := 10 |}].

Definition enriched_web : Recognition.Enriched :=
  {| Recognition.enr_device :=
       Recognition.set_device_type
         (Recognition.set_vendor web_device_mac "Test Vendor") "server";
     Recognition.enr_classification_confidence := "high" |}.

Definition scanner : NmapScanner :=
  {| nmap_path := "/usr/bin/nmap"; config := None |}.

(** A scan whose process runs into the timeout. *)
Definition timed_out : Engine.Environment :=
  {| env_start_time := 1000; env_end_time := 1600;
     env_xml_path := "/tmp/nmap_1.xml";
     env_process := TimeoutExpiredAfter;
     env_xml_file := Ok None;
     env_nmap_version := "Nmap version 7.80" |}.

Definition config : Config :=
  {| cfg_text := λ _, None; cfg_int := λ _, None |}.

(** A worker that finds the tool and whose scan exits with 0, leaving the
    given text in the scratch file. *)
Definition world (xml : option string) : World :=
  {| nmap_found := Some "/usr/bin/nmap";
     scan_scratch :=
       ScratchFile
         {| env_start_time := 1000; env_end_time := 1600;
            env_xml_path := "/tmp/nmap_1.xml";
            env_process := Completed 0 "done" EmptyString;
            env_xml_file := Ok xml;
            env_nmap_version := "Nmap version 7.80" |} |}.

(** A directly triggered scan whose task the sweep reads before the scan
    is entered: the trigger's job executes the task, then the sweep's job
    executes it again. *)
Definition twice : list Step :=
  [Trigger 0 "192.168.1.0/24" "discovery";
   Sweep 1;
   Enter 0 2; Return 0 3 (world None);
   Enter 1 4; Return 1 5 (world None)].

(** A directly triggered scan and a sweep that reads its task, each
    entered once. *)
Definition entered_twice : list Step :=
  [Trigger 0 "192.168.1.0/24" "discovery";
   Sweep 1;
   Enter 0 2;
   Enter 1 3].

(** A store with one pending task. *)
Definition one_task : Store :=
  (@create_scan_task json empty_store 0 (pending_task "192.168.1.0/24" "discovery" None)).1.

(** The system after the first execution, and after the sweep's job has
    entered the task again. *)
Definition executed_once : System :=
  default initial (trace ← @run builtins reader json sqlite config initial (take 4 twice);
                   last trace).

Definition executed_twice_entered : System :=
  default initial (@step builtins reader json sqlite config executed_once (Enter 1 4)).

Definition completed_task : TaskRow :=
  default {| tsk_id := 0; tsk_task_type := None; tsk_target := None;
             tsk_scan_options := None; tsk_status := None; tsk_priority := None;
             tsk_created_at := 0; tsk_scheduled_at := None; tsk_started_at := None;
             tsk_completed_at := None; tsk_updated_at := 0; tsk_error := None |}
          (@get_task (store executed_once) 1).

(** A reader that knows two more documents: one with a host that is up,
    with two addresses of each kind, and a host element without status;
    one with an OS match whose accuracy is not a number. *)
Definition address (addrtype addr : string) (vendor : option string) : ET.Element :=
  ET.Elem "address"
    ([("addr", addr); ("addrtype", addrtype)]
       ++ match vendor with Some v => [("vendor", v)] | None => [] end)
    None [].

Definition addressed_host : ET.Element :=
  ET.Elem "host" [] None
    [ET.Elem "status" [("state", "up"); ("reason", "arp-response")] None [];
     address "ipv4" "10.0.0.4" None;
     address "mac" "AA:BB:CC:00:00:01" (Some "Test Vendor");
     address "ipv4" "10.0.0.5" None;
     address "mac" "AA:BB:CC:00:00:02" None].

Definition two_hosts_xml : string :=
  "<nmaprun><host><status state='up' reason='arp-response'/><address addr='10.0.0.4' addrtype='ipv4'/><address addr='AA:BB:CC:00:00:01' addrtype='mac' vendor='Test Vendor'/><address addr='10.0.0.5' addrtype='ipv4'/><address addr='AA:BB:CC:00:00:02' addrtype='mac'/></host><host/></nmaprun>".

Definition two_hosts_run : ET.Element :=
  ET.Elem "nmaprun" [] None [addressed_host; ET.Elem "host" [] None []].

Definition unreadable_xml : string :=
  "<nmaprun><host><status state='up'/><os><osmatch name='Linux 5.x' accuracy='9x'/></os></host></nmaprun>".

Definition unreadable_match : ET.Element :=
  ET.Elem "osmatch" [("name", "Linux 5.x"); ("accuracy", "9x")] None [].

Definition unreadable_host : ET.Element :=
  ET.Elem "host" [] None
    [ET.Elem "status" [("state", "up")] None [];
     ET.Elem "os" [] None [unreadable_match]].

Definition unreadable_run : ET.Element :=
  ET.Elem "nmaprun" [] None [unreadable_host].

Definition documents : ET.Reader :=
  {| ET.fromstring := λ s,
       if bool_decide (s = two_hosts_xml) then Ok two_hosts_run
       else if bool_decide (s = unreadable_xml) then Ok unreadable_run
       else @ET.fromstring reader s |}.

(** The dict of a port of a device, as the worker passes it to
    [add_port]. *)
Definition port_data (device_id port_number : Z) (state : string) : PortData :=
  {| pd_device_id := Some device_id; pd_port_number := Some port_number;
     pd_protocol := Has "tcp"; pd_state := Some state;
     pd_service_name := None; pd_service_product := None;
     pd_service_version := None; pd_service_extrainfo := None |}.

(** A database with one device that has neither host name nor vendor and
    whose port 3389 is open. *)
Definition remote_desktop : Store :=
  @upsert_port 20 (@port_params (port_data 1 3389 "open"))
    (@upsert_device sqlite 10 (@device_params json (device (Some "192.168.1.100")))
       empty_store).

(** A part of the default configuration. *)
Definition default_config : Configuration.Value :=
  Configuration.VDict
    [("database", Configuration.VDict [("path", Configuration.VStr "instance/pulse.sqlite")]);
     ("scanner", Configuration.VDict
        [("default_network", Configuration.VStr "192.168.1.0/24");
         ("workers", Configuration.VDict
            [("max_workers", Configuration.VInt 4);
             ("timeout", Configuration.VInt 600)])])].

(** The default configuration after [set('scanner.workers.timeout', 30)]. *)
Definition timeout_set : Configuration.Value :=
  Configuration.VDict
    [("database", Configuration.VDict [("path", Configuration.VStr "instance/pulse.sqlite")]);
     ("scanner", Configuration.VDict
        [("default_network", Configuration.VStr "192.168.1.0/24");
         ("workers", Configuration.VDict
            [("max_workers", Configuration.VInt 4);
             ("timeout", Configuration.VInt 30)])])].

Definition errors : Configuration.Errors :=
  {| Configuration.type_error := λ _ _, "object does not support item assignment" |}.

(** A successful result of a worker with the given batch of devices. *)
Definition scanned (batch : list DeviceData) : ScanResult :=
  {| sr_success := true; sr_return_code := Some 0; sr_error := None;
     sr_command := Some "/usr/bin/nmap -sn -T4 192.168.1.0/24";
     sr_target := Some "192.168.1.0/24"; sr_scan_type := Some "discovery";
     sr_start_time := Some "1000"; sr_end_time := Some "1600";
     sr_duration := Some (IntSeconds 600); sr_stdout := Some "done";
     sr_stderr := Some EmptyString; sr_xml_output := Some "<nmaprun/>";
     sr_nmap_version := Some "Nmap version 7.80";
     sr_parsed_data := Some scenario; sr_devices := Some batch;
     sr_task_id := Some 1 |}.

(** A host with a port whose element has an empty [portid]. *)
Definition unnumbered_port : Port := open_port EmptyString "http".

Definition unnumbered_device : DeviceData :=
  {| dd_ip_address := Some "192.168.1.103"; dd_mac_address := None;
     dd_hostname := None; dd_vendor := None; dd_oui := None;
     dd_device_type := None; dd_os_name := None; dd_os_family := None;
     dd_os_version := None; dd_os_accuracy := None; dd_status := Has "up";
     dd_metadata := Has {| md_ports := Some [unnumbered_port];
                           md_open_ports_count := Some 1;
                           md_all_hostnames := None; md_uptime := None;
                           md_distance := None |} |}.

(** A batch whose second device has no address. *)
Definition batch : list DeviceData :=
  [web_device; device None; device (Some "192.168.1.100")].

(** A batch whose second device has a port without a number. *)
Definition unnumbered_batch : list DeviceData := [web_device; unnumbered_device].

(** A scan whose process exits with 0 and leaves the given text in the
    scratch file. *)
Definition exited_ok (xml : option string) : Engine.Environment :=
  {| env_start_time := 1000; env_end_time := 1600;
     env_xml_path := "/tmp/nmap_1.xml";
     env_process := Completed 0 "done" EmptyString;
     env_xml_file := Ok xml;
     env_nmap_version := "Nmap version 7.80" |}.

End Demo.

(** * The device store: upsert *)
Section DeviceStore.
Import Py NmapParser Database.
Context `{!Json, !Sqlite}.

Lemma add_device_effect s now d s' id :
  add_device s now d = Ok (s', id) →
  s' = upsert_device now (device_params d) s ∧ id = last_insert_rowid s'.
Proof.
  unfold add_device, execute. destruct (statement_error _ _); [done|].
  intros [= <- <-]. done.
Qed.

Lemma conflict_iff p r ip :
  p_ip_address p = Some ip → device_conflict p r ↔ dev_ip_address r = Some ip.
Proof.
  unfold device_conflict. intros ->. split; [by intros [_ ?]|].
  intros ?. split; [by eexists|done].
Qed.

Lemma rows_unique (l : list DeviceRow) ip :
  NoDup (omap dev_ip_address l) →
  (length (filter (λ r, dev_ip_address r = Some ip) l) ≤ 1)%nat.
Proof.
  induction l as [|x l IH]; simpl; [lia|].
  intros Hnd. destruct (decide (dev_ip_address x = Some ip)) as [Hx|Hx].
  - rewrite filter_cons_True by done. rewrite Hx in Hnd. simpl in Hnd.
    apply NoDup_cons in Hnd as [Hnotin _].
    assert (filter (λ r, dev_ip_address r = Some ip) l = []) as ->; [|simpl; lia].
    destruct (filter _ l) as [|y ?] eqn:Hf; [done|].
    exfalso. apply Hnotin. apply list_elem_of_omap. exists y.
    assert (y ∈ filter (λ r, dev_ip_address r = Some ip) l) as Hy by (rewrite Hf; left).
    apply list_elem_of_filter in Hy as [? ?]. done.
  - rewrite filter_cons_False by done. apply IH.
    destruct (dev_ip_address x); simpl in Hnd; [by apply NoDup_cons in Hnd as [_ ?]|done].
Qed.


Lemma omap_ip_update now p (l : list DeviceRow) :
  omap dev_ip_address
       ((λ r, if decide (device_conflict p r) then update_device now p r else r) <$> l)
  = omap dev_ip_address l.
Proof.
  induction l as [|x l IH]; [done|]. csimpl.
  rewrite IH. by destruct (decide (device_conflict p x)).
Qed.

Lemma unique_addresses_upsert now p s :
  unique_addresses s → unique_addresses (upsert_device now p s).
Proof.
  unfold unique_addresses, upsert_device. intros Hnd.
  destruct (decide (Exists _ _)) as [Hex|Hex]; simpl.
  - by rewrite omap_ip_update.
  - rewrite omap_app. simpl. destruct (p_ip_address p) as [ip|] eqn:Hip; simpl.
    + apply NoDup_app. split; [done|]. split; [|apply NoDup_singleton].
      intros x Hx Hk. apply list_elem_of_singleton in Hk. subst x. apply Hex.
      apply list_elem_of_omap in Hx as (r & Hr & Hrip).
      apply Exists_exists. exists r. split; [done|]. by apply (conflict_iff _ _ ip).
    + by rewrite app_nil_r.
Qed.

Lemma rows_of_upsert now p s ip :
  p_ip_address p = Some ip → unique_addresses s →
  rows_of ip (upsert_device now p s) =
    [match rows_of ip s with
     | r0 :: _ => update_device now p r0
     | [] => new_device now (next_rowid (dev_id <$> devices s)) p
     end].
Proof.
  intros Hip Hnd. unfold rows_of, upsert_device.
  destruct (decide (Exists _ _)) as [Hex|Hex]; simpl.
  - apply Exists_exists in Hex as (r0 & Hr0 & Hc).
    apply (conflict_iff _ _ ip Hip) in Hc.
    pose proof (rows_unique (devices s) ip Hnd) as Hlen.
    assert (r0 ∈ filter (λ r, dev_ip_address r = Some ip) (devices s)) as Hin
      by (by apply list_elem_of_filter).
    destruct (filter (λ r, dev_ip_address r = Some ip) (devices s)) as [|x [|y l]] eqn:Hf;
      [by apply not_elem_of_nil in Hin| |simpl in Hlen; lia].
    clear Hin Hlen Hr0 Hc r0.
    revert Hf. generalize (devices s). clear Hnd.
    induction l as [|z l IH]; [done|]. intros Hf. rewrite fmap_cons.
    destruct (decide (dev_ip_address z = Some ip)) as [Hz|Hz].
    + rewrite filter_cons_True in Hf by done. injection Hf as -> Hf.
      rewrite decide_True by (by apply (conflict_iff _ _ ip)).
      rewrite filter_cons_True by done. f_equal.
      clear IH. induction l as [|w l IH]; [done|]. rewrite fmap_cons.
      destruct (decide (dev_ip_address w = Some ip)) as [Hw|Hw].
      * by rewrite filter_cons_True in Hf.
      * rewrite filter_cons_False in Hf by done.
        rewrite decide_False by (by rewrite (conflict_iff _ _ ip)).
        rewrite filter_cons_False by done. by apply IH.
    + rewrite filter_cons_False in Hf by done.
      rewrite decide_False by (by rewrite (conflict_iff _ _ ip)).
      rewrite filter_cons_False by done. by apply IH.
  - rewrite filter_app.
    assert (filter (λ r, dev_ip_address r = Some ip) (devices s) = []) as ->.
    { destruct (filter _ (devices s)) as [|y ?] eqn:Hf; [done|]. exfalso. apply Hex.
      assert (y ∈ filter (λ r, dev_ip_address r = Some ip) (devices s)) as Hy
        by (rewrite Hf; left).
      apply list_elem_of_filter in Hy as [? ?].
      apply Exists_exists. exists y. split; [done|]. by apply (conflict_iff _ _ ip). }
    simpl. by rewrite filter_cons_True.
Qed.

Lemma rows_but_upsert now p s ip :
  p_ip_address p = Some ip →
  rows_but ip (upsert_device now p s) = rows_but ip s.
Proof.
  intros Hip. unfold rows_but, upsert_device.
  destruct (decide (Exists _ _)) as [Hex|Hex]; simpl.
  - clear Hex. induction (devices s) as [|x l IH]; [done|]. rewrite fmap_cons.
    destruct (decide (dev_ip_address x = Some ip)) as [Hx|Hx].
    + rewrite decide_True by (by apply (conflict_iff _ _ ip)).
      rewrite !filter_cons_False; [done|by intros ?|by intros ?].
    + rewrite decide_False by (by rewrite (conflict_iff _ _ ip)).
      rewrite !filter_cons_True by done. by f_equal.
  - rewrite filter_app. rewrite (filter_cons_False _ (new_device _ _ _)); [|by intros ?].
    by rewrite filter_nil, app_nil_r.
Qed.

Lemma upsert_other_tables now p s :
  let s' := upsert_device now p s in
  ports s' = ports s ∧ events s' = events s ∧
  scan_results s' = scan_results s ∧ scan_tasks s' = scan_tasks s.
Proof. unfold upsert_device. by destruct (decide _). Qed.


Lemma upsert_all_cons s now d upserts stores :
  upsert_all s ((now, d) :: upserts) = Ok stores →
  ∃ s' id stores', add_device s now d = Ok (s', id) ∧
                   upsert_all s' upserts = Ok stores' ∧ stores = s' :: stores'.
Proof.
  simpl. destruct (add_device s now d) as [[s' id]|] eqn:Ha; [|done]. simpl.
  destruct (upsert_all s' upserts) as [stores'|] eqn:Hu; [|done]. simpl.
  intros [= <-]. by exists s', id, stores'.
Qed.

(** C1 (as amended). After observation A and then observation B are
    upserted for one address, the address has a single row. Each of the
    nine text fields and os_accuracy holds B's value, None included: no
    field is merged with A's. The status is B's status, or up when B has no
    status key; the metadata is the JSON text of B's metadata, or of the
    empty dict when B has no metadata key. last_seen is the clock reading
    of the second upsert. *)
Theorem upsert_last_write_wins s now_a now_b A B s1 id_a s2 id_b ip :
  unique_addresses s →
  dd_ip_address A = Some ip →
  dd_ip_address B = Some ip →
  add_device s now_a A = Ok (s1, id_a) →
  add_device s1 now_b B = Ok (s2, id_b) →
  ∃ r, rows_of ip s2 = [r]
    ∧ dev_mac_address r = dd_mac_address B
    ∧ dev_hostname r = dd_hostname B
    ∧ dev_vendor r = dd_vendor B
    ∧ dev_oui r = dd_oui B
    ∧ dev_device_type r = dd_device_type B
    ∧ dev_os_name r = dd_os_name B
    ∧ dev_os_family r = dd_os_family B
    ∧ dev_os_version r = dd_os_version B
    ∧ dev_os_accuracy r = dd_os_accuracy B
    ∧ dev_status r = get_default (dd_status B) "up"
    ∧ dev_metadata r = Some (json_dumps (get_default (dd_metadata B) empty_metadata))
    ∧ dev_last_seen r = now_b.
Proof.
  intros Hnd HA HB [-> _]%add_device_effect [-> _]%add_device_effect.
  pose proof (unique_addresses_upsert now_a (device_params A) s Hnd) as Hnd1.
  rewrite (rows_of_upsert now_b (device_params B) _ ip HB Hnd1).
  eexists. split; [reflexivity|].
  by destruct (rows_of ip _).
Qed.

(** C10. When the address of an upsert already has a row, that row keeps
    its id, its address, first_seen and is_active; the rows of all other
    addresses, their number and order, and the other tables are
    unchanged. *)
Theorem upsert_update_frame s now d s' id ip r0 :
  unique_addresses s →
  dd_ip_address d = Some ip →
  rows_of ip s = [r0] →
  add_device s now d = Ok (s', id) →
  ∃ r, rows_of ip s' = [r]
    ∧ dev_id r = dev_id r0
    ∧ dev_ip_address r = dev_ip_address r0
    ∧ dev_first_seen r = dev_first_seen r0
    ∧ dev_is_active r = dev_is_active r0
    ∧ observation r = excluded (device_params d)
    ∧ dev_last_seen r = now
    ∧ rows_but ip s' = rows_but ip s
    ∧ length (devices s') = length (devices s)
    ∧ ports s' = ports s ∧ events s' = events s
    ∧ scan_results s' = scan_results s ∧ scan_tasks s' = scan_tasks s.
Proof.
  intros Hnd Hip Hrow [-> _]%add_device_effect.
  rewrite (rows_of_upsert now (device_params d) _ ip Hip Hnd), Hrow.
  eexists. split; [reflexivity|]. simpl.
  rewrite (rows_but_upsert now (device_params d) s ip Hip).
  repeat split; try apply upsert_other_tables.
  unfold upsert_device. rewrite decide_True; [simpl; by rewrite length_fmap|].
  apply Exists_exists. exists r0.
  assert (r0 ∈ rows_of ip s) as [? ?]%list_elem_of_filter by (rewrite Hrow; left).
  split; [done|]. by apply (conflict_iff _ _ ip).
Qed.

(** C9. Upserting one record twice leaves a single row for its address
    whose observation fields, id, address and first_seen are those left by
    the first upsert. In any sequence of upserts of one address, the row's
    last_seen after each upsert is the clock reading of that upsert, so it
    does not decrease when the clock does not. *)
Theorem upsert_idempotent s d now1 now2 s1 id1 s2 id2 ip upserts stores :
  unique_addresses s →
  dd_ip_address d = Some ip →
  add_device s now1 d = Ok (s1, id1) →
  add_device s1 now2 d = Ok (s2, id2) →
  Forall (λ u, dd_ip_address u.2 = Some ip) upserts →
  Sorted Z.le (fst <$> upserts) →
  upsert_all s upserts = Ok stores →
  (∃ r1 r2, rows_of ip s1 = [r1] ∧ rows_of ip s2 = [r2]
     ∧ observation r2 = observation r1
     ∧ dev_id r2 = dev_id r1
     ∧ dev_ip_address r2 = dev_ip_address r1
     ∧ dev_first_seen r2 = dev_first_seen r1
     ∧ dev_last_seen r1 = now1 ∧ dev_last_seen r2 = now2
     ∧ rows_but ip s2 = rows_but ip s1)
  ∧ Forall2 (λ u s', ∃ r, rows_of ip s' = [r] ∧ dev_last_seen r = u.1) upserts stores
  ∧ Sorted Z.le (omap (λ s', dev_last_seen <$> head (rows_of ip s')) stores).
Proof.
  intros Hnd Hip Ha1 Ha2 Hall Hsorted Hrun. split.
  - apply add_device_effect in Ha1 as [-> _]. apply add_device_effect in Ha2 as [-> _].
    pose proof (unique_addresses_upsert now1 (device_params d) s Hnd) as Hnd1.
    rewrite (rows_of_upsert now2 (device_params d) _ ip Hip Hnd1).
    rewrite (rows_but_upsert now2 (device_params d) _ ip Hip).
    rewrite (rows_of_upsert now1 (device_params d) _ ip Hip Hnd).
    eexists _, _. split; [reflexivity|]. split; [reflexivity|].
    by destruct (rows_of ip s).
  - clear Ha1 Ha2 Hip d.
    assert (Forall2 (λ u s', ∃ r, rows_of ip s' = [r] ∧ dev_last_seen r = u.1)
                    upserts stores) as Hrows.
    { clear Hsorted. revert s stores Hnd Hrun.
      induction Hall as [|[now d] upserts Hd _ IH]; intros s stores Hnd Hrun.
      - injection Hrun as <-. constructor.
      - apply upsert_all_cons in Hrun as (s' & id & stores' & Ha & Hrun & ->).
        apply add_device_effect in Ha as [-> _]. constructor.
        + rewrite (rows_of_upsert now (device_params d) _ ip Hd Hnd).
          eexists. split; [reflexivity|]. by destruct (rows_of ip s).
        + apply (IH _ _ (unique_addresses_upsert now _ s Hnd) Hrun). }
    split; [done|].
    assert (omap (λ s', dev_last_seen <$> head (rows_of ip s')) stores = fst <$> upserts)
      as ->; [|done].
    clear Hsorted Hall Hrun Hnd.
    induction Hrows as [|u s' upserts stores (r & Hr & Hls) _ IH]; [done|].
    csimpl. rewrite Hr. simpl. by rewrite Hls, IH.
Qed.

End DeviceStore.

Section Scan.
Import Py Engine.
Context `{!Builtins}.

(** C7 (as amended). When the process runs into the timeout, [scan] returns
    a result with success false, the error text Scan timeout after <timeout>s
    and the timeout itself as duration. *)
Theorem scan_timeout_result self env target scan_type options timeout cmd_str :
  env_process env = TimeoutExpiredAfter →
  command_text self target scan_type options (Some (env_xml_path env)) = Ok cmd_str →
  let result := scan self env target scan_type options timeout in
  sr_success result = false
  ∧ sr_error result = Some ("Scan timeout after " +:+ str_Z timeout +:+ "s")
  ∧ sr_duration result = Some (IntSeconds timeout)
  ∧ sr_command result = Some cmd_str
  ∧ sr_target result = target
  ∧ sr_scan_type result = Some scan_type
  ∧ sr_start_time result = Some (isoformat (env_start_time env)).
Proof.
  intros Hproc Hcmd. unfold scan. rewrite Hcmd, Hproc. done.
Qed.

End Scan.

Section PythonBuiltins.
Import Py.

(** [max] returns the first of the elements with the largest key. *)
Lemma max_from_first_maximal {A} (best : A * Z) (l : list (A * Z)) :
  ∃ pre post,
    best :: l = pre ++ max_from best l :: post
    ∧ Forall (λ y, y.2 < (max_from best l).2) pre
    ∧ Forall (λ y, y.2 ≤ (max_from best l).2) post.
Proof.
  revert best. induction l as [|x l IH]; intros best.
  - exists [], []. by repeat split.
  - simpl. destruct (IH (if best.2 <? x.2 then x else best)) as (pre & post & Heq & Hpre & Hpost).
    destruct (Z.ltb_spec best.2 x.2) as [Hlt|Hge].
    + exists (best :: pre), post. rewrite <- app_comm_cons, <- Heq.
      split; [done|]. split; [|done]. constructor; [|done].
      destruct pre as [|y pre].
      * injection Heq as Hx _. by rewrite <- Hx.
      * injection Heq as <- _. apply Forall_cons in Hpre as [? _]. lia.
    + destruct pre as [|y pre].
      * injection Heq as Hx Hl. exists [], (x :: post).
        split; [simpl; by rewrite <- Hx, Hl|]. split; [constructor|].
        constructor; [rewrite <- Hx; lia|done].
      * injection Heq as <- Hl. exists (best :: x :: pre), post.
        split; [simpl; by do 2 f_equal|]. split; [|done].
        apply Forall_cons in Hpre as [? ?]. repeat constructor; [done|lia|done].
Qed.

Lemma max_by_key_first_maximal {A} (l : list (A * Z)) best :
  max_by_key l = Some best →
  ∃ pre post,
    l = pre ++ best :: post
    ∧ Forall (λ y, y.2 < best.2) pre
    ∧ Forall (λ y, y.2 ≤ best.2) post.
Proof.
  destruct l as [|x l]; [done|]. intros [= <-]. apply max_from_first_maximal.
Qed.

Lemma max_by_key_is_Some {A} (l : list (A * Z)) :
  l ≠ [] → is_Some (max_by_key l).
Proof. destruct l; [done|]. by eexists. Qed.

(** [mapM] in the [result] monad: every element succeeded, in order. *)
Lemma mapM_Ok {A B} (f : A → result B) (l : list A) (k : list B) :
  mapM f l = Ok k ↔ Forall2 (λ x y, f x = Ok y) l k.
Proof.
  revert k. induction l as [|x l IH]; intros k.
  - split; [intros [= <-]; constructor|by intros ->%Forall2_nil_inv_l].
  - split.
    + simpl. destruct (f x) as [y|] eqn:Hx; [|done]. simpl.
      destruct (mapM f l) as [k'|] eqn:Hl; [|done]. intros [= <-].
      constructor; [done|]. by apply IH.
    + intros (y & k' & Hx & Hl & ->)%Forall2_cons_inv_l.
      apply IH in Hl. simpl. rewrite Hx. simpl. by rewrite Hl.
Qed.

Lemma mapM_is_ok {A B} (f : A → result B) (l : list A) :
  Forall (λ x, is_ok (f x) = true) l → ∃ k, mapM f l = Ok k.
Proof.
  induction 1 as [|x l Hx _ [k Hk]]; [by exists []|].
  destruct (f x) as [y|] eqn:Hy; [|done]. exists (y :: k).
  simpl. rewrite Hy. simpl. by rewrite Hk.
Qed.

End PythonBuiltins.

Section Parser.
Import Py NmapParser.
Context `{!Builtins, !ET.Reader}.

Lemma best_match_of_first_maximal (matches : list OsMatch) :
  matches ≠ [] →
  Forall (λ m, is_ok (int_field (om_accuracy m)) = true) matches →
  ∃ best pre post accuracy,
    best_match_of matches = Ok (Some best)
    ∧ matches = pre ++ best :: post
    ∧ int_field (om_accuracy best) = Ok accuracy
    ∧ Forall (λ m, ∃ a, int_field (om_accuracy m) = Ok a ∧ a < accuracy) pre
    ∧ Forall (λ m, ∃ a, int_field (om_accuracy m) = Ok a ∧ a ≤ accuracy) post.
Proof.
  intros Hne Hall. destruct (mapM_is_ok _ _ Hall) as [keys Hkeys].
  unfold best_match_of. rewrite Hkeys. simpl.
  apply mapM_Ok in Hkeys.
  assert (zip matches keys ≠ []) as Hz.
  { destruct Hkeys; [done|]. done. }
  destruct (max_by_key_is_Some _ Hz) as [[best accuracy] Hmax].
  rewrite Hmax. simpl.
  apply max_by_key_first_maximal in Hmax as (pre & post & Heq & Hpre & Hpost).
  assert (Forall (λ y, int_field (om_accuracy y.1) = Ok y.2) (zip matches keys)) as Hread.
  { clear -Hkeys. induction Hkeys; simpl; constructor; done. }
  assert (matches = (fst <$> zip matches keys)) as Hfst.
  { clear -Hkeys. induction Hkeys; simpl; [done|]. by f_equal. }
  rewrite Heq in Hread. apply Forall_app in Hread as [Hrpre Hrpost].
  apply Forall_cons in Hrpost as [Hbest Hrpost]. simpl in *.
  exists best, (fst <$> pre), (fst <$> post), accuracy.
  split; [done|]. split.
  { rewrite Hfst at 1. rewrite Heq. by rewrite fmap_app, fmap_cons. }
  split; [done|]. split.
  - apply Forall_fmap. eapply Forall_impl; [apply Forall_and; split; [exact Hrpre|exact Hpre]|].
    intros [m a] [? ?]. by exists a.
  - apply Forall_fmap. eapply Forall_impl; [apply Forall_and; split; [exact Hrpost|exact Hpost]|].
    intros [m a] [? ?]. by exists a.
Qed.

Lemma parse_osmatch_readable (match_elems : list ET.Element) :
  Forall (λ e, is_Some (int (ET.get_default e "accuracy" EmptyString))) match_elems →
  Forall (λ m, is_ok (int_field (om_accuracy m)) = true) (parse_osmatch <$> match_elems).
Proof.
  intros Hall. apply Forall_fmap. eapply Forall_impl; [exact Hall|].
  intros e [a Ha]. simpl. by rewrite Ha.
Qed.

(** C6 (as amended). For a host whose os element has candidates, each with
    an accuracy that reads as an integer, [_parse_os] returns one candidate
    for each osmatch element, in document order, with the name, accuracy
    and line of its element, and a best match that is the candidate of one
    of the elements: its accuracy, read as an integer, is not exceeded by
    that of any element and is strictly larger than that of every earlier
    element. *)
Theorem parse_os_best_match host_elem os_elem :
  ET.find host_elem "os" = Some os_elem →
  ET.findall os_elem "osmatch" ≠ [] →
  Forall (λ e, is_Some (int (ET.get_default e "accuracy" EmptyString)))
         (ET.findall os_elem "osmatch") →
  let candidate_of (e : ET.Element) (m : OsMatch) :=
    om_name m = Some (ET.get_default e "name" EmptyString)
    ∧ om_accuracy m = Has (ET.get_default e "accuracy" EmptyString)
    ∧ om_line m = Some (ET.get_default e "line" EmptyString) in
  ∃ os_info best pre best_elem post accuracy,
    _parse_os host_elem = Ok (Some os_info)
    ∧ Forall2 candidate_of (ET.findall os_elem "osmatch") (os_matches os_info)
    ∧ os_best_match os_info = Some best
    ∧ ET.findall os_elem "osmatch" = pre ++ best_elem :: post
    ∧ os_matches os_info !! length pre = Some best
    ∧ candidate_of best_elem best
    ∧ int (ET.get_default best_elem "accuracy" EmptyString) = Some accuracy
    ∧ Forall (λ e, ∃ a, int (ET.get_default e "accuracy" EmptyString) = Some a
                        ∧ a < accuracy) pre
    ∧ Forall (λ e, ∃ a, int (ET.get_default e "accuracy" EmptyString) = Some a
                        ∧ a ≤ accuracy) post.
Proof.
  intros Hos Hne Hall candidate_of.
  assert (parse_osmatch <$> ET.findall os_elem "osmatch" ≠ []) as Hne'.
  { by destruct (ET.findall os_elem "osmatch"). }
  destruct (best_match_of_first_maximal _ Hne' (parse_osmatch_readable _ Hall))
    as (best & mpre & mpost & accuracy & Hbest & Hsplit & Hacc & Hpre & Hpost).
  apply fmap_app_inv in Hsplit as (pre & rest & -> & Hrest & Helems).
  symmetry in Hrest. apply fmap_cons_inv in Hrest as (best_elem & post & -> & -> & ->).
  assert (∀ e, int_field (om_accuracy (parse_osmatch e))
               = match int (ET.get_default e "accuracy" EmptyString) with
                 | Some n => Ok n
                 | None => Raise (mkExn ValueError
                                    (int_error (ET.get_default e "accuracy" EmptyString)))
                 end) as Hfield by done.
  exists {| os_matches := parse_osmatch <$> ET.findall os_elem "osmatch";
            os_classes := [];
            os_best_match := Some (parse_osmatch best_elem) |},
    (parse_osmatch best_elem), pre, best_elem, post, accuracy.
  split.
  { unfold _parse_os. rewrite Hos.
    destruct (parse_osmatch <$> ET.findall os_elem "osmatch") eqn:Hm; [done|].
    by rewrite Hbest. }
  cbn [os_matches os_best_match]. split.
  { apply Forall2_fmap_r, Forall_Forall2_diag, Forall_forall. by intros e _. }
  split; [done|]. split; [done|]. split.
  { rewrite Helems, list_lookup_fmap, lookup_app_r by lia.
    by rewrite Nat.sub_diag. }
  split; [done|]. split.
  { rewrite Hfield in Hacc. by destruct (int _); [injection Hacc as ->|]. }
  split.
  - rewrite Forall_fmap in Hpre. eapply Forall_impl; [exact Hpre|].
    intros e (a & Ha & Hlt). rewrite Hfield in Ha. exists a.
    by destruct (int _); [injection Ha as ->|].
  - rewrite Forall_fmap in Hpost. eapply Forall_impl; [exact Hpost|].
    intros e (a & Ha & Hle). rewrite Hfield in Ha. exists a.
    by destruct (int _); [injection Ha as ->|].
Qed.

Lemma oui_of_mac_prefix a1 a2 b1 b2 c1 c2 rest :
  Forall (λ c, c ≠ ":"%char) [a1; a2; b1; b2; c1; c2] →
  upper (remove_char ":" (slice_to 8 (mac_prefix a1 a2 b1 b2 c1 c2 rest)))
  = upper (String a1 (String a2 (String b1 (String b2 (String c1 (String c2 EmptyString)))))).
Proof.
  intros Hall. repeat (apply Forall_cons in Hall as [? Hall]).
  unfold mac_prefix. cbn [slice_to remove_char].
  repeat (case_bool_decide; try done).
Qed.

Lemma device_of_host_extracted host d :
  host_status host = Some "up" →
  device_of_host host = Ok d → extracted host d.
Proof.
  intros Hup. unfold device_of_host.
  destruct (match host_os host ≫= os_best_match with
            | Some m => Some <$> int_field (om_accuracy m)
            | None => Ok None
            end) as [acc|]; [|done].
  simpl. intros [= <-]. unfold extracted. cbn [dd_ip_address dd_mac_address dd_hostname
    dd_vendor dd_status dd_oui dd_metadata]. rewrite Hup.
  do 6 (split; [done|]). split.
  - intros a1 a2 b1 b2 c1 c2 rest -> Hall.
    change (truthy (Some (mac_prefix a1 a2 b1 b2 c1 c2 rest))) with true.
    cbn iota. f_equal. by apply (oui_of_mac_prefix a1 a2 b1 b2 c1 c2 rest).
  - eexists. split; [reflexivity|]. simpl.
    destruct (host_ports host) as [[|port ports]|]; simpl; [done| |done].
    split; [done|]. do 2 f_equal. apply (f_equal length). apply list_filter_iff. intros p.
    unfold is_open. by rewrite bool_decide_spec.
Qed.

(** C5 (as amended). When the accuracy of every best match reads as an
    integer, [extract_devices] returns one device per host whose status is
    up, in order, and none for the other hosts. The device carries the
    address, MAC, host name and vendor of its host, also when there is no
    MAC; with a MAC, its oui is the first eight characters of the MAC
    without colons and upper-cased, which for a MAC written xx:xx:xx:... are
    its first three octets. When the host has ports, the metadata carries
    all of them and the number of those whose state is open; when it has
    none, the metadata has neither key. *)
Theorem extract_devices_postcondition parsed_data :
  Forall accuracy_readable
         (filter (λ host, host_status host = Some "up") (hosts_of parsed_data)) →
  ∃ devices,
    extract_devices parsed_data = Ok devices
    ∧ Forall2 extracted
              (filter (λ host, host_status host = Some "up") (hosts_of parsed_data))
              devices.
Proof.
  unfold extract_devices.
  assert (Forall (λ host, host_status host = Some "up")
                 (filter (λ host, host_status host = Some "up") (hosts_of parsed_data)))
    as Hup by (apply Forall_forall; intros host [? _]%list_elem_of_filter; done).
  revert Hup.
  generalize (filter (λ host, host_status host = Some "up") (hosts_of parsed_data)).
  intros ups Hup Hacc.
  destruct (mapM_is_ok device_of_host ups) as [devices Hdevices].
  { eapply Forall_impl; [exact Hacc|]. intros host Hhost.
    unfold device_of_host, accuracy_readable in *.
    destruct (host_os host ≫= os_best_match) as [m|]; [|done].
    by destruct (int_field (om_accuracy m)). }
  exists devices. split; [done|].
  apply mapM_Ok in Hdevices. clear Hacc.
  induction Hdevices as [|host d ups devices Hd _ IH]; [constructor|].
  apply Forall_cons in Hup as [? ?].
  constructor; [by apply device_of_host_extracted|by apply IH].
Qed.

End Parser.

Section Classifier.
Import Py NmapParser DeviceRecognition.
Context `{!Builtins}.

Lemma size_intersection_list `{Countable A} (X : gset A) (l : list A) :
  size (X ∩ list_to_set l) = length (filter (λ x, x ∈ X) (remove_dups l)).
Proof.
  rewrite <- (size_list_to_set (C:=gset A)) by apply NoDup_filter, NoDup_remove_dups.
  f_equal. apply set_eq. intros x.
  rewrite elem_of_intersection, !elem_of_list_to_set, list_elem_of_filter,
    elem_of_remove_dups. done.
Qed.

Lemma matching_score `{Countable A} (X : gset A) (l : list A) (score weight : Z) :
  (if bool_decide (X ∩ list_to_set l ≠ ∅)
   then score + Z.of_nat (size (X ∩ list_to_set l)) * weight else score)
  = score + weight * Z.of_nat (length (filter (λ x, x ∈ X) (remove_dups l))).
Proof.
  rewrite <- size_intersection_list. case_bool_decide as Hne; [lia|].
  rewrite Hne, size_empty. lia.
Qed.

Lemma keyword_score (text : string) (keywords : list string) (score : Z) :
  foldl (λ score keyword, if contains (lower keyword) text then score + 20 else score)
        score keywords
  = score + 20 * Z.of_nat (length (filter (λ k, contains (lower k) text = true) keywords)).
Proof.
  revert score. induction keywords as [|k ks IH]; intros score; simpl; [lia|].
  rewrite IH. destruct (contains (lower k) text) eqn:Hk.
  - rewrite filter_cons_True by done. simpl length. lia.
  - rewrite filter_cons_False by (by rewrite Hk). lia.
Qed.

Lemma rule_score_spec open_ports services text rules :
  rule_score open_ports services text rules = spec_score open_ports services text rules.
Proof.
  unfold rule_score, spec_score.
  destruct (rule_ports rules) as [ports|], (rule_keywords rules) as [keywords|],
    (rule_services rules) as [svcs|]; simpl;
    rewrite ?matching_score, ?keyword_score, ?matching_score; simpl; lia.
Qed.

Lemma foldl_raise {S A} (step : S → A → result S) (l : list A) e :
  foldl (λ acc x, s ← acc; step s x) (Raise e) l = Raise e.
Proof. induction l as [|x l IH]; [done|]. simpl. apply IH. Qed.

Lemma collect_open_ports_from ports acc open_ports :
  foldl (λ acc port, open_ports ← acc; add_open_port open_ports port) (Ok acc) ports
    = Ok open_ports →
  ∀ n, n ∈ open_ports ↔ n ∈ acc ∨ open_on ports n.
Proof.
  revert acc. induction ports as [|port ports IH]; intros acc.
  - intros [= <-] n. unfold open_on. rewrite Exists_nil. naive_solver.
  - simpl. unfold open_on. setoid_rewrite Exists_cons.
    unfold add_open_port at 2.
    destruct (is_open port) eqn:Hopen; [|intros Hf n; rewrite (IH _ Hf n); naive_solver].
    destruct (truthy (get (port_port port))) eqn:Htruthy;
      [|intros Hf n; rewrite (IH _ Hf n); naive_solver].
    destruct (int (or_empty (get (port_port port)))) as [m|] eqn:Hint;
      [|by rewrite foldl_raise].
    intros Hf n. rewrite (IH _ Hf n), elem_of_union, elem_of_singleton.
    unfold open_on. naive_solver.
Qed.

Lemma collect_open_ports_spec ports open_ports :
  collect_open_ports ports = Ok open_ports →
  ∀ n, n ∈ open_ports ↔ open_on ports n.
Proof.
  intros Hf n. rewrite (collect_open_ports_from _ _ _ Hf n). set_solver.
Qed.

Lemma collect_services_from ports acc services :
  foldl (λ acc port, services ← acc; add_service services port) (Ok acc) ports
    = Ok services →
  ∀ s, s ∈ services ↔ s ∈ acc ∨ service_on ports s.
Proof.
  revert acc. induction ports as [|port ports IH]; intros acc.
  - intros [= <-] n. unfold service_on. rewrite Exists_nil. naive_solver.
  - simpl. unfold service_on. setoid_rewrite Exists_cons.
    unfold add_service at 2.
    destruct (is_open port) eqn:Hopen; [|intros Hf n; rewrite (IH _ Hf n); naive_solver].
    destruct (port_service port) as [| |service] eqn:Hsvc; simpl.
    + intros Hf n. rewrite (IH _ Hf n). naive_solver.
    + by rewrite foldl_raise.
    + destruct (truthy (svc_name service)) eqn:Htruthy; intros Hf n; rewrite (IH _ Hf n).
      * rewrite elem_of_union, elem_of_singleton. unfold service_on.
        simpl. naive_solver.
      * simpl. split; [naive_solver|].
        intros [?|[(_ & sv & [= <-] & Ht & _)|?]]; [by left|congruence|by right].
Qed.

Lemma collect_services_spec ports services :
  collect_services ports = Ok services →
  ∀ s, s ∈ services ↔ service_on ports s.
Proof.
  intros Hf n. rewrite (collect_services_from _ _ _ Hf n). set_solver.
Qed.

(** Without a repeated device type, [scores] lists the rules that score
    above zero, in rule order. *)
Lemma dict_set_fresh {V} (k : string) (v : V) (d : list (string * V)) :
  k ∉ d.*1 → dict_set k v d = d ++ [(k, v)].
Proof.
  induction d as [|[k' v'] d IH]; [done|]. csimpl. intros Hk.
  apply not_elem_of_cons in Hk as [Hne Hk].
  rewrite bool_decide_eq_false_2 by done. by rewrite IH.
Qed.

Lemma score_rules_from open_ports services text (rules : Rules) (scores : list (string * Z)) :
  NoDup (scores.*1 ++ rules.*1) →
  foldl (λ scores '(device_type, rules),
           let score := rule_score open_ports services text rules in
           if bool_decide (0 < score) then dict_set device_type score scores
           else scores)
        scores rules
  = scores ++ filter (λ x, 0 < x.2) (scored open_ports services text <$> rules).
Proof.
  revert scores. induction rules as [|[t r] rules IH]; intros scores Hnd.
  - simpl. by rewrite app_nil_r.
  - csimpl in *. case_bool_decide as Hpos.
    + rewrite dict_set_fresh.
      2:{ apply NoDup_app in Hnd as (_ & Hnd & _). intros Hin.
          apply (Hnd _ Hin). left. }
      rewrite IH.
      * rewrite filter_cons_True by done. by rewrite <- app_assoc.
      * rewrite fmap_app. csimpl. rewrite <- app_assoc. done.
    + rewrite IH.
      * by rewrite filter_cons_False.
      * apply NoDup_app in Hnd as (Hs & Hnd & Hr). apply NoDup_cons in Hr as [_ Hr].
        apply NoDup_app. split; [done|]. split; [|done].
        intros x Hx Hx'. apply (Hnd x Hx). by right.
Qed.

Lemma score_rules_filter open_ports services text (rules : Rules) :
  NoDup rules.*1 →
  score_rules rules open_ports services text
  = filter (λ x, 0 < x.2) (scored open_ports services text <$> rules).
Proof. intros Hnd. unfold score_rules. by rewrite score_rules_from. Qed.

(** A place in a filtered list is a place in the list. *)
Lemma filter_split {A} (P : A → Prop) `{∀ x, Decision (P x)} (l : list A) pre x post :
  filter P l = pre ++ x :: post →
  ∃ pre' post', l = pre' ++ x :: post' ∧ filter P pre' = pre ∧ filter P post' = post.
Proof.
  revert pre. induction l as [|y l IH]; intros pre Hf.
  - by destruct pre.
  - destruct (decide (P y)) as [Hy|Hy].
    + rewrite filter_cons_True in Hf by done. destruct pre as [|z pre].
      * injection Hf as -> Hf. exists [], l. by rewrite filter_nil.
      * injection Hf as -> Hf. destruct (IH _ Hf) as (pre' & post' & -> & <- & <-).
        exists (z :: pre'), post'. by rewrite filter_cons_True.
    + rewrite filter_cons_False in Hf by done.
      destruct (IH _ Hf) as (pre' & post' & -> & <- & <-).
      exists (y :: pre'), post'. by rewrite filter_cons_False.
Qed.

Lemma Forall_filter_bound (bound : Z) (strict : bool) (l : list (string * Z)) :
  0 < bound →
  Forall (λ y, if strict then y.2 < bound else y.2 ≤ bound) (filter (λ x, 0 < x.2) l) →
  Forall (λ y, if strict then y.2 < bound else y.2 ≤ bound) l.
Proof.
  intros Hb. induction l as [|y l IH]; [done|].
  destruct (decide (0 < y.2)) as [Hy|Hy].
  - rewrite filter_cons_True by done. intros [? ?]%Forall_cons. constructor; auto.
  - rewrite filter_cons_False by done. intros ?. constructor; [|auto].
    destruct strict; lia.
Qed.

(** A device that can be read is read. *)
Lemma readable_metadata_ports device_data :
  dd_metadata device_data ≠ PyNone →
  metadata_ports device_data = Ok (device_ports device_data).
Proof.
  unfold metadata_ports, device_ports. by destruct (dd_metadata device_data).
Qed.

Lemma readable_open_ports ports acc :
  Forall (λ port, is_open port = true →
            (truthy (get (port_port port)) = true →
               is_Some (int (or_empty (get (port_port port)))))
            ∧ port_service port ≠ PyNone) ports →
  ∃ open_ports,
    foldl (λ acc port, open_ports ← acc; add_open_port open_ports port) (Ok acc) ports
    = Ok open_ports.
Proof.
  intros Hall. revert acc. induction Hall as [|port ports Hport _ IH]; intros acc.
  - by eexists.
  - simpl. unfold add_open_port at 2.
    destruct (is_open port); [|apply IH].
    destruct (truthy (get (port_port port))); [|apply IH].
    destruct Hport as [[n ->] _]; [done..|]. apply IH.
Qed.

Lemma readable_services ports acc :
  Forall (λ port, is_open port = true →
            (truthy (get (port_port port)) = true →
               is_Some (int (or_empty (get (port_port port)))))
            ∧ port_service port ≠ PyNone) ports →
  ∃ services,
    foldl (λ acc port, services ← acc; add_service services port) (Ok acc) ports
    = Ok services.
Proof.
  intros Hall. revert acc. induction Hall as [|port ports Hport _ IH]; intros acc.
  - by eexists.
  - simpl. unfold add_service at 2.
    destruct (is_open port); [|apply IH].
    destruct Hport as [_ Hservice]; [done|].
    destruct (port_service port) as [| |service]; [apply IH|done|]. simpl.
    destruct (truthy (svc_name service)); apply IH.
Qed.

(** The score that the code gives is the score in words. *)
Lemma rule_score_in_words device_data open_ports services rule :
  (∀ n, n ∈ open_ports ↔ open_on (device_ports device_data) n) →
  (∀ name, name ∈ services ↔ service_on (device_ports device_data) name) →
  rule_score open_ports services (keyword_text device_data) rule
  = score_in_words device_data rule.
Proof.
  intros Hopen Hservices. rewrite rule_score_spec. unfold spec_score, score_in_words.
  change (keyword_text device_data) with (text_in_words device_data).
  f_equal; [f_equal|]; do 3 f_equal; apply list_filter_iff; done.
Qed.

(** C4 (as amended). For a device that the classifier can read and rules
    whose device types are distinct, the score that [classify_device]
    gives a rule is 10 for each distinct port of the rule that is open on
    the device, plus 20 for each keyword of the rule whose lower-cased
    form occurs in the lower-cased concatenation of host name, vendor, OS
    name and OS family, plus 15 for each distinct lower-cased service name
    of the rule that is the lower-cased service name of an open port.
    When some rule scores above zero, the device type returned is that of
    a rule whose score no rule exceeds and no earlier rule reaches. *)
Theorem classify_device_scores (rules : Rules) device_data :
  NoDup rules.*1 →
  readable device_data →
  (∃ open_ports services,
     collect_open_ports (device_ports device_data) = Ok open_ports
     ∧ collect_services (device_ports device_data) = Ok services
     ∧ ∀ rule,
         rule_score open_ports services (keyword_text device_data) rule
         = score_in_words device_data rule)
  ∧ (Exists (λ rule, 0 < score_in_words device_data rule.2) rules →
     ∃ best_type best_rule pre post,
       classify_device rules device_data = Ok best_type
       ∧ rules = pre ++ (best_type, best_rule) :: post
       ∧ 0 < score_in_words device_data best_rule
       ∧ Forall (λ rule, score_in_words device_data rule.2
                         < score_in_words device_data best_rule) pre
       ∧ Forall (λ rule, score_in_words device_data rule.2
                         ≤ score_in_words device_data best_rule) post).
Proof.
  intros Hnd [Hmetadata Hports].
  destruct (readable_open_ports _ ∅ Hports) as [open_ports Hopen].
  destruct (readable_services _ ∅ Hports) as [services Hsvcs].
  fold (collect_open_ports (device_ports device_data)) in Hopen.
  fold (collect_services (device_ports device_data)) in Hsvcs.
  assert (∀ rule, rule_score open_ports services (keyword_text device_data) rule
                  = score_in_words device_data rule) as Hscore.
  { intros rule. apply rule_score_in_words;
      [by apply collect_open_ports_spec|by apply collect_services_spec]. }
  split; [by exists open_ports, services|].
  intros Hsome. set (text := keyword_text device_data) in *.
  unfold classify_device. rewrite (readable_metadata_ports _ Hmetadata). simpl.
  rewrite Hopen. simpl. rewrite Hsvcs. simpl. fold text.
  rewrite (score_rules_filter _ _ _ _ Hnd).
  destruct (max_by_key (filter (λ x, 0 < x.2) (scored open_ports services text <$> rules)))
    as [[best_type best_score]|] eqn:Hmax.
  - apply max_by_key_first_maximal in Hmax as (fpre & fpost & Hsplit & Hfpre & Hfpost).
    simpl in Hfpre, Hfpost.
    assert (0 < best_score) as Hpos.
    { assert ((best_type, best_score)
                ∈ filter (λ x, 0 < x.2) (scored open_ports services text <$> rules)) as Hin
        by (rewrite Hsplit; apply elem_of_app; right; left).
      by apply list_elem_of_filter in Hin as [? _]. }
    apply filter_split in Hsplit as (spre & spost & Hsplit & <- & <-).
    apply (Forall_filter_bound best_score true _ Hpos) in Hfpre.
    apply (Forall_filter_bound best_score false _ Hpos) in Hfpost.
    apply fmap_app_inv in Hsplit as (pre & rest & -> & Hrest & ->).
    symmetry in Hrest. apply fmap_cons_inv in Hrest as ([t best_rule] & post & Hbest & -> & ->).
    unfold scored in Hbest. simpl in Hbest. injection Hbest as -> ->.
    exists t, best_rule, pre, post. split; [done|]. split; [done|].
    rewrite <- !Hscore. split; [done|].
    rewrite Forall_fmap in Hfpre. rewrite Forall_fmap in Hfpost.
    split.
    + eapply Forall_impl; [exact Hfpre|]. intros [t' r] Hr. rewrite <- Hscore. exact Hr.
    + eapply Forall_impl; [exact Hfpost|]. intros [t' r] Hr. rewrite <- Hscore. exact Hr.
  - exfalso. apply Exists_exists in Hsome as (rule & Hin & Hpos).
    rewrite <- Hscore in Hpos.
    assert (scored open_ports services text rule
              ∈ filter (λ x, 0 < x.2) (scored open_ports services text <$> rules)) as Hin'.
    { apply list_elem_of_filter. split; [done|]. by apply list_elem_of_fmap_2. }
    destruct (filter _ _); [by apply not_elem_of_nil in Hin'|done].
Qed.

End Classifier.

Section Tasks.
Import Py NmapParser Engine Database Worker.
Context `{!Builtins, !ET.Reader, !Json, !Sqlite}.

(** The reconciliation statements leave the task table alone. *)
Lemma execute_effect s stmt effect s' id :
  execute s stmt effect = Ok (s', id) → s' = effect.
Proof. unfold execute. destruct (statement_error s stmt); [done|]. by intros [= <- _]. Qed.

Lemma upsert_device_tasks now p s : scan_tasks (upsert_device now p s) = scan_tasks s.
Proof. unfold upsert_device. by destruct (decide _). Qed.

Lemma upsert_port_tasks now p s : scan_tasks (upsert_port now p s) = scan_tasks s.
Proof. unfold upsert_port. by destruct (decide _). Qed.

Lemma process_port_tasks now device_id s port :
  scan_tasks (process_port now device_id s port) = scan_tasks s.
Proof.
  unfold process_port. destruct (port_data_of device_id port) as [pd|]; simpl; [|done].
  destruct (add_port s now pd) as [[s' id]|] eqn:Ha; [|done].
  apply execute_effect in Ha as ->. apply upsert_port_tasks.
Qed.

Lemma process_ports_tasks now device_id ports s :
  scan_tasks (foldl (process_port now device_id) s ports) = scan_tasks s.
Proof.
  revert s. induction ports as [|port ports IH]; intros s; [done|].
  simpl. by rewrite IH, process_port_tasks.
Qed.

Lemma process_device_tasks now s device_data :
  scan_tasks (process_device now s device_data).1 = scan_tasks s.
Proof.
  unfold process_device.
  destruct (add_device s now device_data) as [[s1 id]|] eqn:Ha; [|done].
  apply execute_effect in Ha as ->.
  destruct (get_default (dd_metadata device_data) empty_metadata) as [metadata|]; simpl;
    [|apply upsert_device_tasks].
  destruct (create_event _ now _) as [[s3 id3]|] eqn:He; simpl.
  - apply execute_effect in He as ->. simpl.
    by rewrite process_ports_tasks, upsert_device_tasks.
  - by rewrite process_ports_tasks, upsert_device_tasks.
Qed.

Lemma process_devices_tasks now devices s :
  scan_tasks (process_devices now s devices) = scan_tasks s.
Proof.
  revert s. induction devices as [|d devices IH]; intros s; [done|].
  unfold process_devices in *. simpl. by rewrite IH, process_device_tasks.
Qed.

Lemma process_scan_result_tasks s now result :
  scan_tasks (_process_scan_result s now result) = scan_tasks s.
Proof.
  unfold _process_scan_result. destruct (sr_success result); simpl; [|done].
  destruct (save_scan_result s now _) as [[s1 id]|] eqn:Hs; [|done].
  apply execute_effect in Hs as ->. by rewrite process_devices_tasks.
Qed.

(** Reading a task after [update_task_status]. *)
Lemma find_task_update now task_id status error id (tasks : list TaskRow) :
  snd <$> list_find (λ t, tsk_id t = id)
            ((λ t, if decide (tsk_id t = task_id)
                   then set_task_status now status error t else t) <$> tasks)
  = (λ t, if decide (tsk_id t = task_id) then set_task_status now status error t else t)
      <$> (snd <$> list_find (λ t, tsk_id t = id) tasks).
Proof.
  induction tasks as [|t tasks IH]; [done|]. csimpl.
  assert (tsk_id (if decide (tsk_id t = task_id)
                  then set_task_status now status error t else t) = tsk_id t) as Hid
    by (by destruct (decide _)).
  rewrite Hid. destruct (decide (tsk_id t = id)); [done|].
  rewrite <- !option_fmap_compose. rewrite <- !option_fmap_compose in IH.
  simpl in *. exact IH.
Qed.

Lemma get_task_update s now task_id status error id :
  get_task (update_task_status s now task_id status error) id
  = (λ t, if decide (tsk_id t = task_id) then set_task_status now status error t else t)
      <$> get_task s id.
Proof. unfold get_task, update_task_status. simpl. apply find_task_update. Qed.

End Tasks.

Section System.
Import Py NmapParser Engine Database Worker Scheduler.
Context `{!Builtins, !ET.Reader, !Json, !Sqlite}.
Context (config : Config).

Lemma get_task_spec s id t :
  get_task s id = Some t → tsk_id t = id ∧ t ∈ scan_tasks s.
Proof.
  unfold get_task. intros ([i t'] & Hfind & ->)%fmap_Some.
  apply list_find_Some in Hfind as (Hi & Hid & _).
  split; [done|]. by eapply list_elem_of_lookup_2.
Qed.

Lemma get_task_elem_of s t :
  t ∈ scan_tasks s → is_Some (get_task s (tsk_id t)).
Proof.
  intros Hin. unfold get_task.
  destruct (list_find_elem_of (λ x, tsk_id x = tsk_id t) _ t Hin eq_refl) as [[i x] ->].
  by eexists.
Qed.

Lemma get_task_same s s' id :
  scan_tasks s' = scan_tasks s → get_task s' id = get_task s id.
Proof. unfold get_task. by intros ->. Qed.

(** A statement is accepted or refused. *)
Lemma call_cases {A} s stmt (outcome : A) :
  call s stmt outcome = Ok outcome ∨ ∃ e, call s stmt outcome = Raise e.
Proof. unfold call. destruct (statement_error s stmt); [right|left]; by eexists. Qed.

Lemma status_change_refl st : status_change st st.
Proof. by left. Qed.

Lemma status_change_running st : status_change st (Some "running").
Proof. right. by left. Qed.

Lemma status_change_failed st : status_change st (Some "failed").
Proof. right. right. by left. Qed.

(** One [update_task_status]. *)
Lemma update_status s now task_id status error id t :
  get_task s id = Some t →
  ∃ t', get_task (update_task_status s now task_id status error) id = Some t'
        ∧ tsk_status t' = (if decide (id = task_id) then Some status else tsk_status t).
Proof.
  intros Ht. rewrite get_task_update, Ht. simpl. eexists. split; [done|].
  apply get_task_spec in Ht as [-> _]. by destruct (decide _).
Qed.

Lemma update_status_None s now task_id status error id :
  get_task s id = None →
  get_task (update_task_status s now task_id status error) id = None.
Proof. intros Ht. by rewrite get_task_update, Ht. Qed.

(** [create_scan_task] *)
Lemma next_rowid_fresh (ids : list Z) : next_rowid ids ∉ ids.
Proof.
  assert (∀ x, x ∈ ids → x ≤ foldr Z.max 0 ids) as Hmax.
  { induction ids as [|y ids IH]; intros x Hx; [by apply elem_of_nil in Hx|].
    simpl. apply elem_of_cons in Hx as [->|Hx]; [lia|]. specialize (IH x Hx). lia. }
  intros Hin. apply Hmax in Hin. unfold next_rowid in Hin. lia.
Qed.

Lemma create_task_old s now task_data id t :
  get_task s id = Some t →
  get_task (create_scan_task s now task_data).1 id = Some t.
Proof.
  unfold get_task. simpl. intros ([i t'] & Hfind & ->)%fmap_Some.
  by rewrite (list_find_app_l _ _ _ _ _ Hfind).
Qed.

Lemma create_task_new s now task_data id t :
  get_task s id = None →
  get_task (create_scan_task s now task_data).1 id = Some t →
  tsk_status t = get_default (td_status task_data) "pending".
Proof.
  unfold get_task. simpl. intros Hnone%fmap_None.
  rewrite (list_find_app_r _ _ _ Hnone). csimpl.
  destruct (decide _); [|done]. simpl. by intros [= <-].
Qed.

(** The loop of [execute_pending_tasks]. *)
Lemma mark_running_None now (l : list TaskRow) s id :
  get_task s id = None →
  get_task (foldl (λ s task, update_task_status s now (tsk_id task) "running" None) s l) id
  = None.
Proof.
  revert s. induction l as [|x l IH]; intros s Hs; [done|].
  simpl. apply IH. by apply update_status_None.
Qed.

Lemma mark_running_Some now (l : list TaskRow) s id t :
  get_task s id = Some t →
  ∃ t', get_task (foldl (λ s task, update_task_status s now (tsk_id task) "running" None)
                        s l) id = Some t'
        ∧ (tsk_status t' = tsk_status t ∨ tsk_status t' = Some "running")
        ∧ (id ∈ tsk_id <$> l → tsk_status t' = Some "running").
Proof.
  revert s t. induction l as [|x l IH]; intros s t Hs.
  - exists t. split; [done|]. split; [by left|]. by intros ?%elem_of_nil.
  - csimpl.
    destruct (update_status s now (tsk_id x) "running" None id t Hs) as (t1 & Ht1 & Hst1).
    destruct (IH _ _ Ht1) as (t' & Ht' & Hst' & Hin').
    exists t'. split; [done|]. destruct (decide (id = tsk_id x)) as [->|Hne].
    + assert (tsk_status t' = Some "running") as Hr by (destruct Hst'; congruence).
      split; [by right|done].
    + rewrite Hst1 in Hst'. split; [done|].
      intros [?|?]%elem_of_cons; [done|auto].
Qed.

Lemma submit_pending_prefix s now (l : list TaskRow) :
  ∃ n, submit_pending s now l
       = (foldl (λ s task, update_task_status s now (tsk_id task) "running" None)
                s (take n l), take n l).
Proof.
  revert s. induction l as [|t l IH]; intros s; [by exists 0%nat|]. simpl.
  destruct (call_cases s (UpdateTaskStatus (tsk_id t) "running" None)
              (update_task_status s now (tsk_id t) "running" None)) as [->|[e ->]].
  - destruct (IH (update_task_status s now (tsk_id t) "running" None)) as [n ->].
    by exists (S n).
  - by exists 0%nat.
Qed.

(** A call of [execute_pending_tasks] marks and submits the first tasks
    that [get_pending_tasks] returns, up to the first refusal. *)
Lemma call_execute_pending_tasks_prefix s now limit :
  ∃ n, call_execute_pending_tasks s now limit
       = (foldl (λ s task, update_task_status s now (tsk_id task) "running" None)
                s (take n (get_pending_tasks s now limit)),
          take n (get_pending_tasks s now limit)).
Proof.
  unfold call_execute_pending_tasks.
  destruct (call_cases s (SelectPendingTasks limit) (get_pending_tasks s now limit))
    as [->|[e ->]]; [apply submit_pending_prefix|by exists 0%nat].
Qed.

Lemma pending_tasks_elem_of s now limit t :
  t ∈ get_pending_tasks s now limit → t ∈ scan_tasks s.
Proof.
  unfold get_pending_tasks, sql_limit. intros Hin.
  assert (t ∈ merge_sort pending_order (filter (λ t, is_pending now t) (scan_tasks s)))
    as Hin'.
  { destruct (bool_decide (limit < 0)); [done|].
    apply elem_of_take in Hin as (i & Hi & _). by eapply list_elem_of_lookup_2. }
  rewrite merge_sort_Permutation in Hin'.
  by apply list_elem_of_filter in Hin' as [_ ?].
Qed.

Lemma parse_scanned_task_id task_id result :
  sr_task_id (parse_scanned task_id result) = task_id.
Proof.
  unfold parse_scanned.
  by destruct (sr_success _ && truthy _); [destruct (extract_devices _)|].
Qed.

Lemma scan_worker_task_id world task_data :
  sr_task_id (_scan_worker config world task_data) = Some (tsk_id task_data).
Proof.
  unfold _scan_worker, discovery_scan, quick_scan, deep_scan, full_scan, scan_call.
  destruct (negb _); [done|].
  destruct (scan_scratch world) as [env|e];
    repeat (case_bool_decide; [by rewrite ?parse_scanned_task_id|]); done.
Qed.

(** The status that is written for a result is completed or failed. *)
Lemma final_status_terminal result :
  (final_status result).1 = "completed" ∨ (final_status result).1 = "failed".
Proof. unfold final_status. destruct (sr_success result); [by left|by right]. Qed.

(** [start_task] reads the task and marks it running, or changes nothing. *)
Lemma start_task_cases s now task_id :
  (∃ task_data,
     get_task s task_id = Some task_data
     ∧ start_task s now task_id
       = Ok (Some (update_task_status s now task_id "running" None, task_data)))
  ∨ start_task s now task_id = Ok None
  ∨ ∃ e, start_task s now task_id = Raise e.
Proof.
  unfold start_task.
  destruct (call_cases s (SelectTask task_id) (get_task s task_id)) as [->|[e ->]];
    [|right; right; by eexists].
  simpl. destruct (get_task s task_id) as [task_data|]; [|right; by left].
  destruct (call_cases s (UpdateTaskStatus task_id "running" None)
              (update_task_status s now task_id "running" None)) as [->|[e ->]].
  - left. by eexists.
  - right. right. by eexists.
Qed.

(** [complete_task] reconciles the result and writes its status, unless
    the update is refused. *)
Lemma complete_task_cases s now task_id result :
  let s1 := _process_scan_result s now result in
  complete_task s now task_id result
  = (update_task_status s1 now task_id (final_status result).1 (final_status result).2,
     None)
  ∨ ∃ e, complete_task s now task_id result = (s1, Some e).
Proof.
  intros s1. unfold complete_task. fold s1.
  destruct (final_status result) as [status error]. simpl.
  destruct (call_cases s1 (UpdateTaskStatus task_id status error)
              (update_task_status s1 now task_id status error)) as [->|[e ->]].
  - by left.
  - right. by eexists.
Qed.

(** What [finish_task] leaves: the reconciled store, with the task written
    completed or failed unless the updates were refused. *)
Lemma finish_task_cases s now task_id result :
  let s1 := _process_scan_result s now result in
  (finish_task s now task_id result).1 = s1
  ∨ ∃ status error,
      (status = "completed" ∨ status = "failed")
      ∧ (finish_task s now task_id result).1
        = update_task_status s1 now task_id status error.
Proof.
  intros s1. unfold finish_task.
  destruct (complete_task_cases s now task_id result) as [->|[e ->]]; fold s1.
  - right. eexists _, _. split; [apply final_status_terminal|done].
  - destruct (call_cases s1 (UpdateTaskStatus task_id "failed" (Some (exn_str e)))
                (update_task_status s1 now task_id "failed" (Some (exn_str e))))
      as [->|[e' ->]].
    + right. eexists _, _. split; [by right|done].
    + by left.
Qed.

(** What the handlers do with an exception of [execute_task]. *)
Lemma execute_task_raised_cases s now task_id e sweep :
  (execute_task_raised s now task_id e sweep).1 = s
  ∧ job_task (execute_task_raised s now task_id e sweep).2 = None
  ∨ ∃ todo error,
      sweep = Some todo
      ∧ execute_task_raised s now task_id e sweep
        = (update_task_status s now task_id "failed" error, continue todo).
Proof.
  unfold execute_task_raised. destruct sweep as [todo|]; [|by left].
  destruct (call_cases s (UpdateTaskStatus task_id "failed" (Some (exn_str e)))
              (update_task_status s now task_id "failed" (Some (exn_str e))))
    as [->|[e' ->]].
  - right. by eexists _, _.
  - by left.
Qed.

Lemma job_task_continue todo : job_task (continue todo) = None.
Proof. by destruct todo. Qed.

Lemma job_task_returned sweep : job_task (returned sweep) = None.
Proof. destruct sweep; [apply job_task_continue|done]. Qed.

(** A job that enters [execute_task] marks the task running and holds it,
    or changes nothing, or, in a sweep, writes the task failed. *)
Lemma enter_cases s now j s' j' :
  enter s now j = Some (s', j') →
  ∃ task_id sweep,
    (j = Triggered task_id ∧ sweep = None
     ∨ ∃ todo, j = Sweeping (task_id :: todo) ∧ sweep = Some todo)
    ∧ ((∃ task_data,
          get_task s task_id = Some task_data
          ∧ s' = update_task_status s now task_id "running" None
          ∧ j' = Executing task_data sweep)
       ∨ (s' = s ∧ job_task j' = None)
       ∨ (∃ todo error,
            sweep = Some todo
            ∧ s' = update_task_status s now task_id "failed" error
            ∧ j' = continue todo)).
Proof.
  intros Henter.
  assert (∃ task_id sweep,
            (j = Triggered task_id ∧ sweep = None
             ∨ ∃ todo, j = Sweeping (task_id :: todo) ∧ sweep = Some todo)
            ∧ call_execute_task s now task_id sweep = (s', j'))
    as (task_id & sweep & Hj & Hcall).
  { destruct j as [|task_id|[|task_id todo]|?|?]; try done; simpl in Henter;
      injection Henter as Henter; eexists _, _; (split; [|exact Henter]).
    - by left.
    - right. by eexists. }
  exists task_id, sweep. split; [done|]. unfold call_execute_task in Hcall.
  destruct (start_task_cases s now task_id)
    as [(task_data & Ht & Hs)|[Hs|[e Hs]]]; rewrite Hs in Hcall.
  - injection Hcall as <- <-. left. by exists task_data.
  - injection Hcall as <- <-. right. left. split; [done|apply job_task_returned].
  - destruct (execute_task_raised_cases s now task_id e sweep)
      as [[Hstore Hjob]|(todo & error & -> & Heq)].
    + rewrite Hcall in Hstore, Hjob. right. left. by split.
    + rewrite Heq in Hcall. injection Hcall as <- <-. right. right. by eexists _, _.
Qed.

(** A job whose worker returns lets go of its task; the store is the
    reconciled one, with the task written completed or failed unless the
    updates were refused. *)
Lemma return_cases s now world j s' j' :
  return_ config s now world j = Some (s', j') →
  ∃ task_data,
    job_task j = Some task_data
    ∧ job_task j' = None
    ∧ let s1 := _process_scan_result s now (_scan_worker config world task_data) in
      (s' = s1
       ∨ ∃ status error,
           (status = "completed" ∨ status = "failed")
           ∧ s' = update_task_status s1 now (tsk_id task_data) status error).
Proof.
  intros Hret. destruct j as [| | |task_data sweep|task_data]; try done; simpl in Hret;
    exists task_data; (split; [done|]).
  - set (result := _scan_worker config world task_data) in *.
    pose proof (finish_task_cases s now (tsk_id task_data) result) as Hfinish.
    destruct (finish_task s now (tsk_id task_data) result) as [s1 [r|e]] eqn:Hf;
      simpl in Hfinish.
    + injection Hret as <- <-. split; [apply job_task_returned|done].
    + destruct (execute_task_raised_cases s1 now (tsk_id task_data) e sweep)
        as [[Hstore Hjob]|(todo & error & -> & Heq)].
      * injection Hret as Hret. rewrite Hret in Hstore, Hjob. simpl in Hstore, Hjob.
        subst s1. by split.
      * rewrite Heq in Hret. injection Hret as <- <-.
        split; [apply job_task_continue|].
        assert (s1 = _process_scan_result s now result) as ->.
        { unfold finish_task in Hf.
          destruct (complete_task_cases s now (tsk_id task_data) result) as [Hc|[e0 Hc]];
            rewrite Hc in Hf; [done|].
          destruct (call _ _ _); [done|]. by injection Hf as <- _. }
        right. eexists _, _. split; [by right|done].
  - injection Hret as <- <-. split; [done|].
    unfold _task_completed_callback. rewrite scan_worker_task_id.
    destruct (complete_task_cases s now (tsk_id task_data)
                (_scan_worker config world task_data)) as [->|[e ->]]; simpl.
    + right. eexists _, _. split; [apply final_status_terminal|done].
    + by left.
Qed.

Lemma elem_of_insert_inv {A} (l : list A) i x y : y ∈ <[i:=x]> l → y = x ∨ y ∈ l.
Proof.
  intros (j & Hj)%list_elem_of_lookup_1.
  apply list_lookup_insert_Some in Hj as [(-> & -> & _)|[_ Hj]]; [by left|].
  right. by eapply list_elem_of_lookup_2.
Qed.

Lemma status_change_keeps_started st st' :
  status_change st st' → st ≠ Some "pending" → st' ≠ Some "pending".
Proof. intros [->|[->|[->|[_ ->]]]]; done. Qed.

Lemma evolves_refl s : evolves s s.
Proof.
  split; [|by intros id t' ->]. intros id t Ht. exists t. split; [done|by left].
Qed.

Lemma evolves_started (sys : System) s' jobs' :
  evolves (store sys) s' → started sys →
  (∀ j task_data, j ∈ jobs' → job_task j = Some task_data →
     j ∈ jobs sys
     ∨ ∃ t, get_task s' (tsk_id task_data) = Some t ∧ tsk_status t ≠ Some "pending") →
  started {| store := s'; jobs := jobs' |}.
Proof.
  intros [Hev _] Hst Hjobs j task_data Hj Htask. simpl.
  destruct (Hjobs j task_data Hj Htask) as [Hold|Hnew]; [|done].
  destruct (Hst j task_data Hold Htask) as (t & Ht & Hstatus).
  destruct (Hev _ _ Ht) as (t' & Ht' & Hchange). exists t'. split; [done|].
  by eapply status_change_keeps_started.
Qed.

Lemma evolves_create s now target scan_type scheduled_at :
  evolves s (create_scan_task s now (pending_task target scan_type scheduled_at)).1.
Proof.
  split.
  - intros id t Ht. exists t. split; [by apply create_task_old|by left].
  - intros id t' Hnone Ht'. by rewrite (create_task_new _ _ _ _ _ Hnone Ht').
Qed.

(** One update of a status, after a reconciliation or without one. *)
Lemma evolves_update s s1 now task_id status error :
  scan_tasks s1 = scan_tasks s →
  (∀ t, get_task s task_id = Some t → status_change (tsk_status t) (Some status)) →
  evolves s (update_task_status s1 now task_id status error).
Proof.
  intros Hsame Hchange. split.
  - intros id t Ht. rewrite <- (get_task_same s s1 id Hsame) in Ht.
    destruct (update_status s1 now task_id status error id t Ht) as (t' & Ht' & Hst).
    exists t'. split; [done|]. rewrite Hst.
    destruct (decide (id = task_id)) as [->|]; [|apply status_change_refl].
    apply Hchange. by rewrite <- (get_task_same s s1 task_id Hsame).
  - intros id t' Hnone. rewrite update_status_None; [done|].
    by rewrite (get_task_same s s1 id Hsame).
Qed.

Lemma evolves_same s s1 : scan_tasks s1 = scan_tasks s → evolves s s1.
Proof.
  intros Hsame. split.
  - intros id t Ht. exists t. split; [by rewrite (get_task_same s s1 id Hsame)|by left].
  - intros id t' Hnone. by rewrite (get_task_same s s1 id Hsame), Hnone.
Qed.

(** Where a pending task can be written failed. *)
Lemma update_pending_failed s s1 now task_id status error id t t' :
  scan_tasks s1 = scan_tasks s →
  get_task s id = Some t →
  get_task (update_task_status s1 now task_id status error) id = Some t' →
  tsk_status t = Some "pending" → tsk_status t' = Some "failed" →
  id = task_id ∧ status = "failed".
Proof.
  intros Hsame Ht Ht' Hp Hf. rewrite <- (get_task_same s s1 id Hsame) in Ht.
  destruct (update_status s1 now task_id status error id t Ht) as (t1 & Ht1 & Hst).
  rewrite Ht' in Ht1. injection Ht1 as <-. rewrite Hst in Hf.
  destruct (decide (id = task_id)); [|congruence]. split; [done|congruence].
Qed.

Lemma same_pending_failed s s1 id t t' :
  scan_tasks s1 = scan_tasks s →
  get_task s id = Some t → get_task s1 id = Some t' →
  tsk_status t = Some "pending" → tsk_status t' = Some "failed" → False.
Proof.
  intros Hsame Ht Ht' Hp Hf. rewrite (get_task_same s s1 id Hsame) in Ht'. congruence.
Qed.

(** One step keeps [started] and evolves the task table, and writes a
    pending task failed only where a sweep enters [execute_task]. *)
Lemma step_evolves sys st sys' :
  started sys → step config sys st = Some sys' →
  started sys' ∧ evolves (store sys) (store sys')
  ∧ ∀ id t t', get_task (store sys) id = Some t → get_task (store sys') id = Some t' →
      tsk_status t = Some "pending" → tsk_status t' = Some "failed" →
      sweep_enters sys st id.
Proof.
  intros Hst Hstep.
  assert (started sys ∧ evolves (store sys) (store sys)
          ∧ ∀ id t t', get_task (store sys) id = Some t → get_task (store sys) id = Some t' →
              tsk_status t = Some "pending" → tsk_status t' = Some "failed" →
              sweep_enters sys st id) as Hidle.
  { split; [done|]. split; [apply evolves_refl|]. intros id t t' Ht Ht'. congruence. }
  destruct st as [now target scan_type run_date|now target scan_type
    |now|now limit|i now|i now world]; simpl in Hstep.
  - unfold schedule_one_time_scan in Hstep.
    pose proof (evolves_create (store sys) now target scan_type (Some (isoformat run_date)))
      as Hev.
    pose proof (create_task_old (store sys) now
                  (pending_task target scan_type (Some (isoformat run_date)))) as Hold.
    destruct (create_scan_task (store sys) now
                (pending_task target scan_type (Some (isoformat run_date)))) as [s1 id1].
    cbn [fst] in Hev, Hold.
    destruct (call_cases (store sys)
                (InsertTask (pending_task target scan_type (Some (isoformat run_date))))
                (s1, id1))
      as [Hcall|[e Hcall]]; rewrite Hcall in Hstep; [|by injection Hstep as <-].
    injection Hstep as <-. cbn [store jobs].
    split; [apply (evolves_started sys); [done|done|by left]|]. split; [done|].
    intros id t t' Ht Ht'. rewrite (Hold _ _ Ht) in Ht'. congruence.
  - pose proof (evolves_create (store sys) now target scan_type None) as Hev.
    pose proof (create_task_old (store sys) now (pending_task target scan_type None))
      as Hold.
    destruct (create_scan_task (store sys) now (pending_task target scan_type None))
      as [s1 id1].
    cbn [fst] in Hev, Hold.
    destruct (call_cases (store sys) (InsertTask (pending_task target scan_type None))
                (s1, id1))
      as [Hcall|[e Hcall]]; rewrite Hcall in Hstep; [|by injection Hstep as <-].
    injection Hstep as <-. cbn [store jobs].
    split.
    { apply (evolves_started sys); [done|done|].
      intros j task_data [Hj|Hj%list_elem_of_singleton]%elem_of_app Htask; [by left|].
      by subst j. }
    split; [done|].
    intros id t t' Ht Ht'. rewrite (Hold _ _ Ht) in Ht'. congruence.
  - destruct (call_cases (store sys) (SelectPendingTasks 10)
                (get_pending_tasks (store sys) now 10))
      as [Hcall|[e Hcall]]; rewrite Hcall in Hstep; [|by injection Hstep as <-].
    injection Hstep as <-. cbn [store jobs]. split.
    { apply (evolves_started sys); [apply evolves_refl|done|].
      intros j task_data [Hj|Hj%list_elem_of_singleton]%elem_of_app Htask; [by left|].
      subst j. by rewrite job_task_continue in Htask. }
    split; [apply evolves_refl|]. intros id t t' Ht Ht'. congruence.
  - destruct (call_execute_pending_tasks_prefix (store sys) now limit) as [n Hcall].
    rewrite Hcall in Hstep. injection Hstep as <-. simpl.
    set (submitted := take n (get_pending_tasks (store sys) now limit)).
    assert (evolves (store sys)
              (foldl (λ s task, update_task_status s now (tsk_id task) "running" None)
                     (store sys) submitted)) as Hev.
    { split.
      - intros id t Ht.
        destruct (mark_running_Some now submitted _ id t Ht)
          as (t' & Ht' & [Hsame|Hrun] & _); exists t'; (split; [done|]).
        + rewrite Hsame. apply status_change_refl.
        + rewrite Hrun. apply status_change_running.
      - intros id t' Hnone. by rewrite mark_running_None. }
    split.
    { apply (evolves_started sys); [done|done|].
      intros j task_data [Hj|Hj]%elem_of_app Htask; [by left|]. right.
      apply list_elem_of_fmap in Hj as (t & -> & Hin). injection Htask as <-.
      destruct (get_task_elem_of (store sys) t
                  (pending_tasks_elem_of _ _ _ _ (subseteq_take _ _ _ Hin)))
        as [t0 Ht0].
      destruct (mark_running_Some now submitted _ _ t0 Ht0)
        as (t' & Ht' & _ & Hrun).
      exists t'. split; [done|]. rewrite Hrun; [done|]. by apply list_elem_of_fmap_2. }
    split; [done|]. intros id t t' Ht Ht' Hp Hf.
    destruct (mark_running_Some now submitted _ id t Ht)
      as (t1 & Ht1 & [Hsame|Hrun] & _); congruence.
  - destruct (jobs sys !! i) as [j|] eqn:Hj; [|done]. simpl in Hstep.
    destruct (enter (store sys) now j) as [[s j']|] eqn:Henter; [|done].
    injection Hstep as <-. cbn [store jobs].
    apply enter_cases in Henter as (task_id & sweep & Hform & Hcases).
    assert (∀ s0 j0, (∀ task_data, job_task j0 = Some task_data →
                        ∃ t, get_task s0 (tsk_id task_data) = Some t
                             ∧ tsk_status t ≠ Some "pending") →
                     evolves (store sys) s0 →
                     started {| store := s0; jobs := <[i:=j0]> (jobs sys) |}) as Hstarted.
    { intros s0 j0 Hnew Hev. apply (evolves_started sys); [done|done|].
      intros j1 task_data [->|Hin]%elem_of_insert_inv Htask; [right; auto|by left]. }
    destruct Hcases as [(task_data & Hget & -> & ->)|[[-> Hjob]|(todo & error & -> & -> & ->)]].
    + assert (evolves (store sys) (update_task_status (store sys) now task_id "running" None))
        as Hev by (apply evolves_update; [done|intros; apply status_change_running]).
      split; [|split; [done|]].
      * apply Hstarted; [|done]. intros task_data' [= <-].
        destruct (update_status (store sys) now task_id "running" None task_id _ Hget)
          as (t' & Ht' & Hst').
        apply get_task_spec in Hget as [-> _]. exists t'. split; [done|].
        rewrite Hst'. by rewrite decide_True.
      * intros id t t' Ht Ht' Hp Hf.
        by destruct (update_pending_failed _ _ _ _ _ _ _ _ _ eq_refl Ht Ht' Hp Hf).
    + split; [|split; [apply evolves_refl|]].
      * apply Hstarted; [|apply evolves_refl]. intros task_data. by rewrite Hjob.
      * intros id t t' Ht Ht'. congruence.
    + assert (evolves (store sys)
                (update_task_status (store sys) now task_id "failed" error))
        as Hev by (apply evolves_update; [done|intros; apply status_change_failed]).
      split; [|split; [done|]].
      * apply Hstarted; [|done]. intros task_data. by rewrite job_task_continue.
      * intros id t t' Ht Ht' Hp Hf.
        destruct (update_pending_failed _ _ _ _ _ _ _ _ _ eq_refl Ht Ht' Hp Hf) as [-> _].
        destruct Hform as [[_ ?]|(todo' & -> & _)]; [done|].
        by exists i, now, todo'.
  - destruct (jobs sys !! i) as [j|] eqn:Hj; [|done]. simpl in Hstep.
    destruct (return_ config (store sys) now world j) as [[s j']|] eqn:Hret; [|done].
    injection Hstep as <-. cbn [store jobs].
    assert (j ∈ jobs sys) as Hin by (by eapply list_elem_of_lookup_2).
    apply return_cases in Hret as (task_data & Htask & Hjob & Hcases).
    destruct (Hst _ task_data Hin Htask) as (t0 & Ht0 & Hstatus).
    pose proof (process_scan_result_tasks (store sys) now
                  (_scan_worker config world task_data)) as Hsame.
    simpl in Hcases.
    assert (evolves (store sys) s
            ∧ ∀ id t t', get_task (store sys) id = Some t → get_task s id = Some t' →
                tsk_status t = Some "pending" → tsk_status t' = Some "failed" → False)
      as [Hev Hno].
    { destruct Hcases as [->|(status & error & Hstatus' & ->)].
      - split; [by apply evolves_same|]. intros id t t'. by apply same_pending_failed.
      - split.
        + apply evolves_update; [done|]. intros t Ht. rewrite Ht0 in Ht. injection Ht as <-.
          destruct Hstatus' as [-> | ->]; [|apply status_change_failed].
          right. right. right. by split.
        + intros id t t' Ht Ht' Hp Hf.
          destruct (update_pending_failed _ _ _ _ _ _ _ _ _ Hsame Ht Ht' Hp Hf) as [-> _].
          congruence. }
    split; [|split; [done|]].
    + apply (evolves_started sys); [done|done|].
      intros j0 task_data' [->|Hin']%elem_of_insert_inv Htask'; [congruence|by left].
    + intros id t t' Ht Ht' Hp Hf. destruct (Hno id t t' Ht Ht' Hp Hf).
Qed.

Lemma started_initial : started initial.
Proof. intros j task_data Hj. by apply elem_of_nil in Hj. Qed.

Lemma run_started sys steps trace :
  started sys → run config sys steps = Some trace → Forall started trace.
Proof.
  revert sys trace. induction steps as [|st steps IH]; intros sys trace Hst.
  - intros [= <-]. by constructor.
  - simpl. destruct (step config sys st) as [sys'|] eqn:Hstep; [|done]. simpl.
    destruct (run config sys' steps) as [trace'|] eqn:Hrun; [|done]. simpl.
    intros [= <-]. constructor; [done|].
    apply (IH sys'); [|done]. by apply (step_evolves sys st sys').
Qed.

Lemma reachable_started sys : reachable config sys → started sys.
Proof.
  intros (steps & trace & Hrun & Hlast).
  pose proof (run_started _ _ _ started_initial Hrun) as Hall.
  apply last_Some in Hlast as [l ->]. apply Forall_app in Hall as [_ Hall].
  by apply Forall_cons in Hall as [? _].
Qed.

(** C2 (as amended). In every step from a reachable system each task stays
    in the table and its status stays as it is, or becomes running, or
    becomes failed, or becomes completed from a status other than pending;
    a task that appears is pending. So no task re-enters pending. A
    pending task becomes running, or it becomes failed, and this only in
    the step in which a job of the sweep calls [execute_task] for it:
    there an exception raised before the task is marked running is
    answered by the handler of the sweep, which writes the task failed. *)
Theorem task_status_changes sys st sys' :
  reachable config sys →
  step config sys st = Some sys' →
  (∀ task_id t, get_task (store sys) task_id = Some t →
     ∃ t', get_task (store sys') task_id = Some t'
           ∧ status_change (tsk_status t) (tsk_status t')
           ∧ (tsk_status t' = Some "pending" → tsk_status t = Some "pending")
           ∧ (tsk_status t = Some "pending" →
              tsk_status t' = Some "pending" ∨ tsk_status t' = Some "running"
              ∨ (tsk_status t' = Some "failed" ∧ sweep_enters sys st task_id)))
  ∧ (∀ task_id t', get_task (store sys) task_id = None →
       get_task (store sys') task_id = Some t' → tsk_status t' = Some "pending").
Proof.
  intros Hreach Hstep.
  destruct (step_evolves sys st sys' (reachable_started _ Hreach) Hstep)
    as (_ & [Hev Hnew] & Hsweep).
  split; [|done]. intros task_id t Ht.
  destruct (Hev _ _ Ht) as (t' & Ht' & Hchange). exists t'.
  split; [done|]. split; [done|]. split.
  - intros Hp. destruct Hchange as [Heq|[Hr|[Hf|[_ Hc]]]]; congruence.
  - intros Hp. destruct Hchange as [Heq|[Hr|[Hf|[Hn _]]]];
      [left; congruence|right; by left| |done].
    right. right. split; [done|]. by apply (Hsweep task_id t t').
Qed.

End System.

Section ParseFailure.
Import Py NmapParser Engine Database Worker.
Context `{!Builtins, !ET.Reader, !Json, !Sqlite}.

Lemma truthy_nonempty (s : string) : s ≠ EmptyString → truthy (Some s) = true.
Proof. by destruct s. Qed.

Lemma parse_document_raise xml_output e :
  ET.fromstring xml_output = Raise e → parse_document xml_output = Raise e.
Proof. intros He. unfold parse_document. by rewrite He. Qed.

(** Whatever the payload, [parse_xml] returns an error or the run that the
    whole document parsed to: no list of hosts is returned for a part of a
    document. *)
Lemma parse_xml_all_or_nothing xml_output :
  (∃ error, parse_xml xml_output = PError error)
  ∨ parse_document xml_output = Ok (parse_xml xml_output).
Proof.
  unfold parse_xml. destruct (negb _); [left; by eexists|].
  destruct (parse_document xml_output) as [parsed|e]; [by right|].
  left. destruct (exn_class e); by eexists.
Qed.

(** C8 (as amended). For a payload that is empty or that the XML reader
    rejects, [parse_xml] returns the error dict with its message and no
    host list, and [extract_devices] of it is the empty list. The worker
    parses the payload of a successful scan result only when it is not
    empty: it attaches the error dict and the empty device list to a
    result whose payload the reader rejects, and nothing to a result whose
    payload is empty. In both cases it leaves the result successful, so
    [execute_task] writes the task completed with no error text, and
    returns that result, when the database accepts the update. *)
Theorem parse_failure_is_explicit xml_output result task_id :
  xml_output = EmptyString ∨ (∃ e, ET.fromstring xml_output = Raise e) →
  sr_success result = true →
  or_empty (sr_xml_output result) = xml_output →
  ∃ error,
    parse_xml xml_output = PError error
    ∧ (xml_output = EmptyString → error = "Empty XML output")
    ∧ (∀ e, xml_output ≠ EmptyString → ET.fromstring xml_output = Raise e →
         error = parse_error_text e)
    ∧ hosts_of (parse_xml xml_output) = []
    ∧ extract_devices (parse_xml xml_output) = Ok []
    ∧ let parsed := parse_scanned (Some task_id) result in
      sr_success parsed = true
      ∧ sr_error parsed = sr_error result
      ∧ (xml_output ≠ EmptyString →
           sr_parsed_data parsed = Some (PError error) ∧ sr_devices parsed = Some [])
      ∧ (xml_output = EmptyString →
           sr_parsed_data parsed = sr_parsed_data result
           ∧ sr_devices parsed = sr_devices result)
      ∧ final_status parsed = ("completed", None)
      ∧ ∀ s now t,
          get_task s task_id = Some t →
          statement_error (_process_scan_result s now parsed)
            (UpdateTaskStatus task_id "completed" None) = None →
          (finish_task s now task_id parsed).2 = Ok parsed
          ∧ ∃ t', get_task (finish_task s now task_id parsed).1 task_id = Some t'
                  ∧ tsk_status t' = Some "completed"
                  ∧ tsk_error t' = None.
Proof.
  intros Hbad Hsuccess Hxml.
  assert (∃ error, parse_xml xml_output = PError error
            ∧ (xml_output = EmptyString → error = "Empty XML output")
            ∧ (∀ e, xml_output ≠ EmptyString → ET.fromstring xml_output = Raise e →
                 error = parse_error_text e)) as (error & Hparse & Hempty & Hraise).
  { unfold parse_xml. destruct (decide (xml_output = EmptyString)) as [->|Hne].
    - exists "Empty XML output". by repeat split.
    - destruct Hbad as [?|[e He]]; [done|].
      rewrite (truthy_nonempty _ Hne). simpl. rewrite (parse_document_raise _ _ He).
      exists (parse_error_text e).
      split; [unfold parse_error_text; by destruct (exn_class e)|]. split; [done|].
      intros e' _ He'. rewrite He in He'. by injection He' as <-. }
  exists error. split; [done|]. split; [done|]. split; [done|].
  rewrite Hparse. split; [done|]. split; [done|].
  set (parsed := parse_scanned (Some task_id) result).
  assert (sr_success parsed = true
          ∧ sr_error parsed = sr_error result
          ∧ (xml_output ≠ EmptyString →
             sr_parsed_data parsed = Some (PError error) ∧ sr_devices parsed = Some [])
          ∧ (xml_output = EmptyString →
             sr_parsed_data parsed = sr_parsed_data result
             ∧ sr_devices parsed = sr_devices result))
    as (Hs & He & Hp & Hn).
  { subst parsed. unfold parse_scanned. rewrite Hsuccess.
    destruct (decide (xml_output = EmptyString)) as [Heq|Hne].
    - assert (truthy (sr_xml_output result) = false) as ->.
      { rewrite Heq in Hxml. by destruct (sr_xml_output result) as [[|??]|]. }
      simpl. by repeat split.
    - assert (truthy (sr_xml_output result) = true) as ->.
      { destruct (sr_xml_output result) as [[|??]|]; simpl in *; congruence. }
      simpl. rewrite Hxml, Hparse. simpl. rewrite Hsuccess. by repeat split. }
  assert (final_status parsed = ("completed", None)) as Hfinal
    by (unfold final_status; by rewrite Hs).
  cbv zeta. split; [done|]. split; [done|]. split; [done|]. split; [done|].
  split; [done|]. intros s now t Ht Haccepted.
  unfold finish_task, complete_task. rewrite Hfinal. unfold call. rewrite Haccepted.
  split; [done|]. cbn [fst]. rewrite get_task_update.
  assert (get_task (_process_scan_result s now parsed) task_id = Some t) as ->
    by (unfold get_task in *; by rewrite process_scan_result_tasks).
  simpl. eexists. split; [done|].
  rewrite decide_True by (by apply get_task_spec in Ht as [? _]). done.
Qed.

End ParseFailure.

Section Reconciliation.
Import Py NmapParser Engine Database Worker.
Context `{!Builtins, !ET.Reader, !Json, !Sqlite}.

(** *** The ports table *)







(** *** The devices table *)














(** *** The batch *)
















End Reconciliation.

(** * Further properties of the scan pipeline *)

Section ScanResults.
Import Py NmapParser Engine.
Context `{!Builtins}.

(** X1. A call of [scan] raises only when [tempfile.mkstemp] or
    [os.close], which come before its [try], raise, and then it raises
    their exception. Once the scratch file is made it returns a result
    that names its target, scan type and start time and is of one of three
    kinds: a success, with return code 0, no error key and the text of the
    scratch file as XML output; an exit with another return code,
    unsuccessful and again with no error key; or an error result,
    unsuccessful, with an error text and without return code, XML output
    and end time. *)
Theorem scan_outcomes self scratch target scan_type options timeout :
  match scan_call self scratch target scan_type options timeout with
  | Raise e => scratch = ScratchError e
  | Ok result =>
      ∃ env,
        scratch = ScratchFile env
        ∧ sr_target result = target
        ∧ sr_scan_type result = Some scan_type
        ∧ sr_start_time result = Some (isoformat (env_start_time env))
        ∧ ((sr_success result = true
            ∧ sr_return_code result = Some 0
            ∧ sr_error result = None
            ∧ env_xml_file env = Ok (sr_xml_output result)
            ∧ is_Some (sr_command result) ∧ is_Some (sr_end_time result))
           ∨ (sr_success result = false
              ∧ (∃ returncode, returncode ≠ 0 ∧ sr_return_code result = Some returncode)
              ∧ sr_error result = None
              ∧ env_xml_file env = Ok (sr_xml_output result)
              ∧ is_Some (sr_command result) ∧ is_Some (sr_end_time result))
           ∨ (sr_success result = false
              ∧ sr_return_code result = None
              ∧ is_Some (sr_error result)
              ∧ sr_xml_output result = None
              ∧ sr_end_time result = None))
  end.
Proof.
  unfold scan_call. destruct scratch as [env|e]; [|done].
  exists env. split; [done|]. unfold scan.
  destruct (command_text _ _ _ _ _) as [cmd_str|e]; simpl.
  2:{ repeat split. right. right. by repeat split. }
  destruct (env_process env) as [returncode stdout stderr| |e]; simpl.
  - destruct (env_xml_file env) as [xml_output|e]; simpl.
    + repeat split. case_bool_decide as Hrc.
      * subst returncode. left. by repeat split.
      * right. left. split; [done|]. split; [by exists returncode|]. by repeat split.
    + repeat split. right. right. by repeat split.
  - repeat split. right. right. by repeat split.
  - repeat split. right. right. by repeat split.
Qed.

(** X2. A command that [_build_command] returns is the path of the tool,
    the options, the two arguments of the XML output when a path is given,
    and the target as its last argument. Options passed by the caller are
    the only options: they replace those of the scan type and of the
    configuration. Without them, a scan type that is none of discovery,
    quick, deep and full adds no option at all. *)
Theorem build_command_shape self target scan_type options xml_output cmd :
  _build_command self target scan_type options xml_output = Ok cmd →
  ∃ opts,
    cmd = Some (nmap_path self) :: (Some <$> opts)
          ++ (if truthy xml_output then [Some "-oX"; xml_output] else [])
          ++ [target]
    ∧ (truthy options = true →
         shlex_split (or_empty options) = Ok opts
         ∧ ∀ self' scan_type',
             nmap_path self' = nmap_path self →
             _build_command self' target scan_type' options xml_output = Ok cmd)
    ∧ (truthy options = false →
         scan_type ∉ [ScanType.DISCOVERY; ScanType.QUICK; ScanType.DEEP; ScanType.FULL] →
         opts = []).
Proof.
  unfold _build_command. intros Hcmd.
  assert (truthy xml_output = true → Some (or_empty xml_output) = xml_output) as Hxml.
  { by destruct xml_output as [[|??]|]. }
  destruct (truthy options) eqn:Hopt.
  - destruct (shlex_split (or_empty options)) as [opts|e] eqn:Hsplit; [|done].
    simpl in Hcmd. injection Hcmd as <-. exists opts. split.
    { simpl. f_equal. rewrite fmap_app, <- app_assoc. f_equal.
      destruct (truthy xml_output) eqn:Ht; [|done]. simpl.
      by rewrite Hxml. }
    split; [|done]. intros _. split; [done|]. intros self' scan_type' Hpath.
    simpl. by rewrite Hpath.
  - assert (∃ opts, cmd = Some (nmap_path self) :: (Some <$> opts)
                          ++ (if truthy xml_output then [Some "-oX"; xml_output] else [])
                          ++ [target]
                    ∧ (scan_type ∉ [ScanType.DISCOVERY; ScanType.QUICK;
                                    ScanType.DEEP; ScanType.FULL] → opts = []))
      as (opts & -> & Hnone).
    { repeat case_bool_decide.
      all: lazymatch type of Hcmd with
           | context [shlex_split ?x] =>
               destruct (shlex_split x) as [opts|e]; [|simpl in Hcmd; discriminate Hcmd]
           | _ => pose (opts := @nil string)
           end; unfold mbind, result_bind, mret, result_ret in Hcmd;
           injection Hcmd as <-; exists opts.
      all: split; [f_equal;
                   change (list_fmap string (option string) Some)
                     with (fmap (M:=list) (@Some string));
                   rewrite ?fmap_app, <- ?app_assoc;
                   destruct (truthy xml_output); simpl; by rewrite ?Hxml|].
      all: intros Hnot; try done.
      all: exfalso; apply Hnot; subst scan_type; set_solver. }
    exists opts. split; [done|]. split; [done|]. intros _. exact Hnone.
Qed.

End ScanResults.

Section ParseThenExtract.
Import Py NmapParser Engine Database Worker.
Context `{!Builtins, !ET.Reader, !Json, !Sqlite}.

Lemma max_by_key_elem_of {A} (l : list (A * Z)) best :
  max_by_key l = Some best → best ∈ l.
Proof.
  intros Hmax. apply max_by_key_first_maximal in Hmax as (pre & post & -> & _).
  apply elem_of_app. right. by left.
Qed.

(** The best match of a host that [_parse_os] returned has an accuracy
    that reads as an integer. *)
Lemma best_match_readable (matches : list OsMatch) best :
  best_match_of matches = Ok (Some best) →
  is_ok (int_field (om_accuracy best)) = true.
Proof.
  unfold best_match_of. intros Hbest.
  destruct (mapM (λ m, int_field (om_accuracy m)) matches) as [keys|e] eqn:Hkeys; [|done].
  simpl in Hbest. injection Hbest as Hbest.
  destruct (max_by_key (zip matches keys)) as [[m k]|] eqn:Hmax; [|done].
  simpl in Hbest. injection Hbest as ->.
  apply max_by_key_elem_of in Hmax. apply list_elem_of_lookup_1 in Hmax as [i Hi].
  apply lookup_zip_with_Some in Hi as (m & k' & [= <- <-] & Hm & Hk).
  apply mapM_Ok in Hkeys.
  destruct (Forall2_lookup_l _ _ _ _ _ Hkeys Hm) as (k'' & Hk'' & Hok).
  simpl in Hok. by rewrite Hok.
Qed.

Lemma parse_host_readable host_elem host :
  _parse_host host_elem = Ok (Some host) → accuracy_readable host.
Proof.
  unfold _parse_host, accuracy_readable.
  destruct (ET.find host_elem "status") as [status_elem|]; [|done].
  destruct (_parse_os host_elem) as [os_info|e] eqn:Hos; [|done].
  simpl. intros [= <-]. simpl.
  destruct os_info as [os_info|]; [|done]. simpl.
  destruct (os_best_match os_info) as [best|] eqn:Hbest; [|done].
  unfold _parse_os in Hos. destruct (ET.find host_elem "os") as [os_elem|]; [|done].
  destruct (parse_osmatch <$> ET.findall os_elem "osmatch") as [|m matches] eqn:Hm; [done|].
  destruct (best_match_of (m :: matches)) as [best'|e] eqn:Hb; [|done].
  simpl in Hos. injection Hos as <-. simpl in Hbest. subst best'.
  by eapply best_match_readable.
Qed.

Lemma parse_document_readable xml_output parsed_data :
  parse_document xml_output = Ok parsed_data →
  Forall accuracy_readable (hosts_of parsed_data).
Proof.
  unfold parse_document. destruct (ET.fromstring xml_output) as [root|e]; [|done]. simpl.
  destruct (mapM _parse_host (ET.findall root "host")) as [host_data|e] eqn:Hhosts; [|done].
  simpl. destruct (_parse_run_stats root) as [run_stats|e]; [|done]. simpl.
  intros [= <-]. simpl. apply mapM_Ok in Hhosts.
  apply Forall_forall. intros host Hin.
  apply list_elem_of_omap in Hin as (o & Ho & Hid). simpl in Hid. subst o.
  apply list_elem_of_lookup_1 in Ho as [i Hi].
  destruct (Forall2_lookup_r _ _ _ _ _ Hhosts Hi) as (host_elem & _ & Hok).
  by eapply parse_host_readable.
Qed.

Lemma device_of_host_readable host :
  accuracy_readable host → is_ok (device_of_host host) = true.
Proof.
  unfold accuracy_readable, device_of_host.
  destruct (host_os host ≫= os_best_match) as [m|]; [|done].
  by destruct (int_field (om_accuracy m)).
Qed.

(** X3. [extract_devices] never raises on what [parse_xml] returned,
    whatever the payload: the accuracies it reads were read by the parser
    before. So the worker passes on the success, the error and the XML of
    the scan result as they are, and attaches to a successful result with
    an XML output what was parsed from it and the devices extracted. *)
Theorem extract_after_parse xml_output task_id result :
  (∃ devices, extract_devices (parse_xml xml_output) = Ok devices)
  ∧ sr_success (parse_scanned task_id result) = sr_success result
  ∧ sr_error (parse_scanned task_id result) = sr_error result
  ∧ sr_xml_output (parse_scanned task_id result) = sr_xml_output result
  ∧ sr_task_id (parse_scanned task_id result) = task_id
  ∧ (sr_success result = true → truthy (sr_xml_output result) = true →
       sr_parsed_data (parse_scanned task_id result)
         = Some (parse_xml (or_empty (sr_xml_output result)))
       ∧ Some <$> extract_devices (parse_xml (or_empty (sr_xml_output result)))
         = Ok (sr_devices (parse_scanned task_id result))).
Proof.
  assert (∀ xml, ∃ devices, extract_devices (parse_xml xml) = Ok devices) as Htotal.
  { intros xml. unfold extract_devices. apply mapM_is_ok.
    apply Forall_forall. intros host Hin. apply device_of_host_readable.
    apply list_elem_of_filter in Hin as [_ Hin].
    destruct (parse_xml_all_or_nothing xml) as [[error Herr]|Hdoc].
    - rewrite Herr in Hin. by apply elem_of_nil in Hin.
    - apply parse_document_readable in Hdoc.
      by apply (proj1 (Forall_forall _ _) Hdoc). }
  split; [apply Htotal|]. unfold parse_scanned.
  destruct (sr_success result) eqn:Hs, (truthy (sr_xml_output result)) eqn:Hx; simpl;
    try by repeat split.
  destruct (Htotal (or_empty (sr_xml_output result))) as [devices Hd]. rewrite Hd. simpl.
  by repeat split.
Qed.

End ParseThenExtract.

Section TaskTable.
Import Py NmapParser Engine Database Worker.
Context `{!Builtins, !ET.Reader, !Json, !Sqlite}.

Lemma get_task_tasks s s' id :
  scan_tasks s' = scan_tasks s → get_task s' id = get_task s id.
Proof. unfold get_task. by intros ->. Qed.

(** X4. [create_scan_task] returns an id that no task had; [get_task] of
    it gives back the task type, target and schedule of the dict, the
    status of the dict or pending, its priority or 5, no start, completion
    or error; every other task and every other table is as before. *)
Theorem create_scan_task_get s now task_data :
  let s' := (create_scan_task s now task_data).1 in
  let id := (create_scan_task s now task_data).2 in
  get_task s id = None
  ∧ (∃ t, get_task s' id = Some t
          ∧ tsk_id t = id
          ∧ tsk_task_type t = td_task_type task_data
          ∧ tsk_target t = td_target task_data
          ∧ tsk_status t = get_default (td_status task_data) "pending"
          ∧ tsk_priority t = get_default (td_priority task_data) 5
          ∧ tsk_scheduled_at t = td_scheduled_at task_data
          ∧ tsk_created_at t = now
          ∧ tsk_started_at t = None ∧ tsk_completed_at t = None ∧ tsk_error t = None)
  ∧ (∀ other, other ≠ id → get_task s' other = get_task s other)
  ∧ devices s' = devices s ∧ ports s' = ports s ∧ events s' = events s
  ∧ scan_results s' = scan_results s.
Proof.
  intros s' id.
  assert (get_task s id = None) as Hfresh.
  { destruct (get_task s id) as [t|] eqn:Ht; [|done].
    apply get_task_spec in Ht as [Hid Hin]. exfalso.
    apply (next_rowid_fresh (tsk_id <$> scan_tasks s)).
    apply list_elem_of_fmap. by exists t. }
  split; [done|]. split.
  - unfold get_task in *. subst s' id. simpl.
    apply fmap_None in Hfresh. apply list_find_None in Hfresh.
    eexists. split.
    + apply fmap_Some. eexists (length (scan_tasks s), _). split; [|done].
      apply list_find_app_Some. right. split; [done|].
      split; [by apply list_find_None|].
      rewrite Nat.sub_diag. simpl. by rewrite decide_True.
    + by repeat split.
  - split; [|done]. intros other Hother. unfold get_task. subst s' id. simpl.
    destruct (list_find (λ t, tsk_id t = other) (scan_tasks s)) as [[i t]|] eqn:Hfind.
    + erewrite list_find_app_l; [done|exact Hfind].
    + simpl. apply list_find_None in Hfind.
      apply fmap_None. apply list_find_None. apply Forall_app. split; [done|].
      constructor; [|constructor]. simpl. done.
Qed.

Lemma pending_order_total : Total pending_order.
Proof.
  intros a b. unfold pending_order.
  destruct (tsk_priority a), (tsk_priority b); try (by left); try (by right); lia.
Qed.

Lemma pending_order_trans : Transitive pending_order.
Proof.
  intros a b c. unfold pending_order.
  destruct (tsk_priority a), (tsk_priority b), (tsk_priority c); try done; lia.
Qed.

Lemma sql_limit_take {A} limit (l : list A) :
  ∃ n, sql_limit limit l = take n l ∧ (0 ≤ limit → n = Z.to_nat limit)
       ∧ (limit < 0 → sql_limit limit l = l).
Proof.
  unfold sql_limit. case_bool_decide.
  - exists (length l). rewrite firstn_all. split; [done|]. split; [lia|done].
  - exists (Z.to_nat limit). split; [done|]. split; [done|lia].
Qed.

(** The tasks that [get_pending_tasks] returns are rows that are pending
    and due. *)
Lemma get_pending_tasks_due s now limit :
  Forall (λ t, t ∈ scan_tasks s
               ∧ tsk_status t = Some "pending"
               ∧ ∀ scheduled_at, tsk_scheduled_at t = Some scheduled_at →
                   String.leb scheduled_at (current_timestamp now) = true)
         (get_pending_tasks s now limit).
Proof.
  unfold get_pending_tasks.
  set (sorted := merge_sort pending_order (filter (λ t, is_pending now t) (scan_tasks s))).
  pose proof (merge_sort_Permutation pending_order
                (filter (λ t, is_pending now t) (scan_tasks s))) as Hperm.
  fold sorted in Hperm.
  destruct (sql_limit_take limit sorted) as (n & -> & _).
  apply Forall_forall. intros t Hin.
  apply (subseteq_take n sorted) in Hin. rewrite Hperm in Hin.
  apply list_elem_of_filter in Hin as [Hp Hin]. split; [done|].
  unfold is_pending in Hp. apply Is_true_true in Hp.
  apply andb_true_iff in Hp as [Hst Hat]. apply bool_decide_eq_true in Hst.
  split; [done|]. intros scheduled_at Hsch. by rewrite Hsch in Hat.
Qed.

(** X5. [get_pending_tasks] returns tasks of the table that are pending
    and whose schedule is NULL or not after the current timestamp, the
    higher priority first and, within a priority, the older first. With a
    limit that is not negative it returns at most that many, and every
    due task it leaves out comes after all it returns in that order; with
    a negative limit, or one that is at least the number of due tasks, it
    returns all of them. *)
Theorem get_pending_tasks_spec s now limit :
  let due := filter (λ t, is_pending now t) (scan_tasks s) in
  let tasks := get_pending_tasks s now limit in
  Forall (λ t, t ∈ scan_tasks s
               ∧ tsk_status t = Some "pending"
               ∧ ∀ scheduled_at, tsk_scheduled_at t = Some scheduled_at →
                   String.leb scheduled_at (current_timestamp now) = true) tasks
  ∧ StronglySorted pending_order tasks
  ∧ (0 ≤ limit → Z.of_nat (length tasks) ≤ limit)
  ∧ (∃ rest, tasks ++ rest ≡ₚ due
             ∧ ∀ t t', t ∈ tasks → t' ∈ rest → pending_order t t')
  ∧ (limit < 0 ∨ Z.of_nat (length due) ≤ limit → tasks ≡ₚ due).
Proof.
  intros due tasks. subst tasks. unfold get_pending_tasks. fold due.
  pose proof (merge_sort_Permutation pending_order due) as Hperm.
  pose proof (@StronglySorted_merge_sort _ pending_order _ pending_order_trans
                pending_order_total due) as Hsorted.
  set (sorted := merge_sort pending_order due) in *.
  destruct (sql_limit_take limit sorted) as (n & Htake & Hn & Hneg).
  split; [apply get_pending_tasks_due|]. rewrite Htake.
  split.
  { rewrite <- (take_drop n sorted) in Hsorted.
    by apply StronglySorted_app_1_l in Hsorted. }
  split.
  { intros Hlimit. rewrite length_take. rewrite (Hn Hlimit). lia. }
  split.
  { exists (drop n sorted). rewrite take_drop. split; [done|].
    intros t t' Ht Ht'. rewrite <- (take_drop n sorted) in Hsorted.
    by apply (StronglySorted_app_1_elem_of _ _ _ _ _ Hsorted). }
  intros [Hlimit|Hlimit].
  - rewrite <- Htake, (Hneg Hlimit). done.
  - rewrite take_ge; [done|]. rewrite Hperm.
    destruct (decide (0 ≤ limit)) as [Hpos|Hpos]; [rewrite (Hn Hpos)|]; lia.
Qed.

End TaskTable.

Section Execution.
Import Py NmapParser Engine Database Worker.
Context `{!Builtins, !ET.Reader, !Json, !Sqlite}.
Context (config : Config).

Lemma process_scan_result_failed s now result :
  sr_success result = false → _process_scan_result s now result = s.
Proof. unfold _process_scan_result. by intros ->. Qed.

(** X6. [execute_task] on a task of the table. When the database refuses
    to read the task or to mark it running, the exception leaves
    [execute_task] and nothing is written. Otherwise the task is marked
    running with the start instant, the worker runs on the task as it was
    read and its result is reconciled. When the final update is accepted,
    [execute_task] returns the result of the worker and the task is
    completed with no error for a successful result and failed with the
    error of the result otherwise. When it is refused, the handler writes
    the task failed with the text of the exception and returns the dict of
    that error, although the scan may have succeeded; when that update is
    refused too, the exception leaves [execute_task] and the task stays
    running. The other tasks are as before in every case, and a result
    that is not successful changes no other table. *)
Theorem execute_task_outcome s started finished world task_id t :
  get_task s task_id = Some t →
  let s' := (execute_task config s started finished world task_id).1 in
  let outcome := (execute_task config s started finished world task_id).2 in
  let result := _scan_worker config world t in
  let s1 := _process_scan_result (update_task_status s started task_id "running" None)
              finished result in
  let final := UpdateTaskStatus task_id (final_status result).1 (final_status result).2 in
  (∀ msg, statement_error s (SelectTask task_id) = Some msg
          ∨ (statement_error s (SelectTask task_id) = None
             ∧ statement_error s (UpdateTaskStatus task_id "running" None) = Some msg) →
     s' = s ∧ outcome = Raise (mkExn DatabaseError msg))
  ∧ (statement_error s (SelectTask task_id) = None →
     statement_error s (UpdateTaskStatus task_id "running" None) = None →
     sr_task_id result = Some task_id
     ∧ (∀ other, other ≠ task_id → get_task s' other = get_task s other)
     ∧ devices s' = devices s1 ∧ ports s' = ports s1 ∧ events s' = events s1
     ∧ scan_results s' = scan_results s1
     ∧ (sr_success result = false →
          devices s' = devices s ∧ ports s' = ports s ∧ events s' = events s
          ∧ scan_results s' = scan_results s)
     ∧ ∃ t', get_task s' task_id = Some t'
             ∧ tsk_started_at t' = Some started
             ∧ tsk_task_type t' = tsk_task_type t
             ∧ tsk_target t' = tsk_target t
             ∧ tsk_created_at t' = tsk_created_at t
             ∧ (statement_error s1 final = None →
                  outcome = Ok result
                  ∧ tsk_status t' = Some (if sr_success result then "completed" else "failed")
                  ∧ tsk_error t' = (if sr_success result then None else sr_error result)
                  ∧ tsk_completed_at t' = Some finished)
             ∧ (∀ msg, statement_error s1 final = Some msg →
                  statement_error s1 (UpdateTaskStatus task_id "failed" (Some msg)) = None →
                  outcome = Ok (worker_error None msg)
                  ∧ tsk_status t' = Some "failed"
                  ∧ tsk_error t' = Some msg
                  ∧ tsk_completed_at t' = Some finished)
             ∧ (∀ msg msg', statement_error s1 final = Some msg →
                  statement_error s1 (UpdateTaskStatus task_id "failed" (Some msg))
                    = Some msg' →
                  outcome = Raise (mkExn DatabaseError msg')
                  ∧ tsk_status t' = Some "running"
                  ∧ tsk_error t' = tsk_error t
                  ∧ tsk_completed_at t' = tsk_completed_at t)).
Proof.
  intros Ht s' outcome result s1 final. subst s' outcome.
  pose proof (get_task_spec _ _ _ Ht) as [Hid _].
  unfold execute_task, start_task, call. split.
  { intros msg [Hsel|[Hsel Hrun]]; rewrite Hsel; [done|].
    simpl. rewrite Ht, Hrun. done. }
  intros Hsel Hrun. rewrite Hsel. simpl. rewrite Ht, Hrun. simpl.
  fold result.
  set (running := update_task_status s started task_id "running" None) in *.
  assert (∀ id, get_task s1 id
                = (λ t, if decide (tsk_id t = task_id)
                        then set_task_status started "running" None t else t)
                    <$> get_task s id) as Hget.
  { intros id. subst s1. rewrite (get_task_tasks running) by apply process_scan_result_tasks.
    apply get_task_update. }
  assert (sr_success result = false → s1 = running) as Hfailed.
  { intros Hs. subst s1. by apply process_scan_result_failed. }
  split.
  { rewrite <- Hid. apply scan_worker_task_id. }
  unfold finish_task, complete_task, call. fold s1.
  destruct (final_status result) as [status error] eqn:Hfinal. subst final.
  cbn [fst snd].
  destruct (statement_error s1 (UpdateTaskStatus task_id status error)) as [msg|] eqn:Hupd.
  2:{ cbn [fst snd]. split.
      { intros other Hother. rewrite get_task_update, Hget.
        destruct (get_task s other) as [t0|] eqn:Ht0; [|done]. simpl.
        apply get_task_spec in Ht0 as [Hid0 _].
        rewrite (decide_False (P := tsk_id t0 = task_id)) by congruence. simpl.
        by rewrite decide_False by congruence. }
      split; [done|]. split; [done|]. split; [done|]. split; [done|].
      split; [intros Hs; by rewrite (Hfailed Hs)|].
      rewrite get_task_update, Hget, Ht. simpl.
      rewrite (decide_True (P := tsk_id t = task_id)) by exact Hid. simpl.
      rewrite decide_True by exact Hid.
      eexists. split; [done|].
      unfold final_status in Hfinal.
      destruct (sr_success result); injection Hfinal as <- <-; by repeat split. }
  destruct (statement_error s1 (UpdateTaskStatus task_id "failed" (Some msg)))
    as [msg'|] eqn:Hhandler; cbn [fst snd exn_str].
  all: rewrite Hhandler; cbn [fst snd].
  - split.
    { intros other Hother. rewrite Hget.
      destruct (get_task s other) as [t0|] eqn:Ht0; [|done]. simpl.
      apply get_task_spec in Ht0 as [Hid0 _].
      by rewrite decide_False by congruence. }
    split; [done|]. split; [done|]. split; [done|]. split; [done|].
    split; [intros Hs; by rewrite (Hfailed Hs)|].
    rewrite Hget, Ht. simpl. rewrite decide_True by exact Hid.
    eexists. split; [done|]. do 4 (split; [done|]).
    split; [done|]. split; [intros msg0 [= <-]; congruence|].
    intros msg0 msg1 [= <-] Hraised. rewrite Hhandler in Hraised.
    injection Hraised as <-. by repeat split.
  - split.
    { intros other Hother. rewrite get_task_update, Hget.
      destruct (get_task s other) as [t0|] eqn:Ht0; [|done]. simpl.
      apply get_task_spec in Ht0 as [Hid0 _].
      rewrite (decide_False (P := tsk_id t0 = task_id)) by congruence. simpl.
      by rewrite decide_False by congruence. }
    split; [done|]. split; [done|]. split; [done|]. split; [done|].
    split; [intros Hs; by rewrite (Hfailed Hs)|].
    rewrite get_task_update, Hget, Ht. simpl.
    rewrite (decide_True (P := tsk_id t = task_id)) by exact Hid. simpl.
    rewrite decide_True by exact Hid.
    eexists. split; [done|]. do 4 (split; [done|]).
    split; [done|]. split; [|intros msg0 msg1 [= <-]; congruence].
    intros msg0 [= <-] _. by repeat split.
Qed.

Lemma mark_running_tables now (l : list TaskRow) s :
  let s' := foldl (λ s task, update_task_status s now (tsk_id task) "running" None) s l in
  devices s' = devices s ∧ ports s' = ports s ∧ events s' = events s
  ∧ scan_results s' = scan_results s.
Proof.
  revert s. induction l as [|t l IH]; intros s; [done|]. simpl.
  destruct (IH (update_task_status s now (tsk_id t) "running" None))
    as (-> & -> & -> & ->).
  done.
Qed.

Lemma mark_running_get now (l : list TaskRow) s id :
  get_task (foldl (λ s task, update_task_status s now (tsk_id task) "running" None) s l) id
  = (if decide (id ∈ tsk_id <$> l)
     then set_task_status now "running" None <$> get_task s id
     else get_task s id).
Proof.
  revert s. induction l as [|t l IH]; intros s; [done|]. cbn [foldl].
  rewrite IH, get_task_update, fmap_cons.
  destruct (get_task s id) as [t0|] eqn:Ht0; [|by repeat destruct (decide _)].
  apply get_task_spec in Ht0 as [Hid0 _]. cbn [fmap option_fmap option_map].
  destruct (decide (id ∈ tsk_id <$> l)) as [Hin|Hin];
    destruct (decide (id ∈ tsk_id t :: (tsk_id <$> l))) as [Hin'|Hin'];
    destruct (decide (tsk_id t0 = tsk_id t)) as [He|He]; try done.
  all: try (exfalso; apply Hin'; apply elem_of_cons; first [by right | left; congruence]).
  all: apply elem_of_cons in Hin' as [?|?]; [congruence|done].
Qed.

(** X7. [execute_pending_tasks] hands over exactly the tasks that
    [get_pending_tasks] returns, as they were read, and marks each of them
    running with the current instant as its start; every task it does not
    hand over, and every other table, is as before. *)
Theorem execute_pending_tasks_marks s now limit :
  let s' := (execute_pending_tasks s now limit).1 in
  let submitted := (execute_pending_tasks s now limit).2 in
  submitted = get_pending_tasks s now limit
  ∧ Forall (λ task, tsk_status task = Some "pending"
                    ∧ ∃ t', get_task s' (tsk_id task) = Some t'
                            ∧ tsk_status t' = Some "running"
                            ∧ tsk_started_at t' = Some now) submitted
  ∧ (∀ id, id ∉ tsk_id <$> submitted → get_task s' id = get_task s id)
  ∧ devices s' = devices s ∧ ports s' = ports s ∧ events s' = events s
  ∧ scan_results s' = scan_results s.
Proof.
  intros s' submitted. subst s' submitted. unfold execute_pending_tasks. simpl.
  split; [done|]. split.
  - apply Forall_forall. intros task Hin.
    pose proof (get_pending_tasks_due s now limit) as Hall.
    apply (proj1 (Forall_forall _ _) Hall) in Hin as Hp. destruct Hp as (Hrow & Hst & _).
    split; [done|]. rewrite mark_running_get.
    rewrite decide_True by (apply list_elem_of_fmap; by exists task).
    destruct (get_task_elem_of _ _ Hrow) as [t0 Ht0]. rewrite Ht0. simpl.
    eexists. split; [done|]. by split.
  - split; [|apply mark_running_tables].
    intros id Hid. rewrite mark_running_get. by rewrite decide_False.
Qed.

(** When the database refuses no statement, a call of
    [execute_pending_tasks] leaves what the method does. *)
Lemma submit_pending_accepted s now (l : list TaskRow) :
  (∀ s0 stmt, statement_error s0 stmt = None) →
  submit_pending s now l
  = (foldl (λ s task, update_task_status s now (tsk_id task) "running" None) s l, l).
Proof.
  intros Haccepted. revert s. induction l as [|t l IH]; intros s; [done|].
  simpl. unfold call. rewrite Haccepted. by rewrite IH.
Qed.

Lemma call_execute_pending_tasks_accepted s now limit :
  (∀ s0 stmt, statement_error s0 stmt = None) →
  call_execute_pending_tasks s now limit = execute_pending_tasks s now limit.
Proof.
  intros Haccepted. unfold call_execute_pending_tasks, execute_pending_tasks, call.
  rewrite Haccepted. by apply submit_pending_accepted.
Qed.

End Execution.

Section Constraints.
Import Py NmapParser Engine Database Worker Scheduler.
Context `{!Builtins, !ET.Reader, !Json, !Sqlite}.
Context (config : Config).

Lemma NoDup_next_rowid (ids : list Z) : NoDup ids → NoDup (ids ++ [next_rowid ids]).
Proof.
  intros Hnd. apply NoDup_app. split; [done|]. split; [|apply NoDup_singleton].
  intros x Hx Hk. apply list_elem_of_singleton in Hk. subst x.
  by apply (next_rowid_fresh ids).
Qed.

Lemma execute_cases s stmt effect :
  (∃ id, execute s stmt effect = Ok (effect, id)) ∨ (∃ e, execute s stmt effect = Raise e).
Proof. unfold execute. destruct (statement_error s stmt); [right|left]; by eexists. Qed.

(** *** The devices table *)

Lemma update_device_ids now p (l : list DeviceRow) :
  dev_id <$> ((λ r, if decide (device_conflict p r) then update_device now p r else r) <$> l)
  = dev_id <$> l.
Proof.
  rewrite <- list_fmap_compose. apply list_fmap_ext. intros i r _. simpl.
  by destruct (decide _).
Qed.

Lemma upsert_device_well_formed now p s :
  well_formed s → well_formed (upsert_device now p s).
Proof.
  intros (Hd & Hip & Hp & Hk & He & Hr & Ht).
  pose proof (unique_addresses_upsert now p s Hip) as Hip'.
  split; [|split; [done|]].
  - unfold upsert_device. destruct (decide (Exists _ _)); simpl.
    + by rewrite update_device_ids.
    + rewrite fmap_app. by apply NoDup_next_rowid.
  - unfold upsert_device, unique_ports. by destruct (decide (Exists _ _)).
Qed.

(** *** The ports table *)

Lemma update_port_ids now p (l : list PortRow) :
  prt_id <$> ((λ r, if decide (port_conflict p r) then update_port now p r else r) <$> l)
  = prt_id <$> l.
Proof.
  rewrite <- list_fmap_compose. apply list_fmap_ext. intros i r _. simpl.
  by destruct (decide _).
Qed.

Lemma update_port_keys now p (l : list PortRow) :
  omap port_row_key
       ((λ r, if decide (port_conflict p r) then update_port now p r else r) <$> l)
  = omap port_row_key l.
Proof.
  induction l as [|x l IH]; [done|]. csimpl.
  rewrite IH. by destruct (decide (port_conflict p x)).
Qed.

Lemma port_conflict_key now id p r :
  port_row_key r = port_row_key (new_port now id p) →
  is_Some (port_row_key r) → port_conflict p r.
Proof.
  unfold port_row_key, port_conflict. simpl.
  destruct (prt_device_id r), (prt_port_number r), (prt_protocol r),
    (pp_device_id p), (pp_port_number p), (pp_protocol p); simpl;
    intros Heq [k Hk]; try done.
  injection Heq as -> -> ->. by repeat split.
Qed.

Lemma upsert_port_well_formed now p s :
  well_formed s → well_formed (upsert_port now p s).
Proof.
  intros (Hd & Hip & Hp & Hk & He & Hr & Ht).
  unfold well_formed, unique_addresses, unique_ports, upsert_port.
  destruct (decide (Exists _ _)) as [Hex|Hex]; simpl.
  - by rewrite update_port_ids, update_port_keys.
  - rewrite fmap_app, omap_app. simpl.
    split; [done|]. split; [done|]. split; [by apply NoDup_next_rowid|].
    split; [|done].
    destruct (port_row_key (new_port now (next_rowid (prt_id <$> ports s)) p))
      as [k|] eqn:Hkey; [|by rewrite app_nil_r].
    apply NoDup_app. split; [done|]. split; [|apply NoDup_singleton].
    intros x Hx Hx'. apply list_elem_of_singleton in Hx'. subst x. apply Hex.
    apply list_elem_of_omap in Hx as (r & Hr0 & Hrk).
    apply Exists_exists. exists r. split; [done|].
    eapply port_conflict_key; [by rewrite Hkey|by rewrite Hrk].
Qed.

(** *** The other tables *)

Lemma insert_event_well_formed now p s :
  well_formed s → well_formed (insert_event now p s).
Proof.
  intros (Hd & Hip & Hp & Hk & He & Hr & Ht).
  unfold well_formed, unique_addresses, unique_ports, insert_event. simpl.
  rewrite fmap_app. repeat split; try done. by apply NoDup_next_rowid.
Qed.

Lemma insert_scan_result_well_formed now r s :
  well_formed s → well_formed (insert_scan_result now r s).
Proof.
  intros (Hd & Hip & Hp & Hk & He & Hr & Ht).
  unfold well_formed, unique_addresses, unique_ports, insert_scan_result. simpl.
  rewrite fmap_app. repeat split; try done. by apply NoDup_next_rowid.
Qed.

Lemma create_scan_task_well_formed now task_data s :
  well_formed s → well_formed (create_scan_task s now task_data).1.
Proof.
  intros (Hd & Hip & Hp & Hk & He & Hr & Ht).
  unfold well_formed, unique_addresses, unique_ports, create_scan_task. simpl.
  rewrite fmap_app. repeat split; try done. by apply NoDup_next_rowid.
Qed.

Lemma update_task_status_well_formed now task_id status error s :
  well_formed s → well_formed (update_task_status s now task_id status error).
Proof.
  intros (Hd & Hip & Hp & Hk & He & Hr & Ht).
  unfold well_formed, unique_addresses, unique_ports, update_task_status. simpl.
  repeat split; try done.
  assert (tsk_id <$> ((λ t, if decide (tsk_id t = task_id)
                            then set_task_status now status error t else t)
                        <$> scan_tasks s) = tsk_id <$> scan_tasks s) as ->; [|done].
  rewrite <- list_fmap_compose. apply list_fmap_ext. intros i t _. simpl.
  by destruct (decide _).
Qed.

(** *** Reconciliation and execution *)

Lemma process_port_well_formed now device_id s port :
  well_formed s → well_formed (process_port now device_id s port).
Proof.
  intros Hwf. unfold process_port.
  destruct (port_data_of device_id port) as [port_data|e]; [|done]. simpl.
  unfold add_port.
  destruct (execute_cases s (InsertPort (port_params port_data))
              (upsert_port now (port_params port_data) s)) as [[id ->]|[e ->]]; [|done].
  by apply upsert_port_well_formed.
Qed.

Lemma process_ports_well_formed now device_id ports s :
  well_formed s → well_formed (foldl (process_port now device_id) s ports).
Proof.
  revert s. induction ports as [|port ports IH]; intros s Hwf; [done|].
  simpl. apply IH. by apply process_port_well_formed.
Qed.

Lemma process_device_well_formed now s device_data :
  well_formed s → well_formed (process_device now s device_data).1.
Proof.
  intros Hwf. unfold process_device, add_device.
  destruct (execute_cases s (InsertDevice (device_params device_data))
              (upsert_device now (device_params device_data) s)) as [[id ->]|[e ->]];
    [|done].
  pose proof (upsert_device_well_formed now (device_params device_data) s Hwf) as Hwf1.
  destruct (get_default (dd_metadata device_data) empty_metadata) as [metadata|]; [|done].
  pose proof (process_ports_well_formed now id (default [] (md_ports metadata)) _ Hwf1)
    as Hwf2.
  unfold create_event.
  match goal with
  | |- context [execute ?s0 ?stmt ?effect] =>
      destruct (execute_cases s0 stmt effect) as [[id' ->]|[e ->]]; [|done]
  end.
  by apply insert_event_well_formed.
Qed.

Lemma process_devices_well_formed now batch s :
  well_formed s → well_formed (process_devices now s batch).
Proof.
  revert s. induction batch as [|d batch IH]; intros s Hwf; [done|].
  apply IH. by apply process_device_well_formed.
Qed.

Lemma process_scan_result_well_formed s now result :
  well_formed s → well_formed (_process_scan_result s now result).
Proof.
  intros Hwf. unfold _process_scan_result. destruct (negb _); [done|].
  unfold save_scan_result.
  match goal with
  | |- context [execute ?s0 ?stmt ?effect] =>
      destruct (execute_cases s0 stmt effect) as [[id' ->]|[e ->]]; [|done]
  end.
  apply process_devices_well_formed. by apply insert_scan_result_well_formed.
Qed.

Lemma mark_running_well_formed now (l : list TaskRow) s :
  well_formed s →
  well_formed (foldl (λ s task, update_task_status s now (tsk_id task) "running" None) s l).
Proof.
  revert s. induction l as [|t l IH]; intros s Hwf; [done|].
  simpl. apply IH. by apply update_task_status_well_formed.
Qed.

Lemma step_well_formed sys st sys' :
  well_formed (store sys) → step config sys st = Some sys' → well_formed (store sys').
Proof.
  intros Hwf. destruct st as [now target scan_type run_date|now target scan_type|now
                             |now limit|i now|i now world]; unfold step.
  - unfold schedule_one_time_scan.
    pose proof (create_scan_task_well_formed now
                  (pending_task target scan_type (Some (isoformat run_date))) _ Hwf)
      as Hwf'.
    match goal with
    | |- context [call ?s0 ?stmt ?outcome] =>
        destruct (call_cases s0 stmt outcome) as [->|[e ->]]
    end; [|by intros [= <-]].
    destruct (create_scan_task _ _ _) as [s task_id]. by intros [= <-].
  - pose proof (create_scan_task_well_formed now (pending_task target scan_type None)
                  _ Hwf) as Hwf'.
    match goal with
    | |- context [call ?s0 ?stmt ?outcome] =>
        destruct (call_cases s0 stmt outcome) as [->|[e ->]]
    end; [|by intros [= <-]].
    destruct (create_scan_task _ _ _) as [s task_id]. by intros [= <-].
  - match goal with
    | |- context [call ?s0 ?stmt ?outcome] =>
        destruct (call_cases s0 stmt outcome) as [->|[e ->]]
    end; by intros [= <-].
  - destruct (call_execute_pending_tasks_prefix (store sys) now limit) as [n ->].
    intros [= <-]. by apply mark_running_well_formed.
  - destruct (jobs sys !! i) as [j|]; [|done]. cbn [mbind option_bind].
    destruct (enter (store sys) now j) as [[s j']|] eqn:Henter; [|done].
    cbn [mbind option_bind]. intros [= <-]. cbn [store].
    apply enter_cases in Henter
      as (task_id & sweep & _
          & [(task_data & _ & -> & _)|[[-> _]|(todo & error & _ & -> & _)]]);
      [|done|]; by apply update_task_status_well_formed.
  - destruct (jobs sys !! i) as [j|]; [|done]. cbn [mbind option_bind].
    destruct (return_ config (store sys) now world j) as [[s j']|] eqn:Hret; [|done].
    cbn [mbind option_bind]. intros [= <-]. cbn [store].
    apply return_cases in Hret as (task_data & _ & _ & Hstore). cbv zeta in Hstore.
    destruct Hstore as [->|(status & error & _ & ->)];
      [|apply update_task_status_well_formed]; by apply process_scan_result_well_formed.
Qed.

Lemma run_well_formed sys steps trace :
  well_formed (store sys) → run config sys steps = Some trace →
  Forall (λ sys', well_formed (store sys')) trace.
Proof.
  revert sys trace. induction steps as [|st steps IH]; intros sys trace Hwf; simpl.
  - intros [= <-]. apply Forall_cons_2; [done|apply Forall_nil_2].
  - destruct (step config sys st) as [sys'|] eqn:Hstep; [|done]. simpl.
    destruct (run config sys' steps) as [trace'|] eqn:Hrun; [|done]. simpl.
    intros [= <-]. constructor; [done|].
    eapply IH; [|done]. by eapply step_well_formed.
Qed.

(** X8. In every system that the operations of the scheduler and of the
    orchestrator lead to from the empty database, the tables satisfy
    their constraints: the ids of each table are distinct, no two devices
    have the same address and no two ports the same device, number and
    protocol. *)
Theorem reachable_well_formed sys :
  reachable config sys → well_formed (store sys).
Proof.
  intros (steps & trace & Hrun & Hlast).
  assert (well_formed (store initial)) as Hinit.
  { unfold well_formed, unique_addresses, unique_ports. simpl.
    repeat split; apply NoDup_nil_2. }
  pose proof (run_well_formed _ _ _ Hinit Hrun) as Hall.
  apply last_Some in Hlast as [trace' ->].
  apply Forall_app in Hall as [_ Hall]. by apply Forall_inv in Hall.
Qed.

End Constraints.

Section Growth.
Import Py NmapParser Engine Database Worker Scheduler.
Context `{!Builtins, !ET.Reader, !Json, !Sqlite}.
Context (config : Config).

Lemma grows_refl s : grows s s.
Proof. by repeat split. Qed.

Lemma grows_trans s1 s2 s3 : grows s1 s2 → grows s2 s3 → grows s1 s3.
Proof.
  intros (Hd & Hp & He & Hr) (Hd' & Hp' & He' & Hr').
  repeat split; by etrans.
Qed.

Lemma grows_same s s' :
  devices s' = devices s → ports s' = ports s → events s' = events s →
  scan_results s' = scan_results s → grows s s'.
Proof. intros Hd Hp He Hr. unfold grows. by rewrite Hd, Hp, He, Hr. Qed.

Lemma upsert_device_grows now p s : grows s (upsert_device now p s).
Proof.
  unfold grows, upsert_device. destruct (decide (Exists _ _)); simpl.
  - split; [|done].
    assert (device_identity
              <$> ((λ r, if decide (device_conflict p r) then update_device now p r else r)
                     <$> devices s)
            = device_identity <$> devices s) as ->; [|done].
    rewrite <- list_fmap_compose. apply list_fmap_ext. intros i r _. simpl.
    by destruct (decide _).
  - split; [|done]. rewrite fmap_app. by apply prefix_app_r.
Qed.

Lemma upsert_port_grows now p s : grows s (upsert_port now p s).
Proof.
  unfold grows, upsert_port. destruct (decide (Exists _ _)); simpl.
  - split; [done|]. split; [|done].
    assert (port_identity
              <$> ((λ r, if decide (port_conflict p r) then update_port now p r else r)
                     <$> ports s)
            = port_identity <$> ports s) as ->; [|done].
    rewrite <- list_fmap_compose. apply list_fmap_ext. intros i r _. simpl.
    by destruct (decide _).
  - split; [done|]. split; [|done]. rewrite fmap_app. by apply prefix_app_r.
Qed.

Lemma insert_event_grows now p s : grows s (insert_event now p s).
Proof. unfold grows, insert_event. simpl. repeat split; try done. by apply prefix_app_r. Qed.

Lemma insert_scan_result_grows now r s : grows s (insert_scan_result now r s).
Proof.
  unfold grows, insert_scan_result. simpl. repeat split; try done. by apply prefix_app_r.
Qed.

Lemma process_port_grows now device_id s port :
  grows s (process_port now device_id s port).
Proof.
  unfold process_port.
  destruct (port_data_of device_id port) as [port_data|e]; [|apply grows_refl]. simpl.
  unfold add_port.
  destruct (execute_cases s (InsertPort (port_params port_data))
              (upsert_port now (port_params port_data) s)) as [[id ->]|[e ->]];
    [apply upsert_port_grows|apply grows_refl].
Qed.

Lemma process_ports_grows now device_id ports s :
  grows s (foldl (process_port now device_id) s ports).
Proof.
  revert s. induction ports as [|port ports IH]; intros s; [apply grows_refl|].
  simpl. eapply grows_trans; [apply process_port_grows|apply IH].
Qed.

Lemma process_device_grows now s device_data :
  grows s (process_device now s device_data).1.
Proof.
  unfold process_device, add_device.
  destruct (execute_cases s (InsertDevice (device_params device_data))
              (upsert_device now (device_params device_data) s)) as [[id ->]|[e ->]];
    [|apply grows_refl].
  eapply grows_trans; [apply upsert_device_grows|].
  destruct (get_default (dd_metadata device_data) empty_metadata) as [metadata|];
    [|apply grows_refl].
  eapply grows_trans; [apply (process_ports_grows now id (default [] (md_ports metadata)))|].
  unfold create_event.
  match goal with
  | |- context [execute ?s0 ?stmt ?effect] =>
      destruct (execute_cases s0 stmt effect) as [[id' ->]|[e ->]];
        [apply insert_event_grows|apply grows_refl]
  end.
Qed.

Lemma process_devices_grows now batch s : grows s (process_devices now s batch).
Proof.
  revert s. induction batch as [|d batch IH]; intros s; [apply grows_refl|].
  eapply grows_trans; [apply (process_device_grows now s d)|apply IH].
Qed.

Lemma process_scan_result_grows s now result :
  grows s (_process_scan_result s now result).
Proof.
  unfold _process_scan_result. destruct (negb _); [apply grows_refl|].
  unfold save_scan_result.
  match goal with
  | |- context [execute ?s0 ?stmt ?effect] =>
      destruct (execute_cases s0 stmt effect) as [[id' ->]|[e ->]]; [|apply grows_refl]
  end.
  eapply grows_trans; [apply insert_scan_result_grows|apply process_devices_grows].
Qed.

Lemma update_task_status_grows s now task_id status error :
  grows s (update_task_status s now task_id status error).
Proof. by apply grows_same. Qed.

Lemma create_scan_task_grows s now task_data :
  grows s (create_scan_task s now task_data).1.
Proof. by apply grows_same. Qed.

Lemma mark_running_grows now (l : list TaskRow) s :
  grows s (foldl (λ s task, update_task_status s now (tsk_id task) "running" None) s l).
Proof.
  revert s. induction l as [|t l IH]; intros s; [apply grows_refl|].
  simpl. eapply grows_trans; [apply update_task_status_grows|apply IH].
Qed.

(** X9. No step of the scheduler or of the orchestrator removes or moves
    a row of the inventory or of the history: every device keeps its id,
    its address, its first_seen and its place in the table, every port its
    id and its key, every event and every scan result is kept as it is,
    and new rows come after the old ones. *)
Theorem step_grows sys st sys' :
  step config sys st = Some sys' → grows (store sys) (store sys').
Proof.
  destruct st as [now target scan_type run_date|now target scan_type|now
                 |now limit|i now|i now world]; unfold step.
  - unfold schedule_one_time_scan.
    pose proof (create_scan_task_grows (store sys) now
                  (pending_task target scan_type (Some (isoformat run_date)))) as Hg.
    match goal with
    | |- context [call ?s0 ?stmt ?outcome] =>
        destruct (call_cases s0 stmt outcome) as [->|[e ->]]
    end; [|intros [= <-]; apply grows_refl].
    destruct (create_scan_task _ _ _) as [s task_id]. by intros [= <-].
  - pose proof (create_scan_task_grows (store sys) now
                  (pending_task target scan_type None)) as Hg.
    match goal with
    | |- context [call ?s0 ?stmt ?outcome] =>
        destruct (call_cases s0 stmt outcome) as [->|[e ->]]
    end; [|intros [= <-]; apply grows_refl].
    destruct (create_scan_task _ _ _) as [s task_id]. by intros [= <-].
  - match goal with
    | |- context [call ?s0 ?stmt ?outcome] =>
        destruct (call_cases s0 stmt outcome) as [->|[e ->]]
    end; intros [= <-]; apply grows_refl.
  - destruct (call_execute_pending_tasks_prefix (store sys) now limit) as [n ->].
    intros [= <-]. apply mark_running_grows.
  - destruct (jobs sys !! i) as [j|]; [|done]. cbn [mbind option_bind].
    destruct (enter (store sys) now j) as [[s j']|] eqn:Henter; [|done].
    cbn [mbind option_bind]. intros [= <-]. cbn [store].
    apply enter_cases in Henter
      as (task_id & sweep & _
          & [(task_data & _ & -> & _)|[[-> _]|(todo & error & _ & -> & _)]]);
      [|apply grows_refl|]; apply update_task_status_grows.
  - destruct (jobs sys !! i) as [j|]; [|done]. cbn [mbind option_bind].
    destruct (return_ config (store sys) now world j) as [[s j']|] eqn:Hret; [|done].
    cbn [mbind option_bind]. intros [= <-]. cbn [store].
    apply return_cases in Hret as (task_data & _ & _ & Hstore). cbv zeta in Hstore.
    destruct Hstore as [->|(status & error & _ & ->)];
      [|eapply grows_trans; [|apply update_task_status_grows]];
      apply process_scan_result_grows.
Qed.

End Growth.

Section ParsedHosts.
Import Py NmapParser.
Context `{!Builtins, !ET.Reader}.

Lemma parse_host_status host_elem :
  ET.find host_elem "status" = None → _parse_host host_elem = Ok None.
Proof. unfold _parse_host. by intros ->. Qed.

Lemma parse_host_Some host_elem host :
  _parse_host host_elem = Ok (Some host) →
  ∃ status_elem os_info,
    ET.find host_elem "status" = Some status_elem
    ∧ _parse_os host_elem = Ok os_info
    ∧ host_status host = Some (ET.get_default status_elem "state" "unknown")
    ∧ host_ip_address host = a_ip_address (_parse_addresses host_elem)
    ∧ host_mac_address host = a_mac_address (_parse_addresses host_elem)
    ∧ host_vendor host = a_vendor (_parse_addresses host_elem)
    ∧ host_hostname host = head (_parse_hostnames host_elem)
    ∧ host_os host = os_info
    ∧ host_ports host = nonempty (_parse_ports host_elem).
Proof.
  unfold _parse_host. destruct (ET.find host_elem "status") as [status_elem|]; [|done].
  destruct (_parse_os host_elem) as [os_info|e]; [|done]. simpl.
  intros [= <-]. exists status_elem, os_info. by repeat split.
Qed.

Lemma parse_host_None host_elem :
  _parse_host host_elem = Ok None → ET.find host_elem "status" = None.
Proof.
  unfold _parse_host. destruct (ET.find host_elem "status") as [status_elem|]; [|done].
  by destruct (_parse_os host_elem).
Qed.

(** X10. When [parse_xml] returns a run, its hosts are, in document
    order, those of the host elements of the root that have a status
    element, one host for each; a host element without one is left out.
    The host carries the state of that element (unknown when the attribute
    is missing), the addresses and the first host name of its element, and
    its ports when there are any. *)
Theorem parse_xml_hosts xml_output root scan_info hosts run_stats up down total :
  ET.fromstring xml_output = Ok root →
  parse_xml xml_output = PRun scan_info hosts run_stats up down total →
  Forall2 (λ host_elem host,
             ∃ status_elem,
               ET.find host_elem "status" = Some status_elem
               ∧ host_status host = Some (ET.get_default status_elem "state" "unknown")
               ∧ host_ip_address host = a_ip_address (_parse_addresses host_elem)
               ∧ host_mac_address host = a_mac_address (_parse_addresses host_elem)
               ∧ host_vendor host = a_vendor (_parse_addresses host_elem)
               ∧ host_hostname host = head (_parse_hostnames host_elem)
               ∧ host_ports host = nonempty (_parse_ports host_elem))
          (filter (λ host_elem, is_Some (ET.find host_elem "status"))
                  (ET.findall root "host"))
          hosts
  ∧ scan_info = _parse_scan_info root
  ∧ _parse_run_stats root = Ok run_stats
  ∧ up = default 0 (rs_hosts_up run_stats)
  ∧ down = default 0 (rs_hosts_down run_stats)
  ∧ total = default 0 (rs_hosts_total run_stats).
Proof.
  intros Hroot Hparse.
  destruct (parse_xml_all_or_nothing xml_output) as [[error Herr]|Hdoc];
    [by rewrite Herr in Hparse|].
  rewrite Hparse in Hdoc. unfold parse_document in Hdoc. rewrite Hroot in Hdoc.
  simpl in Hdoc.
  destruct (mapM _parse_host (ET.findall root "host")) as [host_data|e] eqn:Hhosts;
    [|done].
  simpl in Hdoc. destruct (_parse_run_stats root) as [stats|e]; [|done].
  simpl in Hdoc. injection Hdoc as <- <- <- <- <- <-. split; [|done].
  apply mapM_Ok in Hhosts. clear Hparse Hroot.
  induction Hhosts as [|host_elem o elems host_data Hh _ IH]; [constructor|].
  rewrite filter_cons. destruct o as [host|]; simpl.
  - apply parse_host_Some in Hh
      as (status_elem & os_info & Hst & _ & ? & ? & ? & ? & ? & _ & ?).
    rewrite decide_True by (by rewrite Hst). constructor; [|done].
    by exists status_elem.
  - apply parse_host_None in Hh. rewrite decide_False; [done|].
    rewrite Hh. by intros [? ?].
Qed.

Lemma mapM_Raise {A B} (f : A → result B) (l : list A) x e :
  x ∈ l → f x = Raise e → ∃ y e', y ∈ l ∧ f y = Raise e' ∧ mapM f l = Raise e'.
Proof.
  intros Hin Hx. induction l as [|z l IH]; [by apply elem_of_nil in Hin|].
  simpl. destruct (f z) as [b|e'] eqn:Hz.
  - apply elem_of_cons in Hin as [->|Hin]; [congruence|].
    destruct (IH Hin) as (y & e' & Hy & Hfy & ->).
    exists y, e'. split; [by right|]. by split.
  - exists z, e'. split; [by left|]. by split.
Qed.

Lemma mapM_Raise_inv {A B} (f : A → result B) (l : list A) e :
  mapM f l = Raise e → ∃ y, y ∈ l ∧ f y = Raise e.
Proof.
  induction l as [|z l IH]; [done|]. simpl.
  destruct (f z) as [b|e'] eqn:Hz; simpl.
  - destruct (mapM f l) as [k|e'']; [done|]. simpl. intros [= ->].
    destruct (IH eq_refl) as (y & Hy & Hfy). exists y. split; [by right|done].
  - intros [= ->]. exists z. split; [by left|done].
Qed.

Lemma parse_os_Raise host_elem e :
  _parse_os host_elem = Raise e → ∃ s, int s = None ∧ e = mkExn ValueError (int_error s).
Proof.
  unfold _parse_os. destruct (ET.find host_elem "os") as [os_elem|]; [|done].
  destruct (parse_osmatch <$> ET.findall os_elem "osmatch") as [|m matches] eqn:Hm; [done|].
  rewrite <- Hm. unfold best_match_of.
  destruct (mapM _ _) as [keys|e'] eqn:Hkeys; [done|]. simpl. intros [= ->].
  apply mapM_Raise_inv in Hkeys as (y & Hy & Hfy).
  apply list_elem_of_fmap in Hy as (match_elem & -> & _). simpl in Hfy.
  destruct (int (ET.get_default match_elem "accuracy" EmptyString)) eqn:Hint; [done|].
  injection Hfy as <-. by eexists.
Qed.

Lemma parse_host_Raise host_elem e :
  _parse_host host_elem = Raise e → ∃ s, int s = None ∧ e = mkExn ValueError (int_error s).
Proof.
  unfold _parse_host. destruct (ET.find host_elem "status"); [|done].
  destruct (_parse_os host_elem) as [os_info|e'] eqn:Hos; [done|]. simpl.
  intros [= ->]. by apply parse_os_Raise in Hos.
Qed.

(** X11. One OS match, of any host element that has a status, whose
    accuracy does not read as an integer (a missing attribute reads as the
    empty text) makes [parse_xml] return an error dict for the whole
    document, with the text of the ValueError of [int] for the first such
    accuracy: no host of the document is returned and no device is
    extracted. *)
Theorem parse_xml_unreadable_accuracy xml_output root host_elem os_elem match_elem :
  xml_output ≠ EmptyString →
  ET.fromstring xml_output = Ok root →
  host_elem ∈ ET.findall root "host" →
  is_Some (ET.find host_elem "status") →
  ET.find host_elem "os" = Some os_elem →
  match_elem ∈ ET.findall os_elem "osmatch" →
  int (ET.get_default match_elem "accuracy" EmptyString) = None →
  ∃ s, int s = None
       ∧ parse_xml xml_output = PError ("Error parsing XML: " +:+ int_error s)
       ∧ hosts_of (parse_xml xml_output) = []
       ∧ extract_devices (parse_xml xml_output) = Ok [].
Proof.
  intros Hne Hroot Hhost [status_elem Hstatus] Hos Hmatch Hint.
  assert (∃ e, _parse_host host_elem = Raise e) as [e He].
  { unfold _parse_host, _parse_os. rewrite Hstatus, Hos.
    assert (parse_osmatch match_elem ∈ parse_osmatch <$> ET.findall os_elem "osmatch")
      as Hin by (apply list_elem_of_fmap; by exists match_elem).
    destruct (parse_osmatch <$> ET.findall os_elem "osmatch") as [|m matches] eqn:Hm;
      [by apply elem_of_nil in Hin|].
    unfold best_match_of.
    destruct (mapM_Raise (λ m, int_field (om_accuracy m)) (m :: matches)
                (parse_osmatch match_elem)
                (mkExn ValueError
                       (int_error (ET.get_default match_elem "accuracy" EmptyString)))
                Hin) as (y & e' & _ & _ & ->).
    { simpl. by rewrite Hint. }
    by eexists. }
  destruct (mapM_Raise _parse_host _ _ _ Hhost He) as (y & e' & _ & Hy & Hall).
  apply parse_host_Raise in Hy as (s & Hs & ->). exists s. split; [done|].
  assert (parse_xml xml_output = PError ("Error parsing XML: " +:+ int_error s)) as ->.
  { unfold parse_xml, parse_document. rewrite (truthy_nonempty _ Hne), Hroot. simpl.
    by rewrite Hall. }
  by repeat split.
Qed.

(** X12. Of the address elements of a host, the last one of each type
    gives the address: the IPv4 address, the IPv6 address and the MAC are
    the [addr] of the last element of type ipv4, ipv6 and mac; an element
    of another type is ignored. The vendor is that of the last MAC element
    that names one, which need not be the element of the MAC itself. *)
Theorem parse_addresses_last host_elem :
  let of_type addrtype :=
    filter (λ e, ET.get_default e "addrtype" "unknown" = addrtype)
           (ET.findall host_elem "address") in
  let addr e := ET.get_default e "addr" EmptyString in
  let addresses := _parse_addresses host_elem in
  a_ip_address addresses = addr <$> last (of_type "ipv4")
  ∧ a_ipv6_address addresses = addr <$> last (of_type "ipv6")
  ∧ a_mac_address addresses = addr <$> last (of_type "mac")
  ∧ a_vendor addresses
    = last (filter (λ vendor, vendor ≠ EmptyString)
                   ((λ e, ET.get_default e "vendor" EmptyString) <$> of_type "mac")).
Proof.
  intros of_type addr addresses. subst of_type addr addresses.
  unfold _parse_addresses.
  induction (ET.findall host_elem "address") as [|addr_elem elems IH] using rev_ind;
    [done|].
  rewrite foldl_app. cbn [foldl]. destruct IH as (IH4 & IH6 & IHm & IHv).
  match goal with
  | H : a_ip_address ?x = _ |- _ => set (acc := x) in *
  end.
  rewrite !filter_app, fmap_app, !filter_app, !last_app, !filter_cons, !filter_nil.
  cbn beta.
  set (addrtype := ET.get_default addr_elem "addrtype" "unknown").
  destruct (decide (addrtype = "ipv4")) as [H4|H4].
  { rewrite H4. simpl. by repeat split. }
  rewrite (bool_decide_eq_false_2 _ H4).
  destruct (decide (addrtype = "ipv6")) as [H6|H6].
  { rewrite H6. simpl. by repeat split. }
  rewrite (bool_decide_eq_false_2 _ H6).
  destruct (decide (addrtype = "mac")) as [Hm|Hm].
  - rewrite Hm. simpl. repeat split; try done.
    destruct (ET.get_default addr_elem "vendor" EmptyString) as [|c v] eqn:Hv; simpl.
    + done.
    + done.
  - rewrite (bool_decide_eq_false_2 _ Hm).
    simpl. by repeat split.
Qed.

End ParsedHosts.

Section ClassifierDefaults.
Import Py NmapParser DeviceRecognition.
Context `{!Builtins}.

Lemma intersection_nonempty (X Y : gset Z) :
  X ∩ Y ≠ ∅ ↔ ∃ n, n ∈ X ∧ n ∈ Y.
Proof.
  split.
  - intros Hne. apply set_choose_L in Hne as [n Hn].
    apply elem_of_intersection in Hn. by exists n.
  - intros (n & HX & HY) Hempty.
    assert (n ∈ X ∩ Y) as Hn by (by apply elem_of_intersection).
    rewrite Hempty in Hn. by apply not_elem_of_empty in Hn.
Qed.

(** X13. When no rule scores above zero, the device type comes from the
    OS name and family alone and is one of workstation, server, mobile and
    unknown: workstation when either mentions windows; otherwise, when
    either mentions linux, unix or bsd, server if one of the ports 22, 80,
    443, 3306, 5432, 6379 and 8080 is open and workstation if none is;
    otherwise mobile when the name mentions android or ios; unknown in
    every other case. *)
Theorem classify_device_by_os (rules : Rules) device_data ports open_ports services :
  NoDup rules.*1 →
  metadata_ports device_data = Ok ports →
  collect_open_ports ports = Ok open_ports →
  collect_services ports = Ok services →
  Forall (λ rule, rule_score open_ports services (keyword_text device_data) rule.2 ≤ 0)
         rules →
  let os_name := lower (or_empty (dd_os_name device_data)) in
  let os_family := lower (or_empty (dd_os_family device_data)) in
  let windows := contains "windows" os_name || contains "windows" os_family in
  let unix_like := existsb (λ x, contains x os_name || contains x os_family)
                           ["linux"; "unix"; "bsd"] in
  ∃ device_type,
    classify_device rules device_data = Ok device_type
    ∧ device_type ∈ ["workstation"; "server"; "mobile"; "unknown"]
    ∧ (device_type = "server" ↔
         windows = false ∧ unix_like = true
         ∧ ∃ n, n ∈ server_ports ∧ open_on ports n)
    ∧ (device_type = "workstation" ↔
         windows = true
         ∨ (unix_like = true ∧ ¬ ∃ n, n ∈ server_ports ∧ open_on ports n))
    ∧ (device_type = "mobile" ↔
         windows = false ∧ unix_like = false
         ∧ (contains "android" os_name || contains "ios" os_name) = true).
Proof.
  intros Hnd Hports Hopen Hsvc Hscores os_name os_family windows unix_like.
  assert (score_rules rules open_ports services (keyword_text device_data) = []) as Hnone.
  { rewrite score_rules_filter by done.
    induction Hscores as [|rule l Hrule _ IH]; [done|].
    rewrite fmap_cons, filter_cons. simpl.
    rewrite decide_False by lia. apply IH. by apply NoDup_cons in Hnd as [_ ?]. }
  assert (open_ports ∩ server_ports ≠ ∅ ↔ ∃ n, n ∈ server_ports ∧ open_on ports n)
    as Hserver.
  { rewrite intersection_nonempty. split; intros (n & H1 & H2); exists n.
    - split; [done|]. by apply (collect_open_ports_spec ports open_ports Hopen).
    - split; [|done]. by apply (collect_open_ports_spec ports open_ports Hopen). }
  exists (classify_by_os os_name os_family open_ports). split.
  { unfold classify_device. rewrite Hports. simpl. rewrite Hopen. simpl.
    rewrite Hsvc. simpl. by rewrite Hnone. }
  unfold classify_by_os. fold windows. fold unix_like.
  destruct windows, unix_like; simpl.
  all: try (destruct (contains "android" os_name || contains "ios" os_name); simpl).
  all: try case_bool_decide as Hp.
  all: (split; [set_solver|]).
  all: repeat split; try done; try (by intros (? & ? & ?));
    try (by intros [?|[? ?]]); try (by left); try tauto.
  all: intros [?|[_ Hno]]; [done|]; exfalso; apply Hno; by apply Hserver.
Qed.

End ClassifierDefaults.

Section Lookups.
Import Py NmapParser Engine Database.
Context `{!Json, !Sqlite}.

Lemma next_rowid_pos (ids : list Z) : 0 < next_rowid ids.
Proof.
  unfold next_rowid. assert (0 ≤ foldr Z.max 0 ids); [|lia].
  induction ids as [|x ids IH]; simpl; lia.
Qed.

Lemma list_find_fmap_update {A} (P : A → Prop) `{!∀ x, Decision (P x)} (f : A → A)
    (l : list A) :
  (∀ x, P (f x) ↔ P x) →
  snd <$> list_find P (f <$> l) = f <$> (snd <$> list_find P l).
Proof.
  intros Hf. induction l as [|x l IH]; [done|]. csimpl.
  destruct (decide (P (f x))) as [Hp|Hp].
  - rewrite decide_True by (by apply Hf). done.
  - rewrite decide_False by (by rewrite <- Hf). simpl.
    destruct (list_find P (f <$> l)) as [[i y]|], (list_find P l) as [[j z]|];
      simpl in *; congruence.
Qed.

(** X14. After [add_device] of a dict with a non-empty address,
    [get_device] by that address finds a row that carries the observation
    of the dict and the instant of the upsert as last_seen. When the
    address was not in the table, the id that [add_device] returned is the
    id of that row, [get_device] by this id finds the same row, and its
    first_seen is that instant; when it was, the row keeps the id and the
    first_seen it had. *)
Theorem add_device_get_device s now device_data s' id ip :
  dd_ip_address device_data = Some ip →
  ip ≠ EmptyString →
  add_device s now device_data = Ok (s', id) →
  ∃ r, get_device s' None (Some ip) = Some r
       ∧ dev_ip_address r = Some ip
       ∧ observation r = excluded (device_params device_data)
       ∧ dev_last_seen r = now
       ∧ (get_device s None (Some ip) = None →
            dev_id r = id ∧ dev_first_seen r = now
            ∧ get_device s' (Some id) None = Some r)
       ∧ (∀ r0, get_device s None (Some ip) = Some r0 →
            dev_id r = dev_id r0 ∧ dev_first_seen r = dev_first_seen r0).
Proof.
  intros Hip Hne Hadd. apply add_device_effect in Hadd as [-> ->].
  set (p := device_params device_data).
  assert (p_ip_address p = Some ip) as Hpip by done.
  unfold get_device. rewrite bool_decide_eq_false_2 by (by intros [? _]).
  rewrite (truthy_nonempty ip Hne).
  unfold upsert_device. destruct (decide (Exists _ _)) as [Hex|Hex]; cbn [devices].
  - rewrite (list_find_fmap_update (λ r, dev_ip_address r = Some ip)
               (λ r, if decide (device_conflict p r) then update_device now p r else r)).
    2:{ intros r. by destruct (decide (device_conflict p r)). }
    apply Exists_exists in Hex as (r1 & Hr1 & Hc1).
    destruct (list_find (λ r, dev_ip_address r = Some ip) (devices s)) as [[i r0]|] eqn:Hfind.
    2:{ apply list_find_None in Hfind. exfalso.
        apply (proj1 (Forall_forall _ _) Hfind r1 Hr1).
        by apply (conflict_iff p r1 ip). }
    apply list_find_Some in Hfind as (_ & Hr0 & _). simpl.
    rewrite decide_True by (by apply (conflict_iff p r0 ip)).
    eexists. split; [done|]. simpl. split; [done|]. split; [done|]. split; [done|].
    split; [done|]. by intros r [= <-].
  - assert (list_find (λ r, dev_ip_address r = Some ip) (devices s) = None) as Hnone.
    { apply list_find_None, Forall_forall. intros r Hr Hrip. apply Hex.
      apply Exists_exists. exists r. split; [done|]. by apply (conflict_iff p r ip). }
    rewrite Hnone. simpl.
    set (new := new_device now (next_rowid (dev_id <$> devices s)) p).
    assert (snd <$> list_find (λ r, dev_ip_address r = Some ip) (devices s ++ [new])
            = Some new) as ->.
    { apply fmap_Some. exists (length (devices s), new). split; [|done].
      apply list_find_app_Some. right. split; [done|]. split; [done|].
      rewrite Nat.sub_diag. simpl. by rewrite decide_True. }
    exists new. split; [done|]. split; [done|]. split; [done|]. split; [done|].
    split; [|done]. intros _. split; [done|]. split; [done|].
    rewrite bool_decide_eq_true_2.
    2:{ split; [done|]. intros [= Hz]. pose proof (next_rowid_pos (dev_id <$> devices s)).
        lia. }
    apply fmap_Some. exists (length (devices s), new). split; [|done].
    apply list_find_app_Some. right. split; [done|]. split.
    + apply list_find_None, Forall_forall. intros r Hr [= Hid].
      apply (next_rowid_fresh (dev_id <$> devices s)). rewrite <- Hid.
      apply list_elem_of_fmap. by exists r.
    + rewrite Nat.sub_diag. simpl. by rewrite decide_True.
Qed.

Lemma port_number_order_total : Total port_number_order.
Proof.
  intros a b. unfold port_number_order.
  destruct (prt_port_number a), (prt_port_number b); try (by left); try (by right); lia.
Qed.

Lemma port_number_order_trans : Transitive port_number_order.
Proof.
  intros a b c. unfold port_number_order.
  destruct (prt_port_number a), (prt_port_number b), (prt_port_number c); try done; lia.
Qed.

Lemma elem_of_get_device_ports s device_id r :
  r ∈ get_device_ports s device_id ↔ prt_device_id r = Some device_id ∧ r ∈ ports s.
Proof.
  unfold get_device_ports. rewrite merge_sort_Permutation.
  apply (list_elem_of_filter (λ r, prt_device_id r = Some device_id)).
Qed.

(** X15. [get_device_ports] lists the ports of a device by port number,
    and after [add_port] for that device it lists a row with the number,
    protocol, state and service of the dict and the instant of the upsert;
    every row it listed before is still listed, unless it is the row of
    the same number and protocol, which the upsert has rewritten in
    place. *)
Theorem add_port_get_device_ports s now port_data s' id device_id :
  pd_device_id port_data = Some device_id →
  add_port s now port_data = Ok (s', id) →
  let p := port_params port_data in
  StronglySorted port_number_order (get_device_ports s' device_id)
  ∧ (∃ r, r ∈ get_device_ports s' device_id
          ∧ prt_port_number r = pp_port_number p
          ∧ prt_protocol r = pp_protocol p
          ∧ prt_state r = pp_state p
          ∧ prt_service_name r = pp_service_name p
          ∧ prt_service_product r = pp_service_product p
          ∧ prt_service_version r = pp_service_version p
          ∧ prt_service_extrainfo r = pp_service_extrainfo p
          ∧ prt_last_seen r = now)
  ∧ (∀ r0, r0 ∈ get_device_ports s device_id →
       if decide (port_conflict p r0)
       then update_port now p r0 ∈ get_device_ports s' device_id
       else r0 ∈ get_device_ports s' device_id).
Proof.
  intros Hdev Hadd p. apply execute_effect in Hadd as ->. fold p.
  assert (pp_device_id p = Some device_id) as Hpdev by done.
  split.
  { apply (@StronglySorted_merge_sort _ port_number_order _ port_number_order_trans
             port_number_order_total). }
  unfold upsert_port. destruct (decide (Exists _ _)) as [Hex|Hex].
  - split.
    + apply Exists_exists in Hex as (r & Hr & Hc).
      exists (update_port now p r). split.
      * apply elem_of_get_device_ports. cbn [ports]. split.
        { simpl. destruct Hc as ([_ ->] & _). done. }
        apply list_elem_of_fmap. exists r. split; [|done]. by rewrite decide_True.
      * destruct Hc as (_ & [_ Hn] & [_ Hp]). simpl. by repeat split.
    + intros r0 Hr0. apply elem_of_get_device_ports in Hr0 as [Hd0 Hin0].
      destruct (decide (port_conflict p r0)) as [Hc|Hc].
      * apply elem_of_get_device_ports. cbn [ports]. split; [done|].
        apply list_elem_of_fmap. exists r0. split; [|done]. by rewrite decide_True.
      * apply elem_of_get_device_ports. cbn [ports]. split; [done|].
        apply list_elem_of_fmap. exists r0. split; [|done]. by rewrite decide_False.
  - split.
    + eexists. split.
      * apply elem_of_get_device_ports. cbn [ports]. split; [|apply elem_of_app; right; by left].
        done.
      * by repeat split.
    + intros r0 Hr0. apply elem_of_get_device_ports in Hr0 as [Hd0 Hin0].
      destruct (decide (port_conflict p r0)) as [Hc|Hc].
      * exfalso. apply Hex. apply Exists_exists. by exists r0.
      * apply elem_of_get_device_ports. cbn [ports]. split; [done|].
        apply elem_of_app. by left.
Qed.

End Lookups.

Section VendorLookup.
Import Py NmapParser Database Recognition.

Lemma upper_ascii_idemp c : upper_ascii (upper_ascii c) = upper_ascii c.
Proof. by destruct c as [[] [] [] [] [] [] [] []]. Qed.

Lemma upper_idemp s : upper (upper s) = upper s.
Proof.
  induction s as [|c s IH]; [done|]. unfold upper in *. simpl.
  by rewrite upper_ascii_idemp, IH.
Qed.

Lemma get_oui_vendor_add cache now oui vendor oui' :
  get_oui_vendor (add_oui cache now oui vendor) oui'
  = if decide (upper oui' = upper oui) then Some vendor else get_oui_vendor cache oui'.
Proof.
  unfold get_oui_vendor, add_oui.
  destruct (decide (Exists _ _)) as [Hex|Hex].
  - rewrite (option_fmap_compose snd oui_vendor).
    rewrite (list_find_fmap_update (λ r, oui_oui r = upper oui')
               (λ r, if decide (oui_oui r = upper oui)
                     then {| oui_oui := oui_oui r; oui_vendor := vendor;
                             oui_updated_at := now |}
                     else r)).
    2:{ intros r. by destruct (decide (oui_oui r = upper oui)). }
    rewrite <- option_fmap_compose.
    destruct (list_find (λ r, oui_oui r = upper oui') cache) as [[i r]|] eqn:Hfind.
    + apply list_find_Some in Hfind as (_ & Hr & _). simpl.
      destruct (decide (upper oui' = upper oui)) as [He|He].
      * by rewrite decide_True by congruence.
      * by rewrite decide_False by congruence.
    + simpl. rewrite decide_False; [done|]. intros He.
      apply list_find_None in Hfind. apply Exists_exists in Hex as (r & Hr & Hro).
      apply (proj1 (Forall_forall _ _) Hfind r Hr). congruence.
  - destruct (decide (upper oui' = upper oui)) as [He|He].
    + apply fmap_Some.
      exists (length cache, {| oui_oui := upper oui; oui_vendor := vendor;
                               oui_updated_at := now |}).
      split; [|done].
      apply list_find_app_Some. right. split; [done|]. split.
      * apply list_find_None, Forall_forall. intros r Hr Hro. apply Hex.
        apply Exists_exists. exists r. split; [done|]. congruence.
      * rewrite Nat.sub_diag. simpl. by rewrite decide_True.
    + destruct (list_find (λ r, oui_oui r = upper oui') cache) as [[i r]|] eqn:Hfind.
      * by erewrite list_find_app_l.
      * simpl. apply fmap_None, list_find_None, Forall_app. split.
        { by apply list_find_None in Hfind. }
        constructor; [|constructor]. simpl. congruence.
Qed.

(** X16. After [add_oui] of a prefix with a vendor that is not the empty
    text, [get_vendor_from_mac] gives that vendor for every MAC address
    whose first eight characters, without colons, are the prefix up to the
    case of letters; for the MAC addresses of every other prefix it gives
    what it gave before. An empty vendor in the cache reads as no vendor. *)
Theorem add_oui_get_vendor cache now oui vendor :
  let prefix mac := upper (remove_char ":" (slice_to 8 mac)) in
  (∀ mac, mac ≠ EmptyString → prefix mac = upper oui → vendor ≠ EmptyString →
     get_vendor_from_mac (add_oui cache now oui vendor) (Some mac) = Some vendor)
  ∧ (∀ mac, prefix mac = upper oui → vendor = EmptyString →
       get_vendor_from_mac (add_oui cache now oui vendor) (Some mac) = None)
  ∧ (∀ mac, prefix mac ≠ upper oui →
       get_vendor_from_mac (add_oui cache now oui vendor) (Some mac)
       = get_vendor_from_mac cache (Some mac)).
Proof.
  intros prefix. subst prefix. split; [|split].
  - intros mac Hmac Hprefix Hvendor. unfold get_vendor_from_mac.
    rewrite (truthy_nonempty mac Hmac). simpl.
    rewrite get_oui_vendor_add, decide_True by (by rewrite upper_idemp).
    by rewrite (truthy_nonempty vendor Hvendor).
  - intros mac Hprefix ->. unfold get_vendor_from_mac.
    destruct (truthy (Some mac)); [|done]. simpl.
    by rewrite get_oui_vendor_add, decide_True by (by rewrite upper_idemp).
  - intros mac Hprefix. unfold get_vendor_from_mac.
    destruct (truthy (Some mac)); [|done]. simpl.
    by rewrite get_oui_vendor_add, decide_False by (by rewrite upper_idemp).
Qed.

End VendorLookup.

Section Report.
Import Py NmapParser Database Recognition.

(** X17. When [_calculate_confidence] returns, it returns high, medium or
    low by the evidence on the device: with an OS name, high when two of
    vendor, host name and open ports are known and low when nothing else
    is; without one, high only when vendor, host name, open ports and a
    named service are all there, and low unless two of vendor, host name
    and open ports are known. *)
Theorem calculate_confidence_levels device_data level :
  _calculate_confidence device_data = Ok level →
  let os := truthy (dd_os_name device_data) in
  let vendor := truthy (dd_vendor device_data) in
  let hostname := truthy (dd_hostname device_data) in
  let ports := has_open_ports device_data in
  let two := (vendor && hostname) || (vendor && ports) || (hostname && ports) in
  ∃ metadata named,
    get_default (dd_metadata device_data) empty_metadata = Some metadata
    ∧ any_service_name (default [] (md_ports metadata)) = Ok named
    ∧ level ∈ ["high"; "medium"; "low"]
    ∧ (level = "high" ↔
         (if os then two else vendor && hostname && ports && named) = true)
    ∧ (level = "low" ↔
         (if os then vendor || hostname || ports || named else two) = false).
Proof.
  unfold _calculate_confidence, confidence_score, has_open_ports. intros Hlevel.
  destruct (dd_metadata device_data) as [| |metadata] eqn:Hmd; simpl in *; [|done|].
  - exists empty_metadata, false. split; [done|]. split; [done|].
    destruct (truthy (dd_os_name device_data)), (truthy (dd_vendor device_data)),
      (truthy (dd_hostname device_data)); simpl in *; injection Hlevel as <-;
      (split; [first [by left | right; by left | right; right; by left]|]); by split.
  - destruct (any_service_name (default [] (md_ports metadata))) as [named|e] eqn:Hnamed;
      [|done].
    exists metadata, named. split; [done|]. split; [done|].
    destruct (bool_decide (0 < default 0 (md_open_ports_count metadata))),
      (truthy (dd_os_name device_data)), (truthy (dd_vendor device_data)),
      (truthy (dd_hostname device_data)), named; simpl in *; injection Hlevel as <-;
      (split; [first [by left | right; by left | right; right; by left]|]); by split.
Qed.

Lemma lower_app a b : lower (a +:+ b) = lower a +:+ lower b.
Proof. induction a as [|c a IH]; [done|]. unfold lower in *. simpl. by rewrite IH. Qed.

Lemma prefix_app p rest : String.prefix p (p +:+ rest) = true.
Proof.
  induction p as [|c p IH]; [by destruct rest|]. simpl.
  destruct (Ascii.ascii_dec c c); [done|congruence].
Qed.

Lemma contains_prefix p rest : contains p (p +:+ rest) = true.
Proof.
  destruct p as [|c p]; [by destruct rest|].
  pose proof (prefix_app (String c p) rest) as Hp. simpl in *. by rewrite Hp.
Qed.

Lemma severity_levels reasons :
  let severity := _calculate_suspicion_severity reasons in
  severity ∈ ["critical"; "high"; "medium"]
  ∧ (severity = "critical" ↔ (3 ≤ length reasons)%nat)
  ∧ (severity = "medium" →
       (length reasons ≤ 1)%nat
       ∧ Forall (λ r, contains "suspicious port" (lower r) = false) reasons).
Proof.
  unfold _calculate_suspicion_severity. case_bool_decide as H3.
  { split; [by left|]. split; [done|]. done. }
  case_bool_decide as H2.
  { split; [right; by left|]. split; [by split; [|lia]|]. done. }
  destruct (existsb _ reasons) eqn:Hany.
  { split; [right; by left|]. split; [by split; [|lia]|]. done. }
  split; [right; right; by left|]. split; [by split; [|lia]|]. intros _.
  split; [lia|]. apply Forall_forall. intros r Hr.
  destruct (contains "suspicious port" (lower r)) eqn:Hc; [|done].
  assert (existsb (λ r, contains "suspicious port" (lower r)) reasons = true) as Ht.
  { apply existsb_exists. exists r. split; [|done]. by apply list_elem_of_In. }
  congruence.
Qed.

Lemma elem_of_get_all_devices s device :
  device ∈ get_all_devices s true ↔ dev_is_active device = 1 ∧ device ∈ devices s.
Proof.
  unfold get_all_devices. rewrite merge_sort_Permutation.
  apply (list_elem_of_filter (λ r, dev_is_active r = 1)).
Qed.

(** X18. Every entry of the report of [identify_suspicious_devices] is
    that of an active device and carries the reasons found for it, at
    least one. Its severity is critical exactly when there are three
    reasons or more, and otherwise high or medium; it is medium only for
    a single reason and a device none of whose open ports is in the list
    of suspicious ports. Every active device for which there is a reason
    has an entry. *)
Theorem identify_suspicious_report s suspicious_ports :
  let reasons_of device :=
    suspicion_reasons suspicious_ports device (get_device_ports s (dev_id device)) in
  Forall (λ entry,
            ∃ device,
              device ∈ devices s ∧ dev_is_active device = 1
              ∧ sus_device_id entry = dev_id device
              ∧ sus_ip_address entry = dev_ip_address device
              ∧ sus_reasons entry = reasons_of device
              ∧ sus_reasons entry ≠ []
              ∧ sus_severity entry ∈ ["critical"; "high"; "medium"]
              ∧ (sus_severity entry = "critical" ↔ (3 ≤ length (sus_reasons entry))%nat)
              ∧ (sus_severity entry = "medium" →
                   length (sus_reasons entry) = 1%nat
                   ∧ Forall (λ p, ¬ port_suspicious suspicious_ports p)
                            (open_rows (get_device_ports s (dev_id device)))))
         (identify_suspicious_devices s suspicious_ports)
  ∧ ∀ device,
      device ∈ devices s → dev_is_active device = 1 → reasons_of device ≠ [] →
      ∃ entry, entry ∈ identify_suspicious_devices s suspicious_ports
               ∧ sus_device_id entry = dev_id device
               ∧ sus_reasons entry = reasons_of device.
Proof.
  intros reasons_of. unfold identify_suspicious_devices. split.
  - apply Forall_forall. intros entry Hin.
    apply list_elem_of_omap in Hin as (device & Hdev & Hentry).
    apply elem_of_get_all_devices in Hdev as [Hactive Hdev].
    fold (reasons_of device) in Hentry.
    destruct (reasons_of device) as [|reason reasons] eqn:Hreasons; [done|].
    injection Hentry as <-. exists device. simpl.
    destruct (severity_levels (reason :: reasons)) as (Hlevel & Hcritical & Hmedium).
    repeat (split; [done|]). intros Hm. destruct (Hmedium Hm) as [Hlen Hnone].
    split; [simpl in *; lia|].
    apply Forall_forall. intros p Hp Hsusp.
    assert (("Suspicious port " +:+ str_int (prt_port_number p) +:+ " ("
             +:+ str_opt (prt_service_name p) +:+ ")") ∈ reason :: reasons) as Hr.
    { rewrite <- Hreasons. unfold reasons_of, suspicion_reasons.
      apply elem_of_app. left.
      apply (list_elem_of_fmap_2
               (λ p, "Suspicious port " +:+ str_int (prt_port_number p) +:+ " ("
                     +:+ str_opt (prt_service_name p) +:+ ")")).
      by apply list_elem_of_filter. }
    apply (proj1 (Forall_forall _ _) Hnone) in Hr.
    change ("Suspicious port " +:+ str_int (prt_port_number p) +:+ " ("
             +:+ str_opt (prt_service_name p) +:+ ")")
      with ("Suspicious port" +:+ (" " +:+ str_int (prt_port_number p) +:+ " ("
             +:+ str_opt (prt_service_name p) +:+ ")")) in Hr.
    rewrite lower_app in Hr.
    change (lower "Suspicious port") with "suspicious port" in Hr.
    by rewrite contains_prefix in Hr.
  - intros device Hdev Hactive Hreasons.
    destruct (reasons_of device) as [|reason reasons] eqn:Hr; [done|].
    eexists. split.
    + apply list_elem_of_omap. exists device. split.
      * by apply elem_of_get_all_devices.
      * fold (reasons_of device). by rewrite Hr.
    + done.
Qed.

Lemma dict_get_set {V} (k k' : string) (v : V) (d : list (string * V)) :
  dict_get k' (dict_set k v d) = if decide (k' = k) then Some v else dict_get k' d.
Proof.
  induction d as [|[k0 v0] d IH]; simpl.
  - case_bool_decide; destruct (decide (k' = k)); congruence.
  - case_bool_decide as Hk0; simpl.
    + subst k0. case_bool_decide; destruct (decide (k' = k)); congruence.
    + rewrite IH. case_bool_decide; [|done]. subst k0. by rewrite decide_False.
Qed.

Lemma sum_counts_dict_set key v d :
  sum_counts (dict_set key v d) = sum_counts d - default 0 (dict_get key d) + v.
Proof.
  unfold sum_counts. induction d as [|[k0 v0] d IH]; csimpl; [lia|].
  case_bool_decide; csimpl; [lia|]. rewrite IH. lia.
Qed.

Lemma sum_counts_count_key key d : sum_counts (count_key key d) = sum_counts d + 1.
Proof. unfold count_key. rewrite sum_counts_dict_set. lia. Qed.

Lemma dict_get_count_key key k d :
  default 0 (dict_get k (count_key key d))
  = default 0 (dict_get k d) + (if decide (key = k) then 1 else 0).
Proof.
  unfold count_key. rewrite dict_get_set.
  destruct (decide (k = key)) as [->|Hne].
  - by rewrite decide_True.
  - rewrite decide_False by done. lia.
Qed.

Lemma count_devices_totals (l : list DeviceRow) init :
  let stats := foldl count_device init l in
  let n := Z.of_nat (length l) in
  let count (P : DeviceRow → Prop) `{!∀ r, Decision (P r)} := Z.of_nat (length (filter P l)) in
  total_devices stats = total_devices init
  ∧ sum_counts (by_type stats) = sum_counts (by_type init) + n
  ∧ sum_counts (by_vendor stats) = sum_counts (by_vendor init) + n
  ∧ sum_counts (by_os stats) = sum_counts (by_os init) + n
  ∧ with_hostname stats + without_hostname stats
    = with_hostname init + without_hostname init + n
  ∧ with_mac stats + without_mac stats = with_mac init + without_mac init + n
  ∧ with_hostname stats
    = with_hostname init + count (λ r, truthy (dev_hostname r) = true)
  ∧ with_mac stats = with_mac init + count (λ r, truthy (dev_mac_address r) = true)
  ∧ (∀ k, default 0 (dict_get k (by_type stats))
          = default 0 (dict_get k (by_type init))
            + count (λ r, or_text (dev_device_type r) "unknown" = k))
  ∧ (∀ k, default 0 (dict_get k (by_vendor stats))
          = default 0 (dict_get k (by_vendor init))
            + count (λ r, or_text (dev_vendor r) "Unknown" = k))
  ∧ (∀ k, default 0 (dict_get k (by_os stats))
          = default 0 (dict_get k (by_os init))
            + count (λ r, or_text (dev_os_family r) "Unknown" = k)).
Proof.
  revert init. induction l as [|device l IH]; intros init.
  { simpl. repeat split; intros; rewrite ?filter_nil; simpl; lia. }
  cbn [foldl]. destruct (IH (count_device init device))
    as (Ht & Hty & Hv & Ho & Hh & Hm & Hwh & Hwm & Hkt & Hkv & Hko).
  cbn zeta in *. rewrite Ht, Hty, Hv, Ho, Hh, Hm, Hwh, Hwm.
  rewrite !filter_cons. cbn [count_device total_devices by_type by_vendor by_os
    with_hostname without_hostname with_mac without_mac length].
  rewrite !sum_counts_count_key.
  split; [done|]. split; [lia|]. split; [lia|]. split; [lia|].
  split; [destruct (truthy (dev_hostname device)); lia|].
  split; [destruct (truthy (dev_mac_address device)); lia|].
  split.
  { destruct (truthy (dev_hostname device)); simpl; lia. }
  split.
  { destruct (truthy (dev_mac_address device)); simpl; lia. }
  split; [|split]; intros k.
  - rewrite Hkt. cbn [count_device by_type]. rewrite dict_get_count_key, filter_cons.
    cbn beta. destruct (decide (or_text (dev_device_type device) "unknown" = k)); simpl; lia.
  - rewrite Hkv. cbn [count_device by_vendor]. rewrite dict_get_count_key, filter_cons.
    cbn beta. destruct (decide (or_text (dev_vendor device) "Unknown" = k)); simpl; lia.
  - rewrite Hko. cbn [count_device by_os]. rewrite dict_get_count_key, filter_cons.
    cbn beta. destruct (decide (or_text (dev_os_family device) "Unknown" = k)); simpl; lia.
Qed.

(** X19. In the statistics of [get_device_statistics], total_devices is
    the number of active devices; the counts by type, by vendor and by OS
    family each add up to it, as do the devices with and without a host
    name and those with and without a MAC; and the count of a type is the
    number of active devices of that type, a device without type counting
    as unknown. *)
Theorem device_statistics_totals s :
  let stats := get_device_statistics s in
  let active := get_all_devices s true in
  total_devices stats = Z.of_nat (length active)
  ∧ sum_counts (by_type stats) = total_devices stats
  ∧ sum_counts (by_vendor stats) = total_devices stats
  ∧ sum_counts (by_os stats) = total_devices stats
  ∧ with_hostname stats + without_hostname stats = total_devices stats
  ∧ with_mac stats + without_mac stats = total_devices stats
  ∧ with_hostname stats
    = Z.of_nat (length (filter (λ r, truthy (dev_hostname r) = true) active))
  ∧ (∀ k, default 0 (dict_get k (by_type stats))
          = Z.of_nat (length (filter (λ r, or_text (dev_device_type r) "unknown" = k)
                                     active))).
Proof.
  intros stats active. subst stats. unfold get_device_statistics. fold active.
  destruct (count_devices_totals active
              {| total_devices := Z.of_nat (length active);
                 by_type := []; by_vendor := []; by_os := [];
                 with_hostname := 0; without_hostname := 0;
                 with_mac := 0; without_mac := 0 |})
    as (Ht & Hty & Hv & Ho & Hh & Hm & Hwh & _ & Hkt & _).
  cbn zeta in *. rewrite Ht, Hty, Hv, Ho, Hh, Hm, Hwh. simpl.
  repeat split; try done.
Qed.

End Report.

Section ConfigurationPaths.
Import Py Configuration.
Context `{!Errors}.

Lemma split_from_nonempty current key : split_from current key ≠ [].
Proof.
  induction key as [|c key IH] in current |- *; simpl; [done|].
  case_bool_decide; [done|apply IH].
Qed.

Lemma split_nonempty key : split key ≠ [].
Proof. apply split_from_nonempty. Qed.

Lemma set_path_cons k keys value config :
  set_path (k :: keys) value config =
  match config with
  | VDict d =>
      match keys with
      | [] => Ok (VDict (dict_set k value d))
      | _ =>
          child ← set_path keys value (default (VDict []) (dict_get k d));
          mret (VDict (dict_set k child d))
      end
  | _ => Raise (mkExn TypeError (type_error config k))
  end.
Proof. by destruct keys. Qed.

Lemma get_path_empty_dict keys x :
  get_path keys (VDict []) = Some x → keys = [] ∧ x = VDict [].
Proof. destruct keys; simpl; [by intros [= <-]|done]. Qed.

Lemma get_set_path keys value config config' :
  keys ≠ [] →
  set_path keys value config = Ok config' →
  get_path keys config' = Some value.
Proof.
  induction keys as [|k keys IH] in config, config' |- *; [done|]. intros _.
  rewrite set_path_cons. destruct config as [| | | | |d|]; try done.
  destruct keys as [|k2 keys].
  - intros [= <-]. simpl. by rewrite dict_get_set, decide_True.
  - destruct (set_path (k2 :: keys) value (default (VDict []) (dict_get k d)))
      as [child|e] eqn:Hchild; [|done].
    intros [= <-]. apply IH in Hchild; [|done].
    change (get_path (k :: k2 :: keys) (VDict (dict_set k child d))) with
      (match dict_get k (dict_set k child d) with
       | Some v => get_path (k2 :: keys) v
       | None => None
       end).
    by rewrite dict_get_set, decide_True.
Qed.

Lemma set_path_frame keys keys' value config config' :
  set_path keys value config = Ok config' →
  apart keys keys' →
  get_path keys' config' = get_path keys' config.
Proof.
  induction keys as [|k keys IH] in keys', config, config' |- *.
  { intros _ [Hno _]. destruct Hno. apply prefix_nil. }
  rewrite set_path_cons. destruct config as [| | | | |d|]; try done.
  intros Hset [Hno Hno'].
  destruct keys' as [|k' keys']; [destruct Hno'; apply prefix_nil|].
  destruct keys as [|k2 keys].
  - injection Hset as <-. simpl. rewrite dict_get_set.
    destruct (decide (k' = k)) as [->|]; [|done].
    destruct Hno. by apply prefix_cons, prefix_nil.
  - destruct (set_path (k2 :: keys) value (default (VDict []) (dict_get k d)))
      as [child|e] eqn:Hchild; [|done].
    injection Hset as <-. simpl get_path. rewrite dict_get_set.
    destruct (decide (k' = k)) as [->|]; [|done].
    rewrite (IH keys' _ _ Hchild).
    + destruct (dict_get k d) as [c|]; [done|]. simpl.
      destruct keys' as [|k3 keys']; [|done].
      destruct Hno'. by apply prefix_cons, prefix_nil.
    + split; intros Hp; [apply Hno|apply Hno']; by apply prefix_cons.
Qed.

Lemma set_path_raise keys value config e :
  set_path keys value config = Raise e → exn_class e = TypeError.
Proof.
  induction keys as [|k keys IH] in config |- *; [done|].
  rewrite set_path_cons. destruct config as [| | | | |d|]; try by intros [= <-].
  destruct keys as [|k2 keys]; [done|].
  destruct (set_path (k2 :: keys) value (default (VDict []) (dict_get k d)))
    as [child|e'] eqn:Hchild; [done|].
  intros [= <-]. by apply IH in Hchild.
Qed.

Lemma set_path_ok keys value config :
  keys ≠ [] →
  (∃ config', set_path keys value config = Ok config') ↔
  (∀ pre rest x, keys = pre ++ rest → rest ≠ [] →
     get_path pre config = Some x → is_dict x = true).
Proof.
  induction keys as [|k keys IH] in config |- *; [done|]. intros _.
  rewrite set_path_cons. split.
  - intros [config' Hset] pre rest x Hkeys Hrest Hget.
    destruct config as [| | | | |d|]; try done.
    destruct pre as [|k' pre]; [by injection Hget as <-|].
    injection Hkeys as <- ->. simpl in Hget.
    destruct (dict_get k d) as [c|] eqn:Hc; [|done].
    destruct (pre ++ rest) as [|k2 keys] eqn:Hkeys; [by destruct pre|].
    destruct (set_path (k2 :: keys) value (default (VDict []) (Some c)))
      as [child|e] eqn:Hchild; [|done].
    eapply (proj1 (IH _ ltac:(done))); [by eexists|done..].
  - intros Hdicts.
    pose proof (Hdicts [] (k :: keys) config eq_refl ltac:(done) eq_refl) as Hroot.
    destruct config as [| | | | |d|]; try done.
    destruct keys as [|k2 keys]; [by eexists|].
    destruct (proj2 (IH (default (VDict []) (dict_get k d)) ltac:(done)))
      as [child ->]; [|by eexists].
    intros pre rest x Hkeys Hrest Hget.
    destruct (dict_get k d) as [c|] eqn:Hc; simpl in Hget.
    + apply (Hdicts (k :: pre) rest x); [by rewrite Hkeys|done|].
      simpl. by rewrite Hc.
    + by apply get_path_empty_dict in Hget as [_ ->].
Qed.

(** X20. A value stored by [Config.set] under a dotted key is the value
    that [Config.get] returns for that key afterwards, whatever the
    default passed to [get]. *)
Theorem config_set_get data key value data' dflt :
  set data key value = Ok data' →
  get data' key dflt = value.
Proof.
  intros Hset. unfold get.
  by rewrite (get_set_path _ _ _ _ (split_nonempty key) Hset).
Qed.

(** X21. [Config.set] leaves every other setting as it was: for a key
    whose path neither continues the path that was set nor is continued
    by it, [Config.get] returns what it returned before. *)
Theorem config_set_frame data key value data' key' dflt :
  set data key value = Ok data' →
  apart (split key) (split key') →
  get data' key' dflt = get data key' dflt.
Proof.
  intros Hset Hapart. unfold get.
  by rewrite (set_path_frame _ _ _ _ _ Hset Hapart).
Qed.

(** X22. [Config.set] succeeds exactly when every value that the data
    holds at a proper beginning of the key's path (the data itself
    included) is a dict; otherwise it raises a TypeError, and it raises
    nothing else. *)
Theorem config_set_fails data key value :
  (∀ e, set data key value = Raise e → exn_class e = TypeError) ∧
  ((∃ data', set data key value = Ok data') ↔
   (∀ pre rest x, split key = pre ++ rest → rest ≠ [] →
      get_path pre data = Some x → is_dict x = true)).
Proof.
  split.
  - intros e. apply set_path_raise.
  - apply set_path_ok, split_nonempty.
Qed.

End ConfigurationPaths.

Section StatusAndCache.
Import Py NmapParser Engine Database.
Context `{!Json, !Sqlite}.

(** X23. [update_device_status] sets the status and last_seen of the
    device with the given id and nothing else: [get_device] by that id
    returns the row it returned before with these two columns replaced,
    and by any other id the row it returned before. An id that no device
    has changes nothing and creates nothing. The constraints of the
    tables are kept, and no row changes its id, address, first_seen or
    place. *)
Theorem update_device_status_get s now device_id status id :
  get_device (update_device_status s now device_id status) (Some id) None =
    (if decide (id = device_id)
     then with_status now status <$> get_device s (Some id) None
     else get_device s (Some id) None)
  ∧ (device_id ∉ dev_id <$> devices s →
     devices (update_device_status s now device_id status) = devices s)
  ∧ (well_formed s → well_formed (update_device_status s now device_id status))
  ∧ grows s (update_device_status s now device_id status).
Proof.
  set (f := λ r, if decide (dev_id r = device_id) then with_status now status r else r).
  assert (Hids : dev_id <$> (f <$> devices s) = dev_id <$> devices s).
  { rewrite <- list_fmap_compose. apply list_fmap_ext.
    intros i r _. unfold f. simpl. by destruct (decide (dev_id r = device_id)). }
  assert (Hident : device_identity <$> (f <$> devices s) = device_identity <$> devices s).
  { rewrite <- list_fmap_compose. apply list_fmap_ext.
    intros i r _. unfold f. simpl. by destruct (decide (dev_id r = device_id)). }
  assert (Haddr : omap dev_ip_address (f <$> devices s) = omap dev_ip_address (devices s)).
  { clear Hids Hident. induction (devices s) as [|r l IH]; [done|]. csimpl. rewrite IH.
    unfold f at 1. destruct (decide (dev_id r = device_id)); reflexivity. }
  split; [|split; [|split]].
  - unfold get_device. case_bool_decide as Hid.
    + change (devices (update_device_status s now device_id status))
        with (f <$> devices s).
      rewrite (list_find_fmap_update (λ r, Some (dev_id r) = Some id) f).
      2:{ intros r. unfold f. by destruct (decide (dev_id r = device_id)). }
      destruct (list_find _ (devices s)) as [[i r]|] eqn:Hfind; simpl.
      * apply list_find_Some in Hfind as (_ & [= Hr] & _). unfold f.
        destruct (decide (id = device_id)) as [->|Hne].
        -- by rewrite decide_True.
        -- by rewrite decide_False by congruence.
      * by destruct (decide (id = device_id)).
    + simpl. by destruct (decide (id = device_id)).
  - intros Hmissing. change (devices (update_device_status s now device_id status))
      with (f <$> devices s).
    rewrite <- (list_fmap_id (devices s)) at 2. apply list_fmap_ext.
    intros i r Hr. unfold f. rewrite decide_False; [done|].
    intros <-. apply Hmissing, list_elem_of_fmap_2. by eapply list_elem_of_lookup_2.
  - intros (Hd & Ha & Hrest). split; [|split]; [| |exact Hrest].
    + change (NoDup (dev_id <$> (f <$> devices s))). by rewrite Hids.
    + change (NoDup (omap dev_ip_address (f <$> devices s))). by rewrite Haddr.
  - split; [|done].
    change (device_identity <$> devices s `prefix_of` device_identity <$> (f <$> devices s)).
    by rewrite Hident.
Qed.

Lemma list_find_filter {A} (P Q : A → Prop) `{!∀ x, Decision (P x), !∀ x, Decision (Q x)}
    (l : list A) :
  (∀ x, P x → Q x) →
  snd <$> list_find P (filter Q l) = snd <$> list_find P l.
Proof.
  intros HPQ. induction l as [|x l IH]; [done|].
  rewrite filter_cons. destruct (decide (Q x)) as [Hq|Hq]; csimpl.
  - destruct (decide (P x)); [done|].
    destruct (list_find P (filter Q l)) as [[i y]|], (list_find P l) as [[j z]|];
      simpl in *; congruence.
  - rewrite decide_False by (intros Hp; by apply Hq, HPQ).
    rewrite IH. by destruct (list_find P l) as [[j z]|].
Qed.

Lemma get_oui_vendor_replace cache now k v oui :
  get_oui_vendor
    (filter (λ r, oui_oui r ≠ k) cache
       ++ [{| oui_oui := k; oui_vendor := v; oui_updated_at := now |}]) oui
  = if decide (k = upper oui) then Some v else get_oui_vendor cache oui.
Proof.
  unfold get_oui_vendor. destruct (decide (k = upper oui)) as [->|Hk].
  - rewrite list_find_app_r.
    + csimpl. by rewrite decide_True.
    + apply list_find_None, Forall_forall. intros r Hr.
      by apply (list_elem_of_filter (λ r, oui_oui r ≠ upper oui)) in Hr as [Hr _].
  - rewrite (option_fmap_compose snd oui_vendor),
      (option_fmap_compose snd oui_vendor (list_find _ cache)).
    f_equal.
    rewrite <- (list_find_filter (λ r, oui_oui r = upper oui) (λ r, oui_oui r ≠ k) cache)
      by (intros r Hr; congruence).
    destruct (list_find _ (filter _ cache)) as [[i r]|] eqn:Hfind.
    + by erewrite list_find_app_l.
    + rewrite list_find_app_r by done. csimpl. by rewrite decide_False.
Qed.

Lemma bulk_insert_oui_snoc cache now oui_data k v :
  bulk_insert_oui cache now (oui_data ++ [(k, v)]) =
  filter (λ r, oui_oui r ≠ k) (bulk_insert_oui cache now oui_data)
    ++ [{| oui_oui := k; oui_vendor := v; oui_updated_at := now |}].
Proof. unfold bulk_insert_oui. by rewrite foldl_app. Qed.

(** X24. After [bulk_insert_oui], [get_oui_vendor] returns for a prefix
    the vendor of the last pair of the batch whose prefix is the
    upper-case form of the one asked for, and what it returned before
    when the batch has no such pair; the batch stores a prefix as it is
    given, so a pair whose prefix is not in upper case is not found. A
    cache that holds each prefix once still does. *)
Theorem bulk_insert_oui_lookup cache now oui_data oui :
  get_oui_vendor (bulk_insert_oui cache now oui_data) oui =
    match last (filter (λ p, p.1 = upper oui) oui_data) with
    | Some p => Some p.2
    | None => get_oui_vendor cache oui
    end
  ∧ (NoDup (oui_oui <$> cache) →
     NoDup (oui_oui <$> bulk_insert_oui cache now oui_data)).
Proof.
  split.
  - induction oui_data as [|[k v] oui_data IH] using rev_ind; [done|].
    rewrite bulk_insert_oui_snoc, get_oui_vendor_replace, filter_app, filter_cons.
    simpl. destruct (decide (k = upper oui)) as [->|Hk].
    + by rewrite filter_nil, last_snoc.
    + by rewrite filter_nil, app_nil_r.
  - intros Hcache.
    induction oui_data as [|[k v] oui_data IH] using rev_ind; [done|].
    rewrite bulk_insert_oui_snoc, fmap_app. apply NoDup_app. split; [|split].
    + eapply sublist_NoDup; [exact IH|apply fmap_sublist, sublist_filter].
    + intros x Hx. simpl. intros Hk%list_elem_of_singleton.
      apply list_elem_of_fmap in Hx as (r & Hx & Hr).
      apply (list_elem_of_filter (λ r, oui_oui r ≠ k)) in Hr as [Hr _].
      congruence.
    + simpl. apply NoDup_singleton.
Qed.

End StatusAndCache.

Section EnrichedDevices.
Import Py NmapParser DeviceRecognition Database Recognition.
Context `{!Builtins}.

Lemma get_vendor_from_mac_truthy cache mac vendor :
  get_vendor_from_mac cache mac = Some vendor → truthy (Some vendor) = true.
Proof.
  unfold get_vendor_from_mac. destruct (negb (truthy mac)); [done|].
  destruct (truthy (get_oui_vendor cache _)) eqn:Hv; [|done].
  intros Heq. by rewrite Heq in Hv.
Qed.

Lemma get_vendor_from_mac_no_mac cache mac :
  truthy mac = false → get_vendor_from_mac cache mac = None.
Proof. unfold get_vendor_from_mac. by intros ->. Qed.

(** X25. When [enrich_device_data] returns, the dict it returns differs
    from the one passed in only in vendor, device_type and the added
    confidence. A vendor that was given is kept; a missing or empty one is
    replaced by the vendor that the OUI cache has for the MAC address, if
    it has one. The device_type is what [classify_device] says of the
    returned dict, so the vendor just looked up counts, and the type
    passed in does not. Enriching the returned dict again returns it
    unchanged. *)
Theorem enrich_device_data_result classification_rules cache device_data enriched :
  enrich_device_data classification_rules cache device_data = Ok enriched →
  let device := enr_device enriched in
  (dd_ip_address device, dd_mac_address device, dd_hostname device, dd_oui device)
    = (dd_ip_address device_data, dd_mac_address device_data,
       dd_hostname device_data, dd_oui device_data)
  ∧ (dd_os_name device, dd_os_family device, dd_os_version device,
     dd_os_accuracy device, dd_status device, dd_metadata device)
    = (dd_os_name device_data, dd_os_family device_data, dd_os_version device_data,
       dd_os_accuracy device_data, dd_status device_data, dd_metadata device_data)
  ∧ dd_vendor device =
      (if truthy (dd_vendor device_data) then dd_vendor device_data
       else match get_vendor_from_mac cache (dd_mac_address device_data) with
            | Some vendor => Some vendor
            | None => dd_vendor device_data
            end)
  ∧ (∃ device_type,
       dd_device_type device = Some device_type
       ∧ classify_device classification_rules device = Ok device_type
       ∧ classify_device classification_rules
           (set_device_type device_data (or_empty (dd_device_type device)))
         = classify_device classification_rules device_data)
  ∧ _calculate_confidence device = Ok (enr_classification_confidence enriched)
  ∧ enrich_device_data classification_rules cache device = Ok enriched.
Proof.
  unfold enrich_device_data.
  set (looked_up :=
         if negb (truthy (dd_vendor device_data)) && truthy (dd_mac_address device_data)
         then if truthy (get_vendor_from_mac cache (dd_mac_address device_data))
              then set_vendor device_data
                     (or_empty (get_vendor_from_mac cache (dd_mac_address device_data)))
              else device_data
         else device_data).
  assert (Hkeep :
    negb (truthy (dd_vendor looked_up)) && truthy (dd_mac_address looked_up)
    && truthy (get_vendor_from_mac cache (dd_mac_address looked_up)) = false).
  { unfold looked_up.
    destruct (truthy (dd_vendor device_data)) eqn:Hv; cbn [negb andb]; [by rewrite Hv|].
    destruct (truthy (dd_mac_address device_data)) eqn:Hm; cbn [negb andb].
    - destruct (get_vendor_from_mac cache (dd_mac_address device_data)) as [v|] eqn:Hl.
      + rewrite (get_vendor_from_mac_truthy _ _ _ Hl).
        change (dd_vendor (set_vendor device_data (or_empty (Some v)))) with (Some v).
        by rewrite (get_vendor_from_mac_truthy _ _ _ Hl).
      + cbn [truthy]. rewrite Hv, Hm. cbn [negb andb]. by rewrite Hl.
    - by rewrite Hv, Hm. }
  assert (Hvendor : dd_vendor looked_up =
      (if truthy (dd_vendor device_data) then dd_vendor device_data
       else match get_vendor_from_mac cache (dd_mac_address device_data) with
            | Some vendor => Some vendor
            | None => dd_vendor device_data
            end)).
  { unfold looked_up.
    destruct (truthy (dd_vendor device_data)) eqn:Hv; cbn [negb andb]; [done|].
    destruct (truthy (dd_mac_address device_data)) eqn:Hm; cbn [negb andb].
    - destruct (get_vendor_from_mac cache (dd_mac_address device_data)) as [v|] eqn:Hl.
      + by rewrite (get_vendor_from_mac_truthy _ _ _ Hl).
      + done.
    - by rewrite get_vendor_from_mac_no_mac. }
  assert (Hsame :
    (dd_ip_address looked_up, dd_mac_address looked_up, dd_hostname looked_up,
     dd_oui looked_up, dd_os_name looked_up, dd_os_family looked_up,
     dd_os_version looked_up, dd_os_accuracy looked_up, dd_status looked_up,
     dd_metadata looked_up)
    = (dd_ip_address device_data, dd_mac_address device_data, dd_hostname device_data,
       dd_oui device_data, dd_os_name device_data, dd_os_family device_data,
       dd_os_version device_data, dd_os_accuracy device_data, dd_status device_data,
       dd_metadata device_data)).
  { unfold looked_up.
    destruct (negb _ && _); [|done]. by destruct (truthy (get_vendor_from_mac _ _)). }
  clearbody looked_up.
  destruct (classify_device classification_rules looked_up) as [device_type|e] eqn:Hclass;
    [|done].
  simpl.
  destruct (_calculate_confidence (set_device_type looked_up device_type))
    as [confidence|e] eqn:Hconf; [|done].
  simpl. intros [= <-]. simpl.
  assert (Hmac : dd_mac_address looked_up = dd_mac_address device_data) by congruence.
  rewrite Hmac in Hkeep.
  injection Hsame as -> -> -> -> -> -> -> -> -> ->.
  split; [done|]. split; [done|]. split; [exact Hvendor|].
  split; [|split; [exact Hconf|]].
  - exists device_type. by repeat split.
  - change (dd_vendor (set_device_type looked_up device_type)) with (dd_vendor looked_up).
    change (dd_mac_address (set_device_type looked_up device_type))
      with (dd_mac_address looked_up).
    cbv zeta.
    destruct (negb (truthy (dd_vendor looked_up)) && truthy (dd_mac_address device_data));
      cbn [andb] in Hkeep; [rewrite Hkeep|];
      change (classify_device classification_rules (set_device_type looked_up device_type))
        with (classify_device classification_rules looked_up);
      rewrite Hclass; cbn [mbind result_bind];
      change (set_device_type (set_device_type looked_up device_type) device_type)
        with (set_device_type looked_up device_type);
      by rewrite Hconf.
Qed.

End EnrichedDevices.

(** * Examples: the theorems at concrete inputs, and counterexamples *)
Section Examples.
Import Py NmapParser Engine Database Worker Scheduler DeviceRecognition.
Local Existing Instances Demo.builtins Demo.reader Demo.json Demo.sqlite.

Lemma upsert_last_write_wins_witness :
  ∃ r, rows_of "10.0.0.1"
         (upsert_device 20 (device_params Demo.observed_bare)
            (upsert_device 10 (device_params Demo.observed_down) empty_store)) = [r]
    ∧ dev_mac_address r = None ∧ dev_status r = Some "up" ∧ dev_last_seen r = 20.
Proof.
  destruct (upsert_last_write_wins empty_store 10 20
              Demo.observed_down Demo.observed_bare
              (upsert_device 10 (device_params Demo.observed_down) empty_store) 1
              (upsert_device 20 (device_params Demo.observed_bare)
                 (upsert_device 10 (device_params Demo.observed_down) empty_store)) 1
              "10.0.0.1")
    as (r & Hr & Hmac & _ & _ & _ & _ & _ & _ & _ & _ & Hst & _ & Hls);
    [apply NoDup_nil_2|reflexivity|reflexivity|reflexivity|reflexivity|].
  exists r. split; [exact Hr|]. split; [exact Hmac|]. split; [exact Hst|exact Hls].
Defined.

(** C1, as stated, fails: after a host observed down is observed again by a
    dict without a status key and without metadata, its row reads up, not
    NULL, and its metadata is the text of the empty dict, not NULL. *)
Lemma upsert_null_status_counterexample :
  ∃ s1 s2 r,
    add_device empty_store 10 Demo.observed_down = Ok (s1, 1)
    ∧ add_device s1 20 Demo.observed_bare = Ok (s2, 1)
    ∧ rows_of "10.0.0.1" s2 = [r]
    ∧ Py.get (dd_status Demo.observed_bare) = None
    ∧ dev_status r = Some "up"
    ∧ dev_status r ≠ Py.get (dd_status Demo.observed_bare)
    ∧ Py.get (dd_metadata Demo.observed_bare) = None
    ∧ dev_metadata r = Some "{}".
Proof.
  eexists _, _, _. split; [reflexivity|]. split; [reflexivity|].
  split; [vm_compute; reflexivity|]. by repeat split.
Qed.

Lemma upsert_update_frame_witness :
  ∃ r, rows_of "10.0.0.1"
         (upsert_device 20 (device_params Demo.observed_bare)
            (upsert_device 10 (device_params Demo.observed_down) empty_store)) = [r]
    ∧ dev_id r = 1 ∧ dev_first_seen r = 10 ∧ dev_last_seen r = 20.
Proof.
  destruct (upsert_update_frame
              (upsert_device 10 (device_params Demo.observed_down) empty_store)
              20 Demo.observed_bare
              (upsert_device 20 (device_params Demo.observed_bare)
                 (upsert_device 10 (device_params Demo.observed_down) empty_store))
              1 "10.0.0.1"
              (new_device 10 1 (device_params Demo.observed_down)))
    as (r & Hr & Hid & _ & Hfs & _ & _ & Hls & _);
    [vm_compute; apply NoDup_singleton|reflexivity|vm_compute; reflexivity|reflexivity|].
  exists r. split; [exact Hr|]. split; [exact Hid|]. split; [exact Hfs|exact Hls].
Defined.

Lemma upsert_idempotent_witness :
  ∃ stores,
    upsert_all empty_store [(10, Demo.observed_down); (10, Demo.observed_bare);
                            (25, Demo.observed_down)] = Ok stores
    ∧ Sorted Z.le (omap (λ s', dev_last_seen <$> head (rows_of "10.0.0.1" s')) stores).
Proof.
  eexists. split; [reflexivity|].
  refine (proj2 (proj2 (upsert_idempotent empty_store Demo.observed_down 10 20
                          (upsert_device 10 (device_params Demo.observed_down) empty_store) 1
                          (upsert_device 20 (device_params Demo.observed_down)
                             (upsert_device 10 (device_params Demo.observed_down) empty_store)) 1
                          "10.0.0.1"
                          [(10, Demo.observed_down); (10, Demo.observed_bare);
                           (25, Demo.observed_down)] _ _ _ _ _ _ _ _))).
  all: try reflexivity.
  - apply NoDup_nil_2.
  - repeat (apply Forall_cons_2; [reflexivity|]). apply Forall_nil_2.
  - simpl. repeat first [apply Sorted_nil | apply Sorted_cons | apply HdRel_nil | apply HdRel_cons]; lia.
Defined.

Lemma scan_timeout_result_witness :
  sr_duration (scan Demo.scanner Demo.timed_out (Some "192.168.1.0/24")
                    ScanType.DISCOVERY None 600) = Some (IntSeconds 600).
Proof.
  refine (proj1 (proj2 (proj2
    (scan_timeout_result Demo.scanner Demo.timed_out (Some "192.168.1.0/24")
       ScanType.DISCOVERY None 600
       "/usr/bin/nmap -sn -T4 -oX /tmp/nmap_1.xml 192.168.1.0/24" _ _))));
    reflexivity.
Defined.

(** C7, as stated, fails: the error of a timed-out scan is not the text
    timeout. *)
Lemma scan_timeout_error_counterexample :
  let result := scan Demo.scanner Demo.timed_out (Some "192.168.1.0/24")
                     ScanType.DISCOVERY None 600 in
  env_process Demo.timed_out = TimeoutExpiredAfter
  ∧ sr_error result = Some "Scan timeout after 600s"
  ∧ sr_error result ≠ Some "timeout".
Proof. by repeat split. Qed.

Lemma parse_os_best_match_witness :
  ∃ os_info best,
    _parse_os Demo.os_host = Ok (Some os_info)
    ∧ length (os_matches os_info) = length (ET.findall Demo.os_elem "osmatch")
    ∧ os_best_match os_info = Some best
    ∧ best ∈ os_matches os_info.
Proof.
  destruct (parse_os_best_match Demo.os_host Demo.os_elem)
    as (os_info & best & pre & best_elem & post & accuracy
        & Hos & Hall & Hbest & _ & Hplace & _).
  - reflexivity.
  - discriminate.
  - repeat (apply Forall_cons_2; [eexists; vm_compute; reflexivity|]).
    apply Forall_nil_2.
  - exists os_info, best. split; [exact Hos|].
    split; [symmetry; exact (Forall2_length _ _ _ Hall)|].
    split; [exact Hbest|]. exact (list_elem_of_lookup_2 _ _ _ Hplace).
Defined.

(** C6, as stated, fails: a host with two candidates, of which one has no
    accuracy attribute, has no best match. The accuracy of that candidate
    is the empty string, the key of [max] raises on it, and the exception
    leaves [_parse_os]. *)
Lemma parse_os_no_accuracy_counterexample :
  ET.find Demo.no_accuracy_host "os" = Some Demo.no_accuracy_os
  ∧ length (ET.findall Demo.no_accuracy_os "osmatch") = 2%nat
  ∧ _parse_os Demo.no_accuracy_host
    = Raise (mkExn ValueError "invalid literal for int() with base 10: ''")
  ∧ ¬ ∃ os_info best,
        _parse_os Demo.no_accuracy_host = Ok (Some os_info)
        ∧ os_best_match os_info = Some best.
Proof.
  split; [reflexivity|]. split; [reflexivity|].
  assert (_parse_os Demo.no_accuracy_host
          = Raise (mkExn ValueError "invalid literal for int() with base 10: ''"))
    as Hraise by (vm_compute; reflexivity).
  split; [exact Hraise|].
  intros (os_info & best & Hos & _). rewrite Hraise in Hos. discriminate Hos.
Qed.

(** Of two candidates with the largest accuracy the first is the best match. *)
Example parse_os_tie :
  (λ info : option OsInfo, (info ≫= os_best_match) ≫= om_name) <$> _parse_os Demo.os_host
  = Ok (Some "Linux 5.x").
Proof. vm_compute. reflexivity. Qed.

Lemma extract_devices_postcondition_witness :
  ∃ devices,
    extract_devices Demo.scenario = Ok devices
    ∧ Forall2 extracted [Demo.web_host; Demo.mac_host] devices.
Proof.
  apply (extract_devices_postcondition Demo.scenario). repeat constructor.
Defined.

(** The scenario of the specification: two devices, the oui of the one
    with a MAC is AABBCC, the other one carries two open ports. *)
Example extract_devices_scenario :
  (λ devices : list DeviceData,
     (λ d, (dd_ip_address d, dd_oui d,
            Py.get (dd_metadata d) ≫= md_open_ports_count)) <$> devices)
    <$> extract_devices Demo.scenario
  = Ok [(Some "192.168.1.101", None, Some 2); (Some "192.168.1.100", Some "AABBCC", None)].
Proof. vm_compute. reflexivity. Qed.

(** C5, as stated, fails: the device of a host that is up and has no ports
    carries neither a port list nor open_ports_count in its metadata. *)
Lemma extract_devices_no_ports_counterexample :
  ∃ d metadata,
    extract_devices
      (PRun (_parse_scan_info Demo.empty_run) [Demo.mac_host]
            {| rs_end_time := None; rs_elapsed := None; rs_hosts_up := Some 1;
               rs_hosts_down := Some 0; rs_hosts_total := Some 1 |} 1 0 1) = Ok [d]
    ∧ host_status Demo.mac_host = Some "up"
    ∧ dd_metadata d = Has metadata
    ∧ md_ports metadata = None
    ∧ md_open_ports_count metadata = None
    ∧ md_open_ports_count metadata ≠
        Some (Z.of_nat (length (filter (λ p, get (port_state p) = Some "open")
                                       (default [] (host_ports Demo.mac_host))))).
Proof. eexists _, _. by repeat split. Qed.

Lemma classify_device_scores_witness :
  ∃ best_type best_rule pre post,
    classify_device Demo.rules Demo.web_device = Ok best_type
    ∧ Demo.rules = pre ++ (best_type, best_rule) :: post
    ∧ 0 < score_in_words Demo.web_device best_rule.
Proof.
  destruct (classify_device_scores Demo.rules Demo.web_device)
    as (_ & best_type & best_rule & pre & post & Hbest & Hsplit & Hpos & _).
  - compute_done.
  - split; [discriminate|].
    repeat (apply Forall_cons_2;
            [intros _; split; [intros _; eexists; vm_compute; reflexivity|discriminate]|]).
    apply Forall_nil_2.
  - apply Exists_cons_tl, Exists_cons_hd. vm_compute. reflexivity.
  - exists best_type, best_rule, pre, post. exact (conj Hbest (conj Hsplit Hpos)).
Defined.

(** C4, as stated, fails. A keyword written with a capital scores 20 on
    a host name that holds it in another case, although it does not occur
    in the lower-cased text. A rule that names port 80 twice scores 10
    for it, not 20, and so loses to a rule with one matching service that
    it would beat by the count of the specification. For a device whose
    metadata is None there are no scores: [classify_device] raises. *)
Lemma classify_device_claimed_score_counterexample :
  (∃ open_ports services,
     collect_open_ports (device_ports Demo.web_device) = Ok open_ports
     ∧ collect_services (device_ports Demo.web_device) = Ok services
     ∧ rule_score open_ports services (keyword_text Demo.web_device)
       <$> Demo.cased_rules.*2 = [20]
     ∧ rule_score open_ports services (keyword_text Demo.web_device)
       <$> Demo.repeated_rules.*2 = [10; 15])
  ∧ keyword_text Demo.web_device = "web01   "
  ∧ claimed_score Demo.web_device <$> Demo.cased_rules.*2 = [0]
  ∧ classify_device Demo.cased_rules Demo.web_device = Ok "server"
  ∧ claimed_score Demo.web_device <$> Demo.repeated_rules.*2 = [20; 15]
  ∧ classify_device Demo.repeated_rules Demo.web_device = Ok "server"
  ∧ classify_device Demo.rules Demo.unreadable_device
    = Raise (mkExn AttributeError "'NoneType' object has no attribute 'get'").
Proof.
  split.
  { eexists _, _. split; [vm_compute; reflexivity|].
    split; [vm_compute; reflexivity|].
    split; vm_compute; reflexivity. }
  split; [vm_compute; reflexivity|].
  split; [vm_compute; reflexivity|]. split; [vm_compute; reflexivity|].
  split; [vm_compute; reflexivity|]. split; vm_compute; reflexivity.
Qed.

(** The two web rules both score 35 on the web device; the earlier one is
    returned. *)
Example classify_device_tie :
  classify_device Demo.rules Demo.web_device = Ok "server"
  ∧ score_in_words Demo.web_device <$> Demo.rules.*2 = [0; 35; 35].
Proof. split; vm_compute; reflexivity. Qed.

Lemma task_status_changes_witness :
  ∃ t', get_task (store Demo.executed_twice_entered) 1 = Some t'
        ∧ status_change (Some "completed") (tsk_status t').
Proof.
  destruct (task_status_changes Demo.config Demo.executed_once (Enter 1 4)
              Demo.executed_twice_entered) as [Hold _].
  - exists (take 4 Demo.twice). eexists. split; vm_compute; reflexivity.
  - vm_compute. reflexivity.
  - destruct (Hold 1 Demo.completed_task) as (t' & Ht' & Hchange & _).
    + vm_compute. reflexivity.
    + exists t'. exact (conj Ht' Hchange).
Defined.

(** C2, as stated, fails: a task that the sweep read while it was pending
    is executed a second time after its directly triggered execution has
    completed, and goes from completed back to running. *)
Lemma task_reexecuted_counterexample :
  ∃ trace sys sys',
    run Demo.config initial Demo.twice = Some trace
    ∧ (λ sys, status_of sys 1) <$> trace
      = [None; Some "pending"; Some "pending"; Some "running"; Some "completed";
         Some "running"; Some "completed"]
    ∧ trace !! 4%nat = Some sys ∧ trace !! 5%nat = Some sys'
    ∧ step Demo.config sys (Enter 1 4) = Some sys'
    ∧ status_of sys 1 = Some "completed"
    ∧ status_of sys' 1 = Some "running".
Proof.
  eexists _, _, _. split; [vm_compute; reflexivity|].
  split; [vm_compute; reflexivity|].
  split; [reflexivity|]. split; [reflexivity|].
  split; [vm_compute; reflexivity|].
  split; vm_compute; reflexivity.
Qed.

(** A pending task becomes failed without having run: the database is
    locked when the task is to be marked running, the job of the trigger
    logs the exception and leaves the task pending, and the handler of
    the sweep writes it failed with the text of the exception. *)
Example task_failed_from_pending :
  let trace := default [] (@run Demo.builtins Demo.reader Demo.json
                                (Demo.sqlite_locked "running") Demo.config initial
                                Demo.entered_twice) in
  (λ sys, status_of sys 1) <$> trace
  = [None; Some "pending"; Some "pending"; Some "pending"; Some "failed"]
  ∧ (λ sys, get_task (store sys) 1 ≫= tsk_error) <$> trace
    = [None; None; None; None; Some "database is locked"].
Proof. split; vm_compute; reflexivity. Qed.

Lemma parse_failure_is_explicit_witness :
  ∃ error, parse_xml "<nmaprun" = PError error
           ∧ extract_devices (parse_xml "<nmaprun") = Ok []
           ∧ error = "XML parse error: unclosed token: line 1, column 0".
Proof.
  destruct (parse_failure_is_explicit "<nmaprun"
              (scan Demo.scanner (Demo.exited_ok (Some "<nmaprun"))
                    (Some "192.168.1.0/24") ScanType.DISCOVERY None 600)
              1)
    as (error & Hparse & _ & Herror & _ & Hdevices & _).
  - right. eexists. vm_compute. reflexivity.
  - vm_compute. reflexivity.
  - vm_compute. reflexivity.
  - exists error. split; [exact Hparse|]. split; [exact Hdevices|].
    apply (Herror (mkExn ParseError "unclosed token: line 1, column 0"));
      [discriminate|vm_compute; reflexivity].
Defined.

(** C8, as stated, fails in its second half: when the tool exits with 0
    and leaves a text that is not well-formed, the task is written
    completed, with no error text, and not failed with the parse error. *)
Lemma parse_failure_task_counterexample :
  ∃ s result t,
    execute_task Demo.config Demo.one_task 1 5 (Demo.world (Some "<nmaprun")) 1
      = (s, Ok result)
    ∧ ET.fromstring "<nmaprun"
      = Raise (mkExn ParseError "unclosed token: line 1, column 0")
    ∧ sr_parsed_data result
      = Some (PError "XML parse error: unclosed token: line 1, column 0")
    ∧ sr_devices result = Some []
    ∧ sr_success result = true
    ∧ sr_error result = None
    ∧ get_task s 1 = Some t
    ∧ tsk_status t = Some "completed"
    ∧ tsk_status t ≠ Some "failed"
    ∧ tsk_error t = None.
Proof.
  eexists _, _, _. split; [vm_compute; reflexivity|].
  split; [vm_compute; reflexivity|]. split; [vm_compute; reflexivity|].
  split; [vm_compute; reflexivity|]. split; [vm_compute; reflexivity|].
  split; [vm_compute; reflexivity|].
  split; [vm_compute; reflexivity|]. split; [vm_compute; reflexivity|].
  split; [vm_compute; discriminate|vm_compute; reflexivity].
Qed.

(** The worker does not hand an empty payload to the parser: the result
    of a scan that exits with 0 and leaves an empty scratch file carries
    neither an error dict nor a device list, and its task is written
    completed. *)
Example empty_payload_not_parsed :
  ∃ s result t,
    execute_task Demo.config Demo.one_task 1 5 (Demo.world (Some EmptyString)) 1
      = (s, Ok result)
    ∧ parse_xml EmptyString = PError "Empty XML output"
    ∧ sr_xml_output result = Some EmptyString
    ∧ sr_parsed_data result = None
    ∧ sr_devices result = None
    ∧ sr_success result = true
    ∧ get_task s 1 = Some t
    ∧ tsk_status t = Some "completed"
    ∧ tsk_error t = None.
Proof.
  eexists _, _, _. split; [vm_compute; reflexivity|].
  repeat split; vm_compute; reflexivity.
Qed.


(** A batch whose second device is refused for its missing address leaves
    the rows of its first and of its last device, and the ports of the
    first. *)
Example reconciliation_batch :
  let final := @_process_scan_result Demo.builtins Demo.json Demo.sqlite_not_null
                 empty_store 5 (Demo.scanned Demo.batch) in
  device_keys final = [(1, Some "192.168.1.101"); (2, Some "192.168.1.100")]
  ∧ port_keys final = [(Some 1, Some 80, Some "tcp"); (Some 1, Some 443, Some "tcp")]
  ∧ evt_device_id <$> events final = [Some 1; Some 2].
Proof. vm_compute. by repeat split. Qed.


(** On the update path [add_device] returns the row id of the last insert
    of the connection, whatever its table: a known device that is seen
    again after the result of the scan was saved with row id 2 has its
    ports and its event filed under 2, the id of another device. *)
Example reconciliation_stale_rowid :
  let before := _process_scan_result empty_store 5 (Demo.scanned Demo.unnumbered_batch) in
  let final := _process_scan_result before 9 (Demo.scanned [Demo.web_device]) in
  device_keys final = [(1, Some "192.168.1.101"); (2, Some "192.168.1.103")]
  ∧ port_keys final = [(Some 1, Some 80, Some "tcp"); (Some 1, Some 443, Some "tcp");
                       (Some 2, Some 80, Some "tcp"); (Some 2, Some 443, Some "tcp")]
  ∧ evt_device_id <$> events final = [Some 1; Some 2; Some 2].
Proof. vm_compute. by repeat split. Qed.

Lemma classify_device_by_os_witness :
  ∃ device_type,
    classify_device [] Demo.web_device = Ok device_type
    ∧ device_type ∈ ["workstation"; "server"; "mobile"; "unknown"].
Proof.
  destruct (classify_device_by_os [] Demo.web_device
              [Demo.open_port "80" "http"; Demo.open_port "443" "https"]
              {[ 80; 443 ]} {[ "http"; "https" ]})
    as (device_type & Hclass & Hin & _ & _ & _).
  - apply NoDup_nil_2.
  - reflexivity.
  - vm_compute. reflexivity.
  - vm_compute. reflexivity.
  - apply Forall_nil_2.
  - exists device_type. exact (conj Hclass Hin).
Defined.

Lemma config_set_get_witness :
  Configuration.set (H := Demo.errors) Demo.default_config
    "scanner.workers.timeout" (Configuration.VInt 30) = Ok Demo.timeout_set ∧
  Configuration.get Demo.timeout_set "scanner.workers.timeout" Configuration.VNone
    = Configuration.VInt 30.
Proof.
  split; [reflexivity|].
  apply (config_set_get (H := Demo.errors) Demo.default_config
           "scanner.workers.timeout" (Configuration.VInt 30)).
  reflexivity.
Defined.

Lemma config_set_frame_witness :
  Configuration.get Demo.timeout_set "scanner.workers.max_workers" Configuration.VNone
    = Configuration.get Demo.default_config "scanner.workers.max_workers"
        Configuration.VNone.
Proof.
  apply (config_set_frame (H := Demo.errors) Demo.default_config
           "scanner.workers.timeout" (Configuration.VInt 30)).
  - reflexivity.
  - split; intros [rest Hrest]; vm_compute in Hrest; discriminate Hrest.
Defined.

(** Setting a key below a text raises; a missing mapping is created. *)
Example config_set_below_text :
  (∃ msg, Configuration.set (H := Demo.errors) Demo.default_config
            "database.path.mode" (Configuration.VStr "ro")
          = Raise (mkExn TypeError msg)) ∧
  (∃ data, Configuration.set (H := Demo.errors) Demo.default_config
             "alerts.rules.new_device" (Configuration.VBool false) = Ok data ∧
           Configuration.get data "alerts.rules.new_device" Configuration.VNone
             = Configuration.VBool false).
Proof. split; [by eexists|]. eexists. split; reflexivity. Qed.

Lemma reachable_well_formed_witness : well_formed (store Demo.executed_once).
Proof.
  apply (reachable_well_formed Demo.config).
  exists (take 4 Demo.twice). eexists. split; vm_compute; reflexivity.
Defined.

Lemma step_grows_witness :
  grows (store Demo.executed_once) (store Demo.executed_twice_entered).
Proof.
  apply (step_grows Demo.config Demo.executed_once (Enter 1 4)).
  vm_compute. reflexivity.
Defined.

Lemma enrich_device_data_result_witness :
  Recognition.enrich_device_data Demo.rules Demo.oui_cache Demo.web_device_mac
    = Ok Demo.enriched_web
  ∧ dd_vendor (Recognition.enr_device Demo.enriched_web) = Some "Test Vendor"
  ∧ Recognition.enrich_device_data Demo.rules Demo.oui_cache
      (Recognition.enr_device Demo.enriched_web) = Ok Demo.enriched_web.
Proof.
  assert (Henrich : Recognition.enrich_device_data Demo.rules Demo.oui_cache
                      Demo.web_device_mac = Ok Demo.enriched_web)
    by (vm_compute; reflexivity).
  destruct (enrich_device_data_result Demo.rules Demo.oui_cache Demo.web_device_mac
              Demo.enriched_web Henrich) as (_ & _ & _ & _ & _ & Hagain).
  split; [exact Henrich|]. split; [reflexivity|exact Hagain].
Defined.

Lemma execute_task_outcome_witness :
  ∃ t', get_task (execute_task Demo.config Demo.one_task 1 5 (Demo.world None) 1).1 1
        = Some t'
        ∧ tsk_status t' = Some "completed" ∧ tsk_error t' = None
        ∧ tsk_started_at t' = Some 1 ∧ tsk_completed_at t' = Some 5.
Proof.
  destruct (execute_task_outcome Demo.config Demo.one_task 1 5 (Demo.world None) 1
              (default Demo.completed_task (get_task Demo.one_task 1)))
    as [_ Hrun].
  - vm_compute. reflexivity.
  - destruct Hrun as (_ & _ & _ & _ & _ & _ & _ & t' & Ht' & Hstart & _ & _ & _ & Hdone & _);
      [reflexivity|reflexivity|].
    destruct Hdone as (_ & Hst & Herr & Hend); [reflexivity|].
    exists t'. split; [exact Ht'|]. split; [exact Hst|]. split; [exact Herr|].
    split; [exact Hstart|exact Hend].
Defined.

(** A scan that succeeded and a database that is locked when the task is
    to be written completed: the handler of [execute_task] writes the task
    failed with the text of the exception and returns the dict of that
    error. When the database is locked for the update to running, the
    exception leaves [execute_task] and the task stays pending. *)
Example execute_task_locked :
  let completed := @execute_task Demo.builtins Demo.reader Demo.json
                     (Demo.sqlite_locked "completed") Demo.config Demo.one_task 1 5
                     (Demo.world None) 1 in
  let running := @execute_task Demo.builtins Demo.reader Demo.json
                   (Demo.sqlite_locked "running") Demo.config Demo.one_task 1 5
                   (Demo.world None) 1 in
  completed.2 = Ok (worker_error None "database is locked")
  ∧ (get_task completed.1 1 ≫= tsk_status) = Some "failed"
  ∧ (get_task completed.1 1 ≫= tsk_error) = Some "database is locked"
  ∧ length (scan_results completed.1) = 1%nat
  ∧ running = (Demo.one_task, Raise (mkExn DatabaseError "database is locked"))
  ∧ (get_task running.1 1 ≫= tsk_status) = Some "pending".
Proof. repeat split; vm_compute; reflexivity. Qed.

Lemma parse_xml_hosts_witness :
  ∃ host, hosts_of (@parse_xml Demo.builtins Demo.documents Demo.two_hosts_xml) = [host]
          ∧ host_status host = Some "up"
          ∧ host_ip_address host = Some "10.0.0.5"
          ∧ host_mac_address host = Some "AA:BB:CC:00:00:02"
          ∧ host_vendor host = Some "Test Vendor".
Proof.
  eexists. split; [vm_compute; reflexivity|].
  destruct (@parse_xml_hosts Demo.builtins Demo.documents Demo.two_hosts_xml
              Demo.two_hosts_run
              (@_parse_scan_info Demo.builtins Demo.two_hosts_run)
              (hosts_of (@parse_xml Demo.builtins Demo.documents Demo.two_hosts_xml))
              {| rs_end_time := None; rs_elapsed := None; rs_hosts_up := None;
                 rs_hosts_down := None; rs_hosts_total := None |} 0 0 0)
    as (_ & _ & _ & _).
  - vm_compute. reflexivity.
  - vm_compute. reflexivity.
  - vm_compute. by repeat split.
Defined.

Lemma parse_xml_unreadable_accuracy_witness :
  ∃ s, @parse_xml Demo.builtins Demo.documents Demo.unreadable_xml
       = PError ("Error parsing XML: " +:+ @int_error Demo.builtins s).
Proof.
  destruct (@parse_xml_unreadable_accuracy Demo.builtins Demo.documents
              Demo.unreadable_xml Demo.unreadable_run Demo.unreadable_host
              (ET.Elem "os" [] None [Demo.unreadable_match]) Demo.unreadable_match)
    as (s & _ & Hparse & _).
  - vm_compute. discriminate.
  - vm_compute. reflexivity.
  - vm_compute. by left.
  - eexists. vm_compute. reflexivity.
  - vm_compute. reflexivity.
  - vm_compute. by left.
  - vm_compute. reflexivity.
  - exists s. exact Hparse.
Defined.

(** The last IPv4 address and the last MAC of the host are kept, with the
    vendor that the first MAC element names. *)
Example parse_addresses_vendor :
  _parse_addresses Demo.addressed_host
  = {| a_ip_address := Some "10.0.0.5"; a_ipv6_address := None;
       a_mac_address := Some "AA:BB:CC:00:00:02"; a_vendor := Some "Test Vendor" |}.
Proof. vm_compute. reflexivity. Qed.

Lemma add_device_get_device_witness :
  ∃ r, get_device (upsert_device 10 (device_params Demo.observed_down) empty_store)
                  (Some 1) None = Some r
       ∧ dev_ip_address r = Some "10.0.0.1" ∧ dev_first_seen r = 10.
Proof.
  destruct (add_device_get_device empty_store 10 Demo.observed_down
              (upsert_device 10 (device_params Demo.observed_down) empty_store) 1
              "10.0.0.1")
    as (r & _ & Hip & _ & _ & Hnew & _); [reflexivity|discriminate|reflexivity|].
  destruct Hnew as (_ & Hfirst & Hget); [reflexivity|].
  exists r. split; [exact Hget|]. split; [exact Hip|exact Hfirst].
Defined.

Lemma add_port_get_device_ports_witness :
  ∃ r, r ∈ get_device_ports
             (upsert_port 10 (port_params (Demo.port_data 1 80 "open")) empty_store) 1
       ∧ prt_port_number r = Some 80 ∧ prt_state r = Some "open".
Proof.
  destruct (add_port_get_device_ports empty_store 10 (Demo.port_data 1 80 "open")
              (upsert_port 10 (port_params (Demo.port_data 1 80 "open")) empty_store) 1 1)
    as (_ & (r & Hin & Hn & _ & Hstate & _) & _); [reflexivity|reflexivity|].
  exists r. split; [exact Hin|]. split; [exact Hn|exact Hstate].
Defined.

Lemma calculate_confidence_levels_witness :
  ∃ metadata named,
    get_default (dd_metadata Demo.web_device) empty_metadata = Some metadata
    ∧ Recognition.any_service_name (default [] (md_ports metadata)) = Ok named.
Proof.
  destruct (calculate_confidence_levels Demo.web_device "medium")
    as (metadata & named & Hmd & Hnamed & _); [vm_compute; reflexivity|].
  exists metadata, named. exact (conj Hmd Hnamed).
Defined.

(** The scenario of the specification: a device with an open port 3389 and
    neither host name nor vendor is reported with two reasons and the
    severity high. *)
Example identify_suspicious_scenario :
  Recognition.identify_suspicious_devices Demo.remote_desktop [23; 445; 3389]
  = [{| Recognition.sus_device_id := 1;
        Recognition.sus_ip_address := Some "192.168.1.100";
        Recognition.sus_hostname := None;
        Recognition.sus_mac_address := None;
        Recognition.sus_vendor := None;
        Recognition.sus_device_type := None;
        Recognition.sus_reasons :=
          ["Suspicious port 3389 (None)"; "No hostname or vendor information"];
        Recognition.sus_severity := "high" |}].
Proof. vm_compute. reflexivity. Qed.

(** A MAC address in lower case finds the vendor cached under the prefix in
    upper case. *)
Example get_vendor_from_mac_case :
  Recognition.get_vendor_from_mac (add_oui [] 10 "aabbcc" "Test Vendor")
                                  (Some "aa:bb:cc:dd:ee:ff")
  = Some "Test Vendor".
Proof. vm_compute. reflexivity. Qed.

Lemma build_command_shape_witness :
  ∃ opts,
    [Some "/usr/bin/nmap"; Some "-p"; Some "22,80"; Some "-oX"; Some "/tmp/nmap_1.xml";
     Some "10.0.0.1"]
    = Some "/usr/bin/nmap" :: (Some <$> opts)
      ++ [Some "-oX"; Some "/tmp/nmap_1.xml"] ++ [Some "10.0.0.1"].
Proof.
  destruct (build_command_shape Demo.scanner (Some "10.0.0.1") ScanType.QUICK
              (Some "-p 22,80") (Some "/tmp/nmap_1.xml")
              [Some "/usr/bin/nmap"; Some "-p"; Some "22,80"; Some "-oX";
               Some "/tmp/nmap_1.xml"; Some "10.0.0.1"])
    as (opts & Hcmd & _).
  - vm_compute. reflexivity.
  - exists opts. exact Hcmd.
Defined.

(** The last pair of a batch wins, and a prefix stored in lower case is
    not found. *)
Example bulk_insert_oui_case :
  get_oui_vendor
    (bulk_insert_oui [] 0 [("aabbcc", "First"); ("AABBCC", "Second"); ("AABBCC", "Third")])
    "aabbcc" = Some "Third"
  ∧ get_oui_vendor (bulk_insert_oui [] 0 [("aabbcc", "First")]) "aabbcc" = None.
Proof. split; vm_compute; reflexivity. Qed.

End Examples.
